(** * FoodFinder: vector index, multimodal retriever, tool layer and agent loop

    A shallow embedding of the Python sources

      - [src/vectorstore/faiss_index.py]   (class [FAISSIndex])
      - [src/vectorstore/retriever.py]     (class [MultimodalRetriever])
      - [src/agent/tools/rag_text_tool.py], [rag_image_tool.py],
        [image_qa_tool.py]                 (the three tools)
      - [src/agent/main_agent.py]          (class [FoodFinderAgent])

    together with the properties of the specification that concern them.

    Conventions.  Python objects that are mutated in place and shared by
    reference (the metadata dictionaries) live in an explicit object store;
    a method is a function from the receiver's state to a result and the
    receiver's new state, and the state survives a raised exception, as it
    does in Python.  The components of embedding vectors are integers; the
    vector store works on their [float32] values, and distances are computed
    in [float32] arithmetic, with its rounding and its overflow. *)

From Stdlib Require Import ZArith QArith.
From stdpp Require Import base strings gmap list sorting.

Local Open Scope Z_scope.

(** ** Python prelude: exceptions and the state-and-exception monad *)

Module Py.

(** The exception classes the modelled code can raise.  All of them derive
    from [Exception]; the message text is not modelled. *)
Inductive exn : Set :=
| ValueError
| IndexError
| AttributeError
| AssertionError
| RuntimeError
| TypeError
| FileNotFoundError
| OtherError (name : string).

Inductive result (A : Type) : Type :=
| Ok (a : A)
| Raise (e : exn).
Global Arguments Ok {A} a.
Global Arguments Raise {A} e.

Definition is_ok {A} (r : result A) : bool :=
  match r with Ok _ => true | Raise _ => false end.

(** A computation on a mutable receiver of type [S]: the state is returned
    also when an exception is raised. *)
Definition py (S A : Type) : Type := S -> result A * S.

Definition ret {S A} (a : A) : py S A := fun s => (Ok a, s).
Definition raise {S A} (e : exn) : py S A := fun s => (Raise e, s).
Definition bind {S A B} (c : py S A) (k : A -> py S B) : py S B :=
  fun s => match c s with
           | (Ok a, s') => k a s'
           | (Raise e, s') => (Raise e, s')
           end.
Definition get {S} : py S S := fun s => (Ok s, s).
Definition put {S} (s : S) : py S unit := fun _ => (Ok tt, s).
Definition lift {S A} (r : result A) : py S A := fun s => (r, s).

(** [try: c  except Exception as e: h e] *)
Definition try_except {S A} (c : py S A) (h : exn -> py S A) : py S A :=
  fun s => match c s with
           | (Ok a, s') => (Ok a, s')
           | (Raise e, s') => h e s'
           end.

(** Running a computation of a component inside a larger state. *)
Definition zoom {S T A} (proj : S -> T) (upd : T -> S -> S) (c : py T A)
  : py S A :=
  fun s => let '(r, t) := c (proj s) in (r, upd t s).

(** [l[i]] on a Python list: negative indices count from the end. *)
Definition list_getitem {A} (l : list A) (i : Z) : result A :=
  let n := Z.of_nat (length l) in
  let j := if i <? 0 then n + i else i in
  if (0 <=? j) && (j <? n)
  then match l !! Z.to_nat j with
       | Some a => Ok a
       | None => Raise IndexError
       end
  else Raise IndexError.

End Py.
Import Py.

(** Sequencing is written with the monad notation [x ← c; k] and [c ;; k]. *)
Global Instance py_ret {S} : MRet (py S) := @ret S.
Global Instance py_bind {S} : MBind (py S) := fun A B k c => bind c k.

(** ** The FAISS library (external): exact and partitioned indexes

    [faiss.IndexFlatL2] and [faiss.IndexIVFFlat] are not part of the
    repository; this module states the behaviour of the library calls the
    repository makes, through the Python wrapper of the library. *)

Module Faiss.

Inductive kind : Set := IndexFlatL2 | IndexIVFFlat.

Abbreviation vec := (list Z).

Record index : Type := mk_index {
  d : nat;                    (* dimension               *)
  ikind : kind;
  is_trained : bool;
  centroids : list vec;       (* coarse quantizer (IVF)  *)
  xb : list vec               (* the rows handed to [add], in insertion
                                 order; the library keeps their float32
                                 values, on which every distance is computed *)
}.

Definition ntotal (ix : index) : nat := length (xb ix).

(** Largest finite [float32], [(2^24 - 1) * 2^104]: the distance reported
    for a missing neighbour. *)
Definition FLT_MAX : Z := 340282346638528859811704183484516925440.

(** *** [float32]

    The [float32] nearest to an integer is an integer or an infinity, and
    sums, differences and products of such values round to such values
    again: these, and NaN, are the values that occur. *)
Inductive f32 : Set :=
| Fin (z : Z)
| PInf
| NInf
| NaN.

Global Instance f32_eq_dec : EqDecision f32.
Proof. solve_decision. Defined.

(** The quotient [n / d] of two integers, [d] positive, rounded to the
    nearest integer, ties to the even one. *)
Definition div_nearest_even (n d : Z) : Z :=
  let q := n / d in
  let r := n mod d in
  if 2 * r <? d then q
  else if d <? 2 * r then q + 1
  else if Z.even q then q else q + 1.

(** The nearest integer with 24 significant bits: a multiple of the
    spacing [2 ^ (log2 a - 23)] of such integers around [a]. *)
Definition nearest24 (a : Z) : Z :=
  let u := 2 ^ Z.max 0 (Z.log2 a - 23) in
  u * div_nearest_even a u.

(** Rounding of an integer to [float32]: 24 significant bits, to nearest
    with ties to even; beyond the largest finite value the result is an
    infinity. *)
Definition round32 (z : Z) : f32 :=
  let v := nearest24 (Z.abs z) in
  if FLT_MAX <? v then (if z <? 0 then NInf else PInf)
  else Fin (Z.sgn z * v).

(** [x.astype('float32')] on one component. *)
Definition astype_float32 (z : Z) : f32 := round32 z.

(** [x.astype('float32')] on a row. *)
Definition as_float32 (x : list Z) : list f32 := astype_float32 <$> x.

(** Components whose [float32] value is finite. *)
Definition finite32 (z : Z) : bool :=
  match astype_float32 z with Fin _ => true | _ => false end.

Definition f32_sub (a b : f32) : f32 :=
  match a, b with
  | NaN, _ | _, NaN => NaN
  | Fin x, Fin y => round32 (x - y)
  | PInf, PInf | NInf, NInf => NaN
  | PInf, _ | _, NInf => PInf
  | NInf, _ | _, PInf => NInf
  end.

Definition f32_add (a b : f32) : f32 :=
  match a, b with
  | NaN, _ | _, NaN => NaN
  | Fin x, Fin y => round32 (x + y)
  | PInf, NInf | NInf, PInf => NaN
  | PInf, _ | _, PInf => PInf
  | NInf, _ | _, NInf => NInf
  end.

Definition f32_mul (a b : f32) : f32 :=
  match a, b with
  | NaN, _ | _, NaN => NaN
  | Fin x, Fin y => round32 (x * y)
  | Fin x, PInf | PInf, Fin x =>
      if x =? 0 then NaN else if x <? 0 then NInf else PInf
  | Fin x, NInf | NInf, Fin x =>
      if x =? 0 then NaN else if x <? 0 then PInf else NInf
  | PInf, PInf | NInf, NInf => PInf
  | PInf, NInf | NInf, PInf => NInf
  end.

(** [1 / v] in [float32] for an integer [v] other than 0: a quotient
    with 24 significant bits or, below [2 ^ -126], a multiple of
    [2 ^ -149]. *)
Definition f32_recip (v : Z) : Q :=
  let a := Z.abs v in
  let p := Z.min (Z.log2_up a + 23) 149 in
  Qred ((Z.sgn v * div_nearest_even (2 ^ p) a) # Z.to_pos (2 ^ p)).

(** The distance kernel, squared Euclidean distance in [float32]:
    [res += tmp * tmp] with [tmp = x[i] - y[i]], as the library's reference
    kernel computes it.  (Vectorised kernels add the terms in another order,
    which matters only where a partial sum is rounded; no statement below
    depends on the order.) *)
Definition fvec_L2sqr (x y : list f32) : f32 :=
  foldl (fun res p => let tmp := f32_sub p.1 p.2 in
                      f32_add res (f32_mul tmp tmp))
        (Fin 0) (zip x y).

(** The computed distance of two rows. *)
Definition l2sqr (x y : vec) : f32 :=
  fvec_L2sqr (as_float32 x) (as_float32 y).

(** The values a sum of squares can take. *)
Definition nonneg (x : f32) : Prop :=
  match x with
  | Fin z => 0 <= z
  | NInf => False
  | _ => True
  end.

(** A computed distance enters a result only when it is below the initial
    threshold [FLT_MAX]: an infinite one and NaN never do. *)
Definition reported (dis : f32) : option Z :=
  match dis with
  | Fin z => if z <? FLT_MAX then Some z else None
  | _ => None
  end.

(** The number of cells of the partitioned index ([nlist]). *)
Definition nlist : nat := 100.

Definition new_flat (dim : nat) : index :=
  mk_index dim IndexFlatL2 true [] [].
Definition new_ivf (dim : nat) : index :=
  mk_index dim IndexIVFFlat false [] [].

Section WithClustering.
(** The k-means clustering run by training; its result is an
    implementation detail of the library. *)
Variable kmeans : list vec -> list vec.

(** [index.train(x)]: a flat index needs no training; the partitioned
    one refuses fewer training points than cells. *)
Definition train (x : list vec) (ix : index) : result unit * index :=
  match ikind ix with
  | IndexFlatL2 => (Ok tt, ix)
  | IndexIVFFlat =>
      if is_trained ix then (Ok tt, ix)
      else if (length x <? nlist)%nat then (Raise RuntimeError, ix)
      else (Ok tt, mk_index (d ix) (ikind ix) true (kmeans x) (xb ix))
  end.

(** [index.add(x)] for an array of shape [(n, w)]. *)
Definition add (w : nat) (x : list vec) (ix : index) : result unit * index :=
  if negb (w =? d ix)%nat then (Raise AssertionError, ix)
  else if negb (is_trained ix) then (Raise RuntimeError, ix)
  else (Ok tt, mk_index (d ix) (ikind ix) (is_trained ix) (centroids ix)
                        (xb ix ++ x)).

(** The order of a result: by ascending distance, and by position among
    entries at the same distance. *)
Definition by_dist : relation (Z * nat) :=
  fun a b => a.1 < b.1 \/ (a.1 = b.1 /\ (a.2 <= b.2)%nat).

Global Instance by_dist_dec a b : Decision (by_dist a b).
Proof. unfold by_dist. apply _. Defined.

(** The rows of [xs] with a reported distance to [q], each with that
    distance and its position. *)
Definition ranked (q : vec) (xs : list vec) : list (Z * nat) :=
  omap (fun p : vec * nat =>
          match reported (l2sqr q p.1) with
          | Some dis => Some (dis, p.2)
          | None => None
          end)
       (zip xs (seq 0 (length xs))).

(** Position of the nearest element of [cs] to [x]. *)
Definition nearest (cs : list vec) (x : vec) : option nat :=
  match merge_sort by_dist (ranked x cs) with
  | [] => None
  | p :: _ => Some p.2
  end.

(** The stored entries a query is compared with: all of them for the
    exact index, those of the query's cell for the partitioned one
    ([nprobe = 1]). *)
Definition candidates (ix : index) (q : vec) : list (Z * nat) :=
  let all := ranked q (xb ix) in
  match ikind ix with
  | IndexFlatL2 => all
  | IndexIVFFlat =>
      List.filter
        (fun p => match xb ix !! p.2 with
                  | Some x => bool_decide (nearest (centroids ix) x
                                           = nearest (centroids ix) q)
                  | None => false
                  end) all
  end.

(** [index.search(q, k)] for one query row: [k] distances and [k]
    labels by ascending distance; missing neighbours are reported with
    label [-1] and distance [FLT_MAX]. *)
Definition search (q : vec) (k : Z) (ix : index)
  : result (list Z * list Z) :=
  if negb (length q =? d ix)%nat then Raise AssertionError
  else if k <=? 0 then Raise AssertionError
  else if negb (is_trained ix) then Raise RuntimeError
  else
    let found := take (Z.to_nat k) (merge_sort by_dist (candidates ix q)) in
    let pad := (Z.to_nat k - length found)%nat in
    Ok ((fst <$> found) ++ replicate pad FLT_MAX,
        ((fun p => Z.of_nat p.2) <$> found) ++ replicate pad (-1)).
End WithClustering.

End Faiss.

(** ** numpy arrays (as far as [FAISSIndex.add] inspects them) *)

Module Np.

Record ndarray : Type := mk_ndarray {
  shape : list nat;
  data : list Z               (* row-major contents *)
}.

Definition ndim (a : ndarray) : nat := length (shape a).

(** The rows of an array of shape [(n, w)]. *)
Definition rows (a : ndarray) : list (list Z) :=
  match shape a with
  | [n; w] => reshape (replicate n w) (data a)
  | _ => []
  end.

(** [a.shape[1]] of a rank-2 array. *)
Definition width (a : ndarray) : nat := default 0%nat (shape a !! 1%nat).

(** The array of shape [(len E, w)] whose rows are [E]. *)
Definition of_rows (w : nat) (E : list (list Z)) : ndarray :=
  mk_ndarray [length E; w] (mjoin E).

End Np.

(** ** The object store

    A metadata record is a Python [dict]; lists hold references to such
    objects, so that a record returned by a search is the very object the
    index stores. *)

Inductive value : Type :=
| VStr (s : string)
| VFloat (q : Q).

Abbreviation dict := (gmap string value).
Abbreviation loc := nat (only parsing).
Abbreviation heap := (list dict) (only parsing).

(** ** [class FAISSIndex]  (src/vectorstore/faiss_index.py) *)

Module FAISSIndex.

Record t : Type := mk {
  dimension : nat;
  index_type : string;
  index : option Faiss.index;
  metadata : list loc
}.

Definition set_index (ix : option Faiss.index) (self : t) : t :=
  mk (dimension self) (index_type self) ix (metadata self).
Definition set_metadata (md : list loc) (self : t) : t :=
  mk (dimension self) (index_type self) (index self) md.

Definition __init__ (dimension : nat) (index_type : string) : t :=
  mk dimension index_type None [].

Definition DEFAULT_INDEX_TYPE : string := "Flat".

(** The vectors the index stores ([[]] before the backend exists). *)
Definition vectors (self : t) : list Faiss.vec :=
  match index self with
  | Some ix => Faiss.xb ix
  | None => []
  end.

(** The three reasons for which [add] rejects its arguments. *)
Definition invalid_input (self : t) (embeddings : Np.ndarray) (md : list loc)
  : Prop :=
  Np.ndim embeddings ≠ 2%nat
  ∨ Np.shape embeddings !! 1%nat ≠ Some (dimension self)
  ∨ Np.shape embeddings !! 0%nat ≠ Some (length md).

(** An index of one of the two kinds [create_index] knows, or one whose
    backend exists already. *)
Definition supported (self : t) : Prop :=
  index self ≠ None ∨ index_type self = "Flat" ∨ index_type self = "IVF".

(** The backend [add] works on: the existing one, or the one
    [create_index] makes. *)
Definition backend (self : t) : option Faiss.index :=
  match index self with
  | Some ix => Some ix
  | None =>
      if String.eqb (index_type self) "Flat"
      then Some (Faiss.new_flat (dimension self))
      else if String.eqb (index_type self) "IVF"
           then Some (Faiss.new_ivf (dimension self))
           else None
  end.

Section Methods.
Variable kmeans : list Faiss.vec -> list Faiss.vec.

Definition create_index : py t unit :=
  self ← get;
  if String.eqb (index_type self) "Flat" then
    put (set_index (Some (Faiss.new_flat (dimension self))) self)
  else if String.eqb (index_type self) "IVF" then
    put (set_index (Some (Faiss.new_ivf (dimension self))) self)
  else raise ValueError.

(** A call [self.index.m(...)]: [AttributeError] while [self.index] is
    [None]. *)
Definition on_index {A} (m : Faiss.index -> result A * Faiss.index)
  : py t A :=
  fun self =>
    match index self with
    | None => (Raise AttributeError, self)
    | Some ix => let '(r, ix') := m ix in (r, set_index (Some ix') self)
    end.

(** [print] calls are left out.  The cast [astype('float32')] of the rows
    is made where their values are used: every distance is computed on the
    [float32] values of the stored rows ([Faiss.l2sqr]). *)
Definition add (embeddings : Np.ndarray) (metadata' : list loc)
  : py t unit :=
  self ← get;
  (if index self is None then create_index else ret tt) ;;
  (* Validate embeddings shape *)
  if negb (Np.ndim embeddings =? 2)%nat then raise ValueError else
  if negb (bool_decide (Np.shape embeddings !! 1%nat
                        = Some (dimension self))) then raise ValueError else
  if negb (bool_decide (Np.shape embeddings !! 0%nat
                        = Some (length metadata'))) then raise ValueError else
  trained ← on_index (fun ix => (Ok (Faiss.is_trained ix), ix));
  (if negb trained
   then on_index (Faiss.train kmeans (Np.rows embeddings))
   else ret tt) ;;
  on_index (Faiss.add (Np.width embeddings) (Np.rows embeddings)) ;;
  self ← get;
  put (set_metadata (metadata self ++ metadata') self).

(** [[self.metadata[idx] for idx in indices if idx < len(self.metadata)]] *)
Fixpoint gather (md : list loc) (indices : list Z) : result (list loc) :=
  match indices with
  | [] => Ok []
  | idx :: rest =>
      if idx <? Z.of_nat (length md) then
        match list_getitem md idx with
        | Raise e => Raise e
        | Ok m => match gather md rest with
                  | Raise e => Raise e
                  | Ok ms => Ok (m :: ms)
                  end
        end
      else gather md rest
  end.

(** The query is handed to the backend as one row
    ([astype('float32').reshape(1, -1)], the cast being made by
    [Faiss.l2sqr]); the result is the row of distances and the records of the
    row of labels. *)
Definition search (query_embedding : Faiss.vec) (k : Z)
  : py t (list Z * list loc) :=
  self ← get;
  r ← on_index (fun ix => (Faiss.search query_embedding k ix, ix));
  results ← lift (gather (metadata self) r.2);
  ret (r.1, results).

Definition DEFAULT_K : Z := 10.

End Methods.

End FAISSIndex.

(** ** Persisted artifacts *)

Module Fs.

(** What a path holds: a serialized vector store (written by
    [faiss.write_index]), a pickled metadata list, or anything else. *)
Inductive file : Type :=
| FaissFile (ix : Faiss.index)
| PickleFile (records : list dict)
| OtherFile.

Abbreviation t := (gmap string file).

(** [Path(p).exists()] *)
Definition exists_ (fs : t) (p : string) : bool := bool_decide (is_Some (fs !! p)).

(** [faiss.read_index(p)] *)
Definition read_index (fs : t) (p : string) : result Faiss.index :=
  match fs !! p with
  | Some (FaissFile ix) => Ok ix
  | _ => Raise RuntimeError
  end.

(** [with open(p, 'rb') as f: pickle.load(f)] *)
Definition pickle_load (fs : t) (p : string) : result (list dict) :=
  match fs !! p with
  | None => Raise FileNotFoundError
  | Some (PickleFile records) => Ok records
  | Some _ => Raise (OtherError "UnpicklingError")
  end.

(** [pathlib]'s [dir / name] followed by [str]. *)
Definition join (dir name : string) : string := dir +:+ "/" +:+ name.

Fixpoint has_separator (p : string) : bool :=
  match p with
  | EmptyString => false
  | String c p' => bool_decide (String c EmptyString = "/") || has_separator p'
  end.

(** A file name: a single path component, neither empty nor [.] nor
    [..]. *)
Definition file_name (name : string) : bool :=
  negb (has_separator name) && bool_decide (name ∉ [""; "."; ".."]).

End Fs.

Module FAISSIndexIO.
Import FAISSIndex.

(** [FAISSIndex.load]: the unpickled records are fresh objects of the
    store. *)
Definition load (fs : Fs.t) (index_path metadata_path : string)
  : py (heap * t) unit :=
  ix ← lift (Fs.read_index fs index_path);
  s ← get;
  put (s.1, set_index (Some ix) s.2) ;;
  records ← lift (Fs.pickle_load fs metadata_path);
  s ← get;
  put (s.1 ++ records,
       set_metadata (seq (length s.1) (length records)) s.2).

End FAISSIndexIO.

(** ** [class MultimodalRetriever]  (src/vectorstore/retriever.py) *)

Module MultimodalRetriever.

Record t : Type := mk {
  index_dir : string;
  text_index : FAISSIndex.t;
  image_index : FAISSIndex.t
}.

Definition set_text_index (ix : FAISSIndex.t) (self : t) : t :=
  mk (index_dir self) ix (image_index self).
Definition set_image_index (ix : FAISSIndex.t) (self : t) : t :=
  mk (index_dir self) (text_index self) ix.

(** The part of the process a retriever method can read or write: the
    object store, the file system, the retriever itself, and the number of
    [load_indices] calls made so far (a ghost counter, used only to state
    properties). *)
Record world : Type := mk_world {
  objects : heap;
  files : Fs.t;
  self_ : t;
  load_calls : nat
}.

Definition set_objects (h : heap) (w : world) : world :=
  mk_world h (files w) (self_ w) (load_calls w).
Definition set_self (r : t) (w : world) : world :=
  mk_world (objects w) (files w) r (load_calls w).
Definition tick_load (w : world) : world :=
  mk_world (objects w) (files w) (self_ w) (S (load_calls w)).

Definition __init__ (index_dir : string) : t :=
  mk index_dir
     (FAISSIndex.__init__ 768 FAISSIndex.DEFAULT_INDEX_TYPE)
     (FAISSIndex.__init__ 512 FAISSIndex.DEFAULT_INDEX_TYPE).

(** [self.text_index.m(...)] and [self.image_index.m(...)] *)
Definition on_text_index {A} (m : py FAISSIndex.t A) : py world A :=
  zoom (fun w => text_index (self_ w))
       (fun ix w => set_self (set_text_index ix (self_ w)) w) m.
Definition on_image_index {A} (m : py FAISSIndex.t A) : py world A :=
  zoom (fun w => image_index (self_ w))
       (fun ix w => set_self (set_image_index ix (self_ w)) w) m.

Definition load_text_index (ip mp : string) : py world unit :=
  fun w =>
    let '(r, (h, ix)) :=
      FAISSIndexIO.load (files w) ip mp (objects w, text_index (self_ w)) in
    (r, set_objects h (set_self (set_text_index ix (self_ w)) w)).
Definition load_image_index (ip mp : string) : py world unit :=
  fun w =>
    let '(r, (h, ix)) :=
      FAISSIndexIO.load (files w) ip mp (objects w, image_index (self_ w)) in
    (r, set_objects h (set_self (set_image_index ix (self_ w)) w)).

(** [1 / (1 + distance)] on a [float32] distance: the sum and the
    quotient are [float32] operations.  (A distance is never negative, so
    the sum is at least 1.) *)
Definition similarity (distance : Z) : Q :=
  match Faiss.f32_add (Faiss.Fin 1) (Faiss.Fin distance) with
  | Faiss.Fin v => Faiss.f32_recip v
  | _ => 0
  end.

(** [result['distance'] = ...; result['similarity'] = ...] on the object
    at [l]. *)
Definition annotate (l : loc) (distance : Z) (h : heap) : heap :=
  alter (fun r => <["similarity" := VFloat (similarity distance)]>
                    (<["distance" := VFloat (inject_Z distance)]> r)) l h.

(** The metadata records an index stores, as they are in the object store. *)
Definition stored_records (h : heap) (ix : FAISSIndex.t) : list dict :=
  (fun l => default ∅ (h !! l)) <$> FAISSIndex.metadata ix.

(** The world after a [load_indices] that found the text artifacts [ix]
    and [records] and no image index. *)
Definition loaded_text_only (w : world) (ix : Faiss.index)
    (records : list dict) : world :=
  mk_world (objects w ++ records) (files w)
    (mk (index_dir (self_ w))
        (FAISSIndex.mk (FAISSIndex.dimension (text_index (self_ w)))
                       (FAISSIndex.index_type (text_index (self_ w)))
                       (Some ix)
                       (seq (length (objects w)) (length records)))
        (image_index (self_ w)))
    (S (load_calls w)).

Section Methods.
(** The two embedding providers (opaque services; they may fail). *)
Variable text_embed : string -> result Faiss.vec.
Variable image_embed : string -> result Faiss.vec.

Definition search_text (query : string) (k : Z) : py world (list loc) :=
  embedding ← lift (text_embed query);
  r ← on_text_index (FAISSIndex.search embedding k);
  mret r.2.

Definition search_image (image_path : string) (k : Z)
  : py world (list loc) :=
  embedding ← lift (image_embed image_path);
  r ← on_image_index (FAISSIndex.search embedding k);
  (* Add distance and similarity to each result: the loop runs over
     [enumerate(results)] while [i < len(distances)] *)
  w ← get;
  put (set_objects
         (foldl (fun h p => annotate p.1 p.2 h) (objects w) (zip r.2 r.1))
         w) ;;
  mret r.2.

Definition load_indices : py world unit :=
  w ← get;
  put (tick_load w) ;;
  let dir := index_dir (self_ w) in
  let text_index_path := Fs.join dir "text_index.faiss" in
  let text_metadata_path := Fs.join dir "text_metadata.pkl" in
  let image_index_path := Fs.join dir "image_index.faiss" in
  let image_metadata_path := Fs.join dir "image_metadata.pkl" in
  (* Verify text index exists (required) *)
  if negb (Fs.exists_ (files w) text_index_path) then raise FileNotFoundError
  else
    (* Load text index (required) *)
    load_text_index text_index_path text_metadata_path ;;
    (* Load image index (optional) *)
    if Fs.exists_ (files w) image_index_path
    then load_image_index image_index_path image_metadata_path
    else mret tt.

End Methods.

End MultimodalRetriever.

(** ** The tool layer  (src/agent/tools/) *)

Module Tools.
Import MultimodalRetriever.

(** State of a retrieval tool instance.  [retriever] tells whether the
    instance holds the process-wide retriever or [None]. *)
Record rag_tool : Type := mk_rag {
  retriever : bool;
  _indices_loaded : bool
}.

Definition rag_init (retriever : bool) : rag_tool := mk_rag retriever false.

Definition set_loaded (b : bool) (self : rag_tool) : rag_tool :=
  mk_rag (retriever self) b.

Definition DEFAULT_K : Z := 5.

Section Run.
Variable text_embed : string -> result Faiss.vec.
Variable image_embed : string -> result Faiss.vec.
(** [json.dumps(results, indent=2)] on the records themselves. *)
Variable json_dumps : list dict -> result string.
(** [str(e)] and [traceback.format_exc()] *)
Variable str_exn : exn -> string.
Variable format_exc : exn -> string.

(** A method call on [self.retriever]. *)
Definition on_retriever {A} (m : py world A) : py (rag_tool * world) A :=
  fun s =>
    if retriever s.1
    then let '(r, w) := m s.2 in (r, (s.1, w))
    else (Raise AttributeError, s).

Definition deref (h : heap) (ls : list loc) : list dict :=
  (fun l => default ∅ (h !! l)) <$> ls.

(** The first statement of both [_run] methods: load indices once. *)
Definition ensure_loaded : py (rag_tool * world) unit :=
  s ← get;
  if negb (_indices_loaded s.1) && retriever s.1 then
    on_retriever load_indices ;;
    s ← get;
    put (set_loaded true s.1, s.2)
  else mret tt.

Definition render (empty_text : string) (results : list loc)
  : py (rag_tool * world) string :=
  if bool_decide (results = []) then mret empty_text
  else
    s ← get;
    lift (json_dumps (deref (objects s.2) results)).

Definition error_payload (prefix : string) (e : exn) : string :=
  prefix +:+ str_exn e +:+ "

Details:
" +:+ format_exc e.

(** The [try] block of [RAGTextTool._run]. *)
Definition rag_text_attempt (query : string) (k : Z)
  : py (rag_tool * world) string :=
  (* Load indices once *)
  ensure_loaded ;;
  (* Search for restaurants *)
  results ← on_retriever (search_text text_embed query k);
  render "No restaurants found matching your query." results.

(** [RAGTextTool._run] *)
Definition rag_text_run (query : string) (k : Z)
  : py (rag_tool * world) string :=
  try_except
    (rag_text_attempt query k)
    (fun e => mret (error_payload "Error retrieving restaurants: " e)).

(** The [try] block of [RAGImageTool._run]. *)
Definition rag_image_attempt (image_path : string) (k : Z)
  : py (rag_tool * world) string :=
  ensure_loaded ;;
  results ← on_retriever (search_image image_embed image_path k);
  render "No similar restaurants found for the provided image." results.

(** [RAGImageTool._run] *)
Definition rag_image_run (image_path : string) (k : Z)
  : py (rag_tool * world) string :=
  try_except
    (rag_image_attempt image_path k)
    (fun e => mret (error_payload "Error retrieving similar restaurants: " e)).

(** A series of invocations of one tool instance. *)
Fixpoint run_all {A} (run : A -> Z -> py (rag_tool * world) string)
    (calls : list (A * Z)) : py (rag_tool * world) (list string) :=
  match calls with
  | [] => mret []
  | c :: rest =>
      out ← run c.1 c.2;
      more ← run_all run rest;
      mret (out :: more)
  end.

End Run.

(** *** [ImageQATool] *)

Definition lower_ascii (c : Ascii.ascii) : Ascii.ascii :=
  let n := Ascii.nat_of_ascii c in
  if ((65 <=? n) && (n <=? 90))%nat then Ascii.ascii_of_nat (n + 32) else c.

Fixpoint lower (s : string) : string :=
  match s with
  | EmptyString => EmptyString
  | String c s' => String (lower_ascii c) (lower s')
  end.

(** [needle in hay] on strings *)
Fixpoint contains (needle hay : string) : bool :=
  String.prefix needle hay ||
  match hay with
  | EmptyString => false
  | String _ hay' => contains needle hay'
  end.

Definition any_in (words : list string) (s : string) : bool :=
  existsb (fun w => contains w s) words.

Definition _generate_answer_candidates (question : string) : list string :=
  let question_lower := lower question in
  (* Cuisine type questions *)
  if any_in ["cuisine"; "type of food"; "what kind"] question_lower then
    ["Italian cuisine"; "Chinese cuisine"; "Japanese cuisine"; "Mexican cuisine";
     "Indian cuisine"; "Thai cuisine"; "French cuisine"; "American cuisine";
     "Mediterranean cuisine"; "Korean cuisine"; "Vietnamese cuisine"; "Greek cuisine"]
  (* Dish description questions *)
  else if any_in ["describe"; "what is this"; "what dish"] question_lower then
    ["a pizza"; "a pasta dish"; "a burger"; "a salad"; "a soup";
     "a sandwich"; "a steak"; "seafood"; "a dessert"; "a rice dish";
     "noodles"; "a vegetable dish"; "fried food"; "grilled food"; "baked food"]
  (* Ingredient questions *)
  else if any_in ["ingredient"; "what's in"; "contains"] question_lower then
    ["vegetables"; "meat"; "seafood"; "cheese"; "pasta"; "rice";
     "bread"; "sauce"; "herbs"; "spices"; "chicken"; "beef";
     "pork"; "fish"; "tofu"; "eggs"; "mushrooms"; "tomatoes"]
  (* Setting/ambiance questions *)
  else if any_in ["setting"; "dining"; "atmosphere"; "ambiance"] question_lower then
    ["formal dining"; "casual dining"; "fast food"; "fine dining";
     "outdoor seating"; "indoor seating"; "modern decor"; "traditional decor";
     "cozy atmosphere"; "elegant setting"]
  (* Protein questions *)
  else if any_in ["protein"; "main ingredient"] question_lower then
    ["chicken"; "beef"; "pork"; "fish"; "shrimp"; "tofu";
     "lamb"; "turkey"; "duck"; "seafood"; "no protein (vegetarian)"]
  (* Default general answers *)
  else
    ["yes"; "no"; "possibly"; "likely"; "unlikely";
     "a food dish"; "a restaurant setting"; "a beverage";
     "multiple items"; "unclear from image"].

Definition by_prob : relation (Q * nat) := fun a b => Qle_bool b.1 a.1 = true.

Global Instance by_prob_dec a b : Decision (by_prob a b).
Proof. unfold by_prob. apply _. Defined.

(** [torch.topk(probs, n)]: values and positions, largest first; asking
    for more entries than there are is an error. *)
Definition topk (probs : list Q) (n : nat) : result (list (Q * nat)) :=
  if (length probs <? n)%nat then Raise RuntimeError
  else Ok (take n (merge_sort by_prob (zip probs (seq 0 (length probs))))).

Section ImageQA.
Variable image : Type.
(** [Image.open(path).convert("RGB")] *)
Variable open_image : string -> result image.
(** The vision-language scorer: processor, model and softmax over the
    candidates. *)
Variable clip_probs : image -> list string -> result (list Q).
(** [f"{x:.1f}"] *)
Variable fmt_1f : Q -> string.
Variable pretty_nat : nat -> string.
Variable str_exn : exn -> string.
Variable format_exc : exn -> string.

Fixpoint answer_lines (candidates : list string) (i : nat)
    (top : list (Q * nat)) : result string :=
  match top with
  | [] => Ok ""
  | (prob, idx) :: rest =>
      match list_getitem candidates (Z.of_nat idx) with
      | Raise e => Raise e
      | Ok answer =>
          match answer_lines candidates (S i) rest with
          | Raise e => Raise e
          | Ok more =>
              Ok (pretty_nat i +:+ ". " +:+ answer +:+ " (confidence: "
                  +:+ fmt_1f (prob * 100)%Q +:+ "%)
" +:+ more)
              end
          end
      end.

(** The [try] block of [ImageQATool._run]; the tool has no mutable state
    of its own and no access to the retriever. *)
Definition image_qa_attempt {S} (image_path question : string) : py S string :=
  (* Load and process image *)
  img ← lift (open_image image_path);
  (* Generate answer candidates based on question *)
  let candidates := _generate_answer_candidates question in
  (* Get similarity scores *)
  probs ← lift (clip_probs img candidates);
  (* Get top 3 answers *)
  top ← lift (topk probs (Nat.min 3 (length candidates)));
  (* Format response *)
  lines ← lift (answer_lines candidates 1 top);
  let response := "Question: " +:+ question +:+ "

Answer based on image analysis:
" +:+ lines in
  (* Add most likely answer as primary response *)
  best ← lift (list_getitem top 0);
  best_answer ← lift (list_getitem candidates (Z.of_nat best.2));
  let best_confidence := (best.1 * 100)%Q in
  if Qlt_le_dec 50 best_confidence
  then mret (response +:+ "
Most likely: " +:+ best_answer)
  else mret (response +:+ "
Note: Low confidence in all answers. The image may not clearly show the requested information.").

(** [ImageQATool._run] *)
Definition image_qa_run {S} (image_path question : string) : py S string :=
  try_except
    (image_qa_attempt image_path question)
    (fun e => mret ("Error analyzing image: " +:+ str_exn e +:+ "

Details:
" +:+ format_exc e)).

End ImageQA.

End Tools.

(** ** The agent loop  (src/agent/main_agent.py) *)

Module Agent.

(** Arguments of a tool call, by tool. *)
Inductive tool_args : Type :=
| TextSearchArgs (query : string) (k : Z)
| ImageSearchArgs (image_path : string) (k : Z)
| ImageQAArgs (image_path question : string).

Record tool_call : Type := mk_call {
  call_name : string;
  call_args : tool_args;
  call_id : string
}.

Inductive message : Type :=
| HumanMessage (content : string)
| AIMessage (content : string) (tool_calls : list tool_call)
| SystemMessage (content : string)
| ToolMessage (content : string) (tool_call_id : string).

Definition is_system (m : message) : bool :=
  match m with SystemMessage _ => true | _ => false end.

Definition is_tool_message (m : message) : bool :=
  match m with ToolMessage _ _ => true | _ => false end.

(** [hasattr(m, 'tool_calls') and m.tool_calls] *)
Definition has_tool_calls (m : message) : bool :=
  match m with
  | AIMessage _ (_ :: _) => true
  | _ => false
  end.

Definition content_of (m : message) : string :=
  match m with
  | HumanMessage c | AIMessage c _ | SystemMessage c | ToolMessage c _ => c
  end.

(** [MessagesState]: the conversation. *)
Abbreviation state := (list message).

(** A conversation without a system message. *)
Definition system_free (st : state) : Prop := existsb is_system st = false.

(** *** The graph library (external): nodes, edges and their execution *)

Inductive node : Set := START | agent | tools | END.

Global Instance node_eq_dec : EqDecision node.
Proof. solve_decision. Defined.

Inductive route : Set := route_tools | route_end.

Section Graph.
(** State of the tool layer, threaded through tool execution. *)
Variable W : Type.

(** A node function returns the messages to append to the state. *)
Record StateGraph : Type := mk_graph {
  node_fn : node -> option (state -> py W (list message));
  edge : node -> option node;
  conditional_edge :
    node -> option ((state -> result route) * (route -> node))
}.

(** The node that runs after [n] has updated the state to [st]. *)
Definition next_node (g : StateGraph) (n : node) (st : state)
  : result node :=
  match conditional_edge g n with
  | Some (path, path_map) =>
      match path st with
      | Ok r => Ok (path_map r)
      | Raise e => Raise e
      end
  | None =>
      match edge g n with
      | Some n' => Ok n'
      | None => Ok END
      end
  end.

(** One step: run the current node, append the messages it returns to the
    conversation (the [add_messages] reducer of [MessagesState]), route. *)
Definition step (g : StateGraph) (n : node) (st : state)
  : py W (node * state) :=
  match node_fn g n with
  | None => n' ← lift (next_node g n st); mret (n', st)
  | Some f =>
      new ← f st;
      let st' := st ++ new in
      n' ← lift (next_node g n st');
      mret (n', st')
  end.

(** [graph.invoke(state)] from node [n], running at most
    [recursion_limit] steps.  Returns the final state and the nodes that
    ran, each with the state it ran on. *)
Fixpoint run_from (g : StateGraph) (recursion_limit : nat)
    (n : node) (st : state) (trace : list (node * state))
  : py W (state * list (node * state)) :=
  match n with
  | END => mret (st, trace)
  | _ =>
      match recursion_limit with
      | O => raise (OtherError "GraphRecursionError")
      | S fuel =>
          c ← step g n st;
          run_from g fuel c.1 c.2
                   (match node_fn g n with
                    | Some _ => trace ++ [(n, st)]
                    | None => trace
                    end)
      end
  end.

Definition invoke (g : StateGraph) (recursion_limit : nat)
    (initial_state : state)
  : py W (state * list (node * state)) :=
  run_from g recursion_limit START initial_state [].

(** *** [class FoodFinderAgent] *)

(** The language model with the tools bound (an opaque service; it may
    fail): the content and the tool calls of its reply. *)
Variable llm : state -> result (string * list tool_call).
(** Execution of one tool call by the tool layer. *)
Variable call_tool : tool_call -> py W string.
Variable system_prompt : string.

Definition _should_continue (st : state) : result route :=
  match list_getitem st (-1) with
  | Raise e => Raise e
  | Ok last_message =>
      (* If the LLM makes tool calls, continue to tools node *)
      if has_tool_calls last_message then Ok route_tools
      (* Otherwise, end the loop *)
      else Ok route_end
  end.

(** The messages [_call_model] hands to the model. *)
Definition model_input (messages : state) : state :=
  (* Add system prompt if this is the first call *)
  if (length messages =? 1)%nat || negb (existsb is_system messages)
  then [SystemMessage system_prompt] ++ messages
  else messages.

Definition _call_model (st : state) : py W (list message) :=
  response ← lift (llm (model_input st));
  mret [AIMessage response.1 response.2].

(** [ToolNode(self.tools)]: runs the tool calls of the last message in
    request order, one [ToolMessage] per call. *)
Fixpoint run_calls (calls : list tool_call) : py W (list message) :=
  match calls with
  | [] => mret []
  | c :: rest =>
      out ← call_tool c;
      more ← run_calls rest;
      mret (ToolMessage out (call_id c) :: more)
  end.

Definition ToolNode (st : state) : py W (list message) :=
  last_message ← lift (list_getitem st (-1));
  match last_message with
  | AIMessage _ calls => run_calls calls
  | _ => raise ValueError
  end.

Definition build_graph : StateGraph :=
  mk_graph
    (fun n => match n with
              | agent => Some _call_model
              | tools => Some ToolNode
              | _ => None
              end)
    (fun n => match n with
              | START => Some agent
              | tools => Some agent
              | _ => None
              end)
    (fun n => match n with
              | agent =>
                  Some (_should_continue,
                        fun r => match r with
                                 | route_tools => tools
                                 | route_end => END
                                 end)
              | _ => None
              end).

Definition DEFAULT_RECURSION_LIMIT : nat := 25.

(** [FoodFinderAgent.run]: the answer and the whole conversation (and,
    for the statements below, the trace of nodes). *)
Definition run (query : string)
  : py W (string * state * list (node * state)) :=
  let initial_state := [HumanMessage query] in
  result ← invoke build_graph DEFAULT_RECURSION_LIMIT initial_state;
  final_message ← lift (list_getitem result.1 (-1));
  mret (content_of final_message, result.1, result.2).

(** The Reasoning and Acting steps of a trace. *)
Definition reasoning_steps (trace : list (node * state)) : list state :=
  snd <$> List.filter (fun p => bool_decide (p.1 = agent)) trace.
Definition acting_steps (trace : list (node * state)) : list state :=
  snd <$> List.filter (fun p => bool_decide (p.1 = tools)) trace.

End Graph.

End Agent.

(** ** The process: one retriever, the toolkit's tools, the agent *)

Module FoodFinder.
Import MultimodalRetriever Tools Agent.

(** The tools [CustomToolkit.get_tools] creates share the module-level
    retriever; each retrieval tool has its own [_indices_loaded] flag. *)
Record process : Type := mk_process {
  text_tool : rag_tool;
  image_tool : rag_tool;
  the_world : world
}.

Definition start (fs : Fs.t) (index_dir : string) : process :=
  mk_process (rag_init true) (rag_init true)
             (mk_world [] fs (MultimodalRetriever.__init__ index_dir) 0).

Definition on_text_tool {A} (m : py (rag_tool * world) A) : py process A :=
  zoom (fun p => (text_tool p, the_world p))
       (fun s p => mk_process s.1 (image_tool p) s.2) m.
Definition on_image_tool {A} (m : py (rag_tool * world) A) : py process A :=
  zoom (fun p => (image_tool p, the_world p))
       (fun s p => mk_process (text_tool p) s.1 s.2) m.

Section Wiring.
Variable text_embed : string -> result Faiss.vec.
Variable image_embed : string -> result Faiss.vec.
Variable json_dumps : list dict -> result string.
Variable str_exn : exn -> string.
Variable format_exc : exn -> string.
Variable image : Type.
Variable open_image : string -> result image.
Variable clip_probs : image -> list string -> result (list Q).
Variable fmt_1f : Q -> string.
Variable pretty_nat : nat -> string.
(** What the tool node answers to a call that names no tool or whose
    arguments do not fit the tool's schema. *)
Variable invalid_call : tool_call -> string.

Definition call_tool (c : tool_call) : py process string :=
  match call_args c with
  | TextSearchArgs query k =>
      if String.eqb (call_name c) "rag_text_search"
      then on_text_tool (rag_text_run text_embed json_dumps str_exn format_exc query k)
      else mret (invalid_call c)
  | ImageSearchArgs image_path k =>
      if String.eqb (call_name c) "rag_image_search"
      then on_image_tool (rag_image_run image_embed json_dumps str_exn format_exc image_path k)
      else mret (invalid_call c)
  | ImageQAArgs image_path question =>
      if String.eqb (call_name c) "image_qa"
      then image_qa_run image open_image clip_probs fmt_1f pretty_nat
                        str_exn format_exc image_path question
      else mret (invalid_call c)
  end.

Variable llm : state -> result (string * list tool_call).
Variable system_prompt : string.

Definition agent_run (query : string)
  : py process (string * state * list (node * state)) :=
  Agent.run process llm call_tool system_prompt query.

End Wiring.

End FoodFinder.

(** ** Concrete inputs

    Small indexes, file systems and services on which the statements below
    are evaluated. *)

Module Examples.
Import Faiss MultimodalRetriever Tools Agent.

Definition kmeans (x : list vec) : list vec := take nlist x.

(** Three vectors of dimension 2 and their records. *)
Definition E : list vec := [[1; 2]; [3; 4]; [0; 0]].
Definition M : list nat := [10; 11; 12]%nat.

(** A flat index with one entry. *)
Definition one_entry : FAISSIndex.t :=
  (FAISSIndex.add kmeans (Np.of_rows 1 [[0]]) [7%nat]
                  (FAISSIndex.__init__ 1 "Flat")).2.

(** A flat index to which an array with no rows was added. *)
Definition no_entry : FAISSIndex.t :=
  (FAISSIndex.add kmeans (Np.of_rows 1 []) []
                  (FAISSIndex.__init__ 1 "Flat")).2.

Definition flat1 (x : list vec) : Faiss.index :=
  mk_index 1 IndexFlatL2 true [] x.

Definition text_records : list dict :=
  [{["name" := VStr "Trattoria"]}; {["name" := VStr "Noodle Bar"]}].
Definition image_records : list dict := [{["name" := VStr "Trattoria"]}].

(** Both pairs of artifacts present. *)
Definition fs_both : Fs.t :=
  <["indexes/text_index.faiss" := Fs.FaissFile (flat1 [[0]; [5]])]>
  (<["indexes/text_metadata.pkl" := Fs.PickleFile text_records]>
  (<["indexes/image_index.faiss" := Fs.FaissFile (flat1 [[3]])]>
  (<["indexes/image_metadata.pkl" := Fs.PickleFile image_records]> ∅))).

(** The text artifacts only. *)
Definition fs_text_only : Fs.t :=
  <["indexes/text_index.faiss" := Fs.FaissFile (flat1 [[0]; [5]])]>
  (<["indexes/text_metadata.pkl" := Fs.PickleFile text_records]> ∅).

(** The image artifacts only. *)
Definition fs_image_only : Fs.t :=
  <["indexes/image_index.faiss" := Fs.FaissFile (flat1 [[3]])]>
  (<["indexes/image_metadata.pkl" := Fs.PickleFile image_records]> ∅).

Definition fresh_world (fs : Fs.t) : world :=
  mk_world [] fs (MultimodalRetriever.__init__ "indexes") 0.

(** An embedding provider that maps every input to the vector [[1]]. *)
Definition embed_one (s : string) : result vec := Ok [1].

(** The world after loading both indexes. *)
Definition served_world : world := (load_indices (fresh_world fs_both)).2.

(** A model that asks for one text search and answers once it has seen a
    tool observation. *)
Definition search_call : tool_call :=
  mk_call "rag_text_search" (TextSearchArgs "pizza" 5) "call_1".
Definition llm_one_search (ctx : state) : result (string * list tool_call) :=
  if existsb is_tool_message ctx then Ok ("Try Trattoria.", [])
  else Ok ("", [search_call]).

(** A model that answers at once. *)
Definition llm_direct (ctx : state) : result (string * list tool_call) :=
  Ok ("Hello!", []).

Definition tool_stub (c : tool_call) : py unit string := mret "[]".

End Examples.

(** ** Saving the indexes *)

Module Persist.
Import FAISSIndex MultimodalRetriever.

(** The state [save] works in: the object store (read), the file system
    (written) and the index (read). *)
Record env : Type := mk_env {
  env_objects : list dict;
  env_files : Fs.t;
  env_self : FAISSIndex.t
}.

Section Save.
(** What [faiss.write_index] does when it is handed [None] (it depends on
    the version of the library). *)
Variable write_none : string -> Fs.t -> result unit * Fs.t.

(** [faiss.write_index(self.index, index_path)] *)
Definition write_index (ix : option Faiss.index) (p : string) (fs : Fs.t)
  : result unit * Fs.t :=
  match ix with
  | Some ix => (Ok tt, <[p := Fs.FaissFile ix]> fs)
  | None => write_none p fs
  end.

(** [pickle.dump(records, f)] on [open(p, 'wb')]: the records as they are
    in the object store at that moment. *)
Definition pickle_dump (records : list dict) (p : string) (fs : Fs.t) : Fs.t :=
  <[p := Fs.PickleFile records]> fs.

(** A step of [save] on the file system. *)
Definition on_files {A} (m : Fs.t -> result A * Fs.t) : py env A :=
  fun s => let '(r, fs) := m (env_files s) in
           (r, mk_env (env_objects s) fs (env_self s)).

(** [FAISSIndex.save] of two files of one directory, which is how
    [save_indices] and [build_image_index] call it: that directory is the
    parent of [index_path], which [save] creates first, so that both files can
    be written.  The file system is a map from path strings to contents and
    accepts every write; two paths with different parents, two strings that
    name the same file, and the refusals of an operating system are outside
    this model.  [print] is left out. *)
Definition save (index_path metadata_path : string) : py env unit :=
  s ← get;
  on_files (write_index (index (env_self s)) index_path) ;;
  on_files (fun fs =>
              (Ok tt,
               pickle_dump (stored_records (env_objects s) (env_self s))
                           metadata_path fs)).

(** [MultimodalRetriever.save_indices] *)
Definition save_indices : py world unit :=
  fun w =>
    let dir := index_dir (self_ w) in
    let '(r, e) := save (Fs.join dir "text_index.faiss")
                        (Fs.join dir "text_metadata.pkl")
                        (mk_env (objects w) (files w) (text_index (self_ w))) in
    match r with
    | Raise e' => (Raise e', mk_world (objects w) (env_files e) (self_ w)
                                      (load_calls w))
    | Ok _ =>
        let '(r2, e2) := save (Fs.join dir "image_index.faiss")
                              (Fs.join dir "image_metadata.pkl")
                              (mk_env (objects w) (env_files e)
                                      (image_index (self_ w))) in
        (r2, mk_world (objects w) (env_files e2) (self_ w) (load_calls w))
    end.

End Save.

End Persist.

(** ** Measures of a session *)

Module Session.
Import Agent.

(** The number of tool calls the last message of a conversation asks for. *)
Definition requested_calls (st : state) : nat :=
  match last st with
  | Some (AIMessage _ calls) => length calls
  | _ => 0%nat
  end.

(** The messages a trace accounts for: one reply per Reasoning step and
    one observation per tool call of each Acting step. *)
Definition messages_added (trace : list (node * state)) : nat :=
  (length (reasoning_steps trace)
   + sum_list (requested_calls <$> acting_steps trace))%nat.

End Session.

(** ** [class ImageEmbedder]  (src/embeddings/image_embedder.py) *)

Module ImageEmbedder.

(** [np.atleast_2d] and [np.vstack]: the arrays are stacked along the first
    axis and must agree on the other axes. *)
Definition atleast_2d (a : Np.ndarray) : Np.ndarray :=
  match Np.shape a with
  | [] => Np.mk_ndarray [1; 1]%nat (Np.data a)
  | [n] => Np.mk_ndarray [1; n]%nat (Np.data a)
  | _ => a
  end.

Definition vstack (arrays : list Np.ndarray) : result Np.ndarray :=
  match atleast_2d <$> arrays with
  | [] => Raise ValueError
  | a :: rest =>
      if forallb (fun b => bool_decide (tail (Np.shape b) = tail (Np.shape a)))
                 rest
      then Ok (Np.mk_ndarray
                 (sum_list ((fun b => default 0%nat (head (Np.shape b)))
                              <$> (a :: rest))
                  :: tail (Np.shape a))
                 (mjoin (Np.data <$> (a :: rest))))
      else Raise ValueError
  end.

(** The dimension of the image embedding space. *)
Definition dimension : nat := 512.

Section Embed.
Variable image : Type.
(** Opening an image file: [Image.open], [verify], [Image.open] again and
    [convert("RGB")]. *)
Variable open_image : string -> result image.
(** The processor and the model: the features of a batch of images, as an
    array. *)
Variable get_image_features : list image -> result Np.ndarray.

(** The inner loop over [enumerate(batch_paths)]: the images that open and
    their global indices [i + idx]; the others are skipped. *)
Fixpoint load_batch (i idx : nat) (batch_paths : list string)
  : list image * list nat :=
  match batch_paths with
  | [] => ([], [])
  | path :: rest =>
      let '(images, valid_indices) := load_batch i (S idx) rest in
      match open_image path with
      | Ok img => (img :: images, (i + idx)%nat :: valid_indices)
      | Raise _ => (images, valid_indices)
      end
  end.

(** [range(0, n, batch_size)] for a positive [batch_size]. *)
Definition batch_starts (n batch_size : nat) : list nat :=
  (fun j => j * batch_size)%nat <$> seq 0 ((n + batch_size - 1) / batch_size).

(** [range(0, n, batch_size)] for a [batch_size] other than 0: with a
    negative step the range from 0 up to a length is empty. *)
Definition batch_range (n : nat) (batch_size : Z) : list nat :=
  if 0 <? batch_size then batch_starts n (Z.to_nat batch_size) else [].

(** The outer loop: one array of features per batch with an image that
    opens.  The loop runs for a positive [batch_size] only, which is the
    length of the slice [image_paths[i:i+batch_size]]. *)
Fixpoint embed_batches (image_paths : list string) (batch_size : nat)
    (starts : list nat) (embeddings : list Np.ndarray)
    (all_valid_indices : list nat)
  : result (list Np.ndarray * list nat) :=
  match starts with
  | [] => Ok (embeddings, all_valid_indices)
  | i :: starts' =>
      let batch_paths := take batch_size (drop i image_paths) in
      let '(images, valid_indices) := load_batch i 0 batch_paths in
      if bool_decide (length images = 0%nat)
      then embed_batches image_paths batch_size starts' embeddings
                         all_valid_indices
      else
        match get_image_features images with
        | Raise e => Raise e
        | Ok image_features =>
            embed_batches image_paths batch_size starts'
                          (embeddings ++ [image_features])
                          (all_valid_indices ++ valid_indices)
        end
  end.

(** [embed_batch(image_paths, batch_size, return_indices=True)]; without
    [return_indices] the result is its first component.  The progress bar,
    the count of skipped images and the cache clearing are left out.  The
    batch size is any integer: 0 fails in the division that counts the
    batches, and with a negative one the loop does not run. *)
Definition embed_batch (image_paths : list string) (batch_size : Z)
  : result (Np.ndarray * list nat) :=
  (* num_batches = (len(image_paths) + batch_size - 1) // batch_size *)
  if batch_size =? 0 then Raise (OtherError "ZeroDivisionError")
  else
    match embed_batches image_paths (Z.to_nat batch_size)
                        (batch_range (length image_paths) batch_size) [] [] with
    | Raise e => Raise e
    | Ok (embeddings, all_valid_indices) =>
        if bool_decide (length embeddings = 0%nat)
        then (* No valid images *)
          Ok (Np.mk_ndarray [0%nat; dimension] [], all_valid_indices)
        else
          match vstack embeddings with
          | Raise e => Raise e
          | Ok result => Ok (result, all_valid_indices)
          end
    end.

(** The positions of the paths that open. *)
Definition openable (image_paths : list string) : list nat :=
  List.filter (fun i => match image_paths !! i with
                        | Some path => is_ok (open_image path)
                        | None => false
                        end)
              (seq 0 (length image_paths)).

(** A model that gives one row of [dimension] features per image. *)
Definition row_per_image : Prop :=
  forall images, images <> [] ->
    exists dat, get_image_features images
                = Ok (Np.mk_ndarray [length images; dimension] dat).

End Embed.

(** Arrays of [dimension] columns with [n] rows in all. *)
Definition stacked (embeddings : list Np.ndarray) (n : nat) : Prop :=
  Forall (fun a => exists r, Np.shape a = [r; dimension]) embeddings
  /\ sum_list ((fun b => default 0%nat (head (Np.shape b))) <$> embeddings) = n.

End ImageEmbedder.

(** ** [build_image_index]  (scripts/build_indices.py) *)

Module BuildIndices.
Import Persist.

Section Build.
Variable kmeans : list Faiss.vec -> list Faiss.vec.
Variable write_none : string -> Fs.t -> result unit * Fs.t.
Variable image : Type.
Variable open_image : string -> result image.
Variable get_image_features : list image -> result Np.ndarray.

(** [[metadata[i] for i in valid_indices]] *)
Fixpoint select (metadata : list nat) (valid_indices : list nat)
  : result (list nat) :=
  match valid_indices with
  | [] => Ok []
  | i :: rest =>
      match list_getitem metadata (Z.of_nat i) with
      | Raise e => Raise e
      | Ok m => match select metadata rest with
                | Raise e => Raise e
                | Ok ms => Ok (m :: ms)
                end
      end
  end.

(** [build_image_index] once the image paths and their metadata records
    are collected (and limited): embedding, selection of the metadata of the
    embedded images, indexing and saving.  The result is [None] when there is
    no image path. *)
Definition index_collected_images (image_paths : list string)
    (metadata : list nat) : py env (option FAISSIndex.t) :=
  if bool_decide (length image_paths = 0%nat) then mret None
  else
    r ← lift (ImageEmbedder.embed_batch image open_image get_image_features
                                        image_paths 32);
    (* Filter metadata to only include successfully embedded images *)
    valid_metadata ← lift (select metadata r.2);
    s ← get;
    let out := FAISSIndex.add kmeans r.1 valid_metadata
                 (FAISSIndex.__init__ 512 "Flat") in
    put (mk_env (env_objects s) (env_files s) out.2) ;;
    lift out.1 ;;
    save write_none "indexes/image_index.faiss" "indexes/image_metadata.pkl" ;;
    s ← get;
    mret (Some (env_self s)).

End Build.

End BuildIndices.

(** ** Dataset scripts  (scripts/metadata_utils.py, scripts/process_data.py) *)

Module Scripts.
Import Tools.

(** A value read from the JSON dataset.  Text is taken to be ASCII as far
    as case folding goes. *)
Inductive pyval : Type :=
| PNone
| PBool (b : bool)
| PInt (z : Z)
| PFloat (q : Q)
| PStr (s : string)
| PList (l : list pyval)
| PDict (d : gmap string pyval).

(** [bool(v)] *)
Definition truthy (v : pyval) : bool :=
  match v with
  | PNone => false
  | PBool b => b
  | PInt z => negb (z =? 0)
  | PFloat q => negb (Qeq_bool q 0)
  | PStr s => negb (String.eqb s "")
  | PList l => negb (bool_decide (length l = 0%nat))
  | PDict d => negb (bool_decide (size d = 0%nat))
  end.

(** [v == 1] *)
Definition equals_one (v : pyval) : bool :=
  match v with
  | PBool b => b
  | PInt z => z =? 1
  | PFloat q => Qeq_bool q 1
  | _ => false
  end.

(** [s.strip(chars)] *)
Fixpoint lstrip (chars : list Ascii.ascii) (s : string) : string :=
  match s with
  | EmptyString => EmptyString
  | String c s' =>
      if existsb (Ascii.eqb c) chars then lstrip chars s' else s
  end.

Definition rstrip (chars : list Ascii.ascii) (s : string) : string :=
  String.rev (lstrip chars (String.rev s)).

Definition strip (chars : list Ascii.ascii) (s : string) : string :=
  rstrip chars (lstrip chars s).

(** The characters that [parse_bool] and [clean_string] strip: the single
    quote, the double quote, the letter u and the space. *)
Definition WRAPPING : list Ascii.ascii :=
  [Ascii.ascii_of_nat 39; Ascii.ascii_of_nat 34; Ascii.ascii_of_nat 117;
   Ascii.ascii_of_nat 32].

(** [parse_bool] of [extract_attributes]; [None] is Python's [None]. *)
Definition parse_bool (value : pyval) : option bool :=
  match value with
  | PNone => None
  | PBool b => Some b
  | PStr s =>
      let value_lower := strip WRAPPING (lower s) in
      if existsb (String.eqb value_lower) ["true"; "1"] then Some true
      else if existsb (String.eqb value_lower) ["false"; "0"; "none"]
           then Some false
           else None
  | _ => None
  end.

(** [clean_string] of [extract_attributes] *)
Definition clean_string (value : pyval) : pyval :=
  match value with
  | PStr s => PStr (strip WRAPPING s)
  | _ => value
  end.

Definition restaurant_keywords : list string :=
  ["restaurant"; "food"; "cafe"; "bar"; "pizza"; "burger";
   "sushi"; "mexican"; "italian"; "chinese"; "japanese";
   "thai"; "indian"; "korean"; "vietnamese"; "american";
   "breakfast"; "brunch"; "lunch"; "dinner"; "bakery";
   "coffee"; "tea"; "sandwiches"; "deli"; "grill"].

(** [business.get(key, default)] *)
Definition dict_get (business : pyval) (key : string) (default_ : pyval)
  : result pyval :=
  match business with
  | PDict d => Ok (default default_ (d !! key))
  | _ => Raise AttributeError
  end.

(** Whether the loop of [filter_restaurants] keeps a business. *)
Definition keeps (business : pyval) : result bool :=
  match dict_get business "categories" (PStr "") with
  | Raise e => Raise e
  | Ok categories =>
      if negb (truthy categories) then Ok false
      else
        match categories with
        | PStr c =>
            let categories_lower := lower c in
            if any_in restaurant_keywords categories_lower then
              match dict_get business "is_open" (PInt 0) with
              | Raise e => Raise e
              | Ok open => Ok (equals_one open)
              end
            else Ok false
        | _ => Raise AttributeError
        end
  end.

Fixpoint filter_restaurants (businesses : list pyval) : result (list pyval) :=
  match businesses with
  | [] => Ok []
  | business :: rest =>
      match keeps business with
      | Raise e => Raise e
      | Ok keep =>
          match filter_restaurants rest with
          | Raise e => Raise e
          | Ok restaurants =>
              Ok (if keep then business :: restaurants else restaurants)
          end
      end
  end.

(** Whether every character of [s] satisfies [P]. *)
Fixpoint all_chars (P : Ascii.ascii -> bool) (s : string) : bool :=
  match s with
  | EmptyString => true
  | String c s' => P c && all_chars P s'
  end.

(** Text made only of quotes, spaces and the letter u. *)
Definition wrapping (s : string) : bool :=
  all_chars (fun c => existsb (Ascii.eqb c) WRAPPING) s.

(** An open business whose categories name food or a restaurant. *)
Definition open_food_business (business : pyval) : Prop :=
  exists d c,
    business = PDict d
    /\ d !! "categories" = Some (PStr c)
    /\ any_in restaurant_keywords (lower c) = true
    /\ equals_one (default (PInt 0) (d !! "is_open")) = true.

(** A record [filter_restaurants] can read: an object whose categories,
    when present and not empty, are text. *)
Definition readable (business : pyval) : Prop :=
  exists d,
    business = PDict d
    /\ match d !! "categories" with
       | Some (PStr _) | None => True
       | Some v => truthy v = false
       end.

End Scripts.

(** ** More concrete inputs: services, files and records *)

Module Fixtures.
Import Faiss MultimodalRetriever Tools Agent Scripts.

(** A [faiss.write_index] that rejects [None]. *)
Definition write_none (p : string) (fs : Fs.t) : result unit * Fs.t :=
  (Raise TypeError, fs).


(** Two distinct vectors with the same [float32] value, [2^24], and their
    records. *)
Definition near_vectors : list vec := [[16777216]; [16777217]].
Definition near_records : list nat := [10; 11]%nat.

(** The index file without its metadata file. *)
Definition fs_index_only : Fs.t :=
  <["indexes/text_index.faiss" := Fs.FaissFile (Examples.flat1 [[0]; [5]])]> ∅.

(** The text artifacts and the image index file, without the image
    metadata file. *)
Definition fs_image_metadata_missing : Fs.t :=
  <["indexes/image_index.faiss" := Fs.FaissFile (Examples.flat1 [[3]])]>
    Examples.fs_text_only.

(** An index and the object store its record lives in. *)
Definition saving_env : Persist.env :=
  Persist.mk_env [{["name" := VStr "Trattoria"]}] ∅
                 (FAISSIndex.mk 1 "Flat" (Some (Examples.flat1 [[3]])) [0%nat]).

(** A model that fails, and one that asks for a search whatever it sees. *)
Definition llm_down (ctx : state) : result (string * list tool_call) :=
  Raise (OtherError "APIConnectionError").
Definition llm_loop (ctx : state) : result (string * list tool_call) :=
  Ok ("", [Examples.search_call]).

Definition json_dumps (records : list dict) : result string := Ok "[...]".
Definition str_exn (e : exn) : string := "error".
Definition format_exc (e : exn) : string := "Traceback".
Definition fmt_1f (q : Q) : string := "0.0".
Definition pretty_nat (n : nat) : string := "1".
Definition invalid_call (c : tool_call) : string := "Error: invalid tool call".

(** Images: every path opens except [broken.jpg]. *)
Definition open_image (path : string) : result unit :=
  if String.eqb path "broken.jpg"
  then Raise (OtherError "UnidentifiedImageError")
  else Ok tt.

(** A scorer that prefers the first candidate. *)
Definition clip_probs (img : unit) (candidates : list string)
  : result (list Q) :=
  Ok ((7 # 10)%Q :: replicate (length candidates - 1) (1 # 100)%Q).

(** A model that gives one row of zeros per image. *)
Definition get_image_features (images : list unit) : result Np.ndarray :=
  Ok (Np.mk_ndarray [length images; ImageEmbedder.dimension]
                    (replicate (length images * ImageEmbedder.dimension) 0)).

Definition photos : list string := ["a.jpg"; "broken.jpg"; "c.jpg"].
Definition broken_photos : list string := ["broken.jpg"; "broken.jpg"].

(** The records of three photos, before any index or file exists. *)
Definition photo_env : Persist.env :=
  Persist.mk_env [{["photo_id" := VStr "a"]}; {["photo_id" := VStr "broken"]};
                  {["photo_id" := VStr "c"]}]
                 ∅ (FAISSIndex.__init__ 512 "Flat").

(** The session of [Examples.llm_one_search] on the query [pizza?]. *)
Definition final_conversation : state :=
  [HumanMessage "pizza?";
   AIMessage "" [Examples.search_call];
   ToolMessage "[]" "call_1";
   AIMessage "Try Trattoria." []].
Definition session_trace : list (node * state) :=
  [(agent, [HumanMessage "pizza?"]);
   (tools, [HumanMessage "pizza?"; AIMessage "" [Examples.search_call]]);
   (agent, [HumanMessage "pizza?"; AIMessage "" [Examples.search_call];
            ToolMessage "[]" "call_1"])].

(** Three businesses: an open pizzeria, a closed cafe and an open
    hardware store. *)
Definition businesses : list pyval :=
  [PDict {["categories" := PStr "Pizza, Italian"; "is_open" := PInt 1]};
   PDict {["categories" := PStr "Cafe"; "is_open" := PInt 0]};
   PDict {["categories" := PStr "Hardware Stores"; "is_open" := PInt 1]}].

End Fixtures.

(** * Properties *)

Ltac py_unfold :=
  unfold mbind, py_bind, bind, mret, py_ret, ret, raise, get, put, lift, zoom,
    try_except.


Module FaissFacts.
Import Faiss.

(** *** Rounding *)

Lemma div_nearest_even_spec (n d : Z) :
  0 < d ->
  let c := div_nearest_even n d in
  2 * n - d <= 2 * c * d <= 2 * n + d
  /\ (2 * c * d = 2 * n + d \/ 2 * c * d = 2 * n - d -> Z.even c = true).
Proof.
  intros Hd. unfold div_nearest_even.
  pose proof (Z.div_mod n d ltac:(lia)) as Hdm.
  pose proof (Z.mod_pos_bound n d Hd) as Hr.
  set (q := n / d) in *. set (r := n mod d) in *.
  destruct (2 * r <? d) eqn:H1; [apply Z.ltb_lt in H1; split; nia|].
  apply Z.ltb_ge in H1.
  destruct (d <? 2 * r) eqn:H2; [apply Z.ltb_lt in H2; split; nia|].
  apply Z.ltb_ge in H2.
  destruct (Z.even q) eqn:H3; [split; [nia|done]|].
  split; [nia|]. intros _.
  rewrite Z.add_1_r, Z.even_succ, <- Z.negb_even, H3. done.
Qed.

Lemma div_nearest_even_mono (n1 d1 n2 d2 : Z) :
  0 < d1 -> 0 < d2 -> n1 * d2 <= n2 * d1 ->
  div_nearest_even n1 d1 <= div_nearest_even n2 d2.
Proof.
  intros Hd1 Hd2 Hle.
  destruct (div_nearest_even_spec n1 d1 Hd1) as [[_ Hu1] He1].
  destruct (div_nearest_even_spec n2 d2 Hd2) as [[Hl2 _] He2].
  set (c1 := div_nearest_even n1 d1) in *.
  set (c2 := div_nearest_even n2 d2) in *.
  destruct (Z_le_gt_dec c1 c2) as [|Hgt]; [done|]. exfalso.
  assert (2 * c1 * d1 * d2 <= (2 * n1 + d1) * d2) as A1 by nia.
  assert ((2 * n2 - d2) * d1 <= 2 * c2 * d2 * d1) as A2 by nia.
  assert (c1 = c2 + 1) as Hc by nia.
  assert (2 * c1 * d1 = 2 * n1 + d1) as E1 by nia.
  assert (2 * c2 * d2 = 2 * n2 - d2) as E2 by nia.
  specialize (He1 (or_introl E1)). specialize (He2 (or_intror E2)).
  rewrite Hc, Z.add_1_r, Z.even_succ, <- Z.negb_even, He2 in He1. done.
Qed.

Lemma div_nearest_even_exact (c d : Z) :
  0 < d -> div_nearest_even (c * d) d = c.
Proof.
  intros Hd. unfold div_nearest_even.
  rewrite Z.div_mul, Z.mod_mul by lia.
  by rewrite (proj2 (Z.ltb_lt (2 * 0) d)) by lia.
Qed.

Lemma div_nearest_even_ge (c n d : Z) :
  0 < d -> c * d <= n -> c <= div_nearest_even n d.
Proof.
  intros Hd Hle.
  trans (div_nearest_even (c * 1) 1).
  - by rewrite div_nearest_even_exact.
  - apply div_nearest_even_mono; lia.
Qed.

Lemma div_nearest_even_le (c n d : Z) :
  0 < d -> n <= c * d -> div_nearest_even n d <= c.
Proof.
  intros Hd Hle.
  trans (div_nearest_even (c * 1) 1).
  - apply div_nearest_even_mono; lia.
  - by rewrite div_nearest_even_exact.
Qed.

Lemma nearest24_mono (a1 a2 : Z) :
  0 <= a1 -> a1 <= a2 -> nearest24 a1 <= nearest24 a2.
Proof.
  intros H0 Hle. unfold nearest24.
  pose proof (Z.log2_le_mono a1 a2 Hle) as Hk.
  pose proof (Z.log2_nonneg a1) as Hk1.
  set (k1 := Z.log2 a1) in *. set (k2 := Z.log2 a2) in *.
  set (e1 := Z.max 0 (k1 - 23)). set (e2 := Z.max 0 (k2 - 23)).
  assert (0 < 2 ^ e1) as Hu1 by (apply Z.pow_pos_nonneg; lia).
  assert (0 < 2 ^ e2) as Hu2 by (apply Z.pow_pos_nonneg; lia).
  destruct (decide (e1 = e2)) as [<- | Hne].
  - apply Z.mul_le_mono_nonneg_l; [lia|].
    apply div_nearest_even_mono; nia.
  - assert (k1 < k2 /\ e2 = k2 - 23 /\ 0 <= e1 <= k1 + 1) as (Hlt & He2 & He1) by lia.
    assert (a1 < 2 ^ (k1 + 1)) as Hup.
    { destruct (decide (a1 = 0)) as [-> | ?]; [apply Z.pow_pos_nonneg; lia|].
      apply Z.log2_spec. lia. }
    assert (2 ^ k2 <= a2) as Hlo.
    { apply Z.log2_spec. destruct (decide (0 < a2)); [done|].
      exfalso. assert (a2 <= 0) by lia. 
      pose proof (Z.log2_nonpos a2 ltac:(lia)). lia. }
    trans (2 ^ (k1 + 1)).
    + replace (k1 + 1) with (e1 + (k1 + 1 - e1)) at 1 by lia.
      rewrite Z.pow_add_r by lia.
      apply Z.mul_le_mono_nonneg_l; [lia|].
      apply div_nearest_even_le; [done|].
      rewrite Z.mul_comm, <- Z.pow_add_r by lia.
      replace (e1 + (k1 + 1 - e1)) with (k1 + 1) by lia. lia.
    + trans (2 ^ k2); [apply Z.pow_le_mono_r; lia|].
      replace k2 with (e2 + 23) at 1 by lia.
      rewrite Z.pow_add_r by lia.
      apply Z.mul_le_mono_nonneg_l; [lia|].
      apply div_nearest_even_ge; [done|].
      rewrite Z.mul_comm, <- Z.pow_add_r by lia.
      replace (e2 + 23) with k2 by lia. done.
Qed.

Lemma nearest24_small (a : Z) : 0 <= a < 2 ^ 24 -> nearest24 a = a.
Proof.
  intros Ha. unfold nearest24.
  assert (Z.log2 a - 23 <= 0) as He.
  { destruct (decide (a = 0)) as [-> | ?]; [done|].
    assert (Z.log2 a < 24) by (apply Z.log2_lt_pow2; lia). lia. }
  rewrite Z.max_l by lia. change (2 ^ 0) with 1.
  rewrite <- (Z.mul_1_r a) at 1. rewrite div_nearest_even_exact by lia. lia.
Qed.

Lemma round32_pos (z : Z) :
  0 < z -> round32 z = PInf \/ exists v, round32 z = Fin v /\ 0 < v.
Proof.
  intros Hz. unfold round32. rewrite Z.abs_eq by lia.
  pose proof (nearest24_mono 1 z ltac:(lia) ltac:(lia)) as Hv.
  rewrite (nearest24_small 1) in Hv by lia.
  rewrite (proj2 (Z.ltb_ge z 0)) by lia.
  destruct (FLT_MAX <? _); [by left|]. right.
  rewrite Z.sgn_pos by done. eexists. split; [done|]. lia.
Qed.

Lemma round32_opp_fin (z v : Z) :
  round32 z = Fin v -> round32 (- z) = Fin (- v).
Proof.
  unfold round32. rewrite Z.abs_opp.
  destruct (FLT_MAX <? _); [by destruct (z <? 0)|].
  intros [= <-]. rewrite Z.sgn_opp. f_equal. lia.
Qed.

Lemma round32_0 : round32 0 = Fin 0.
Proof. done. Qed.

Lemma round32_fin_0 (z : Z) : round32 z = Fin 0 -> z = 0.
Proof.
  intros H. destruct (Z.lt_trichotomy z 0) as [Hz | [Hz | Hz]]; [|done|].
  - apply round32_opp_fin in H. simpl in H.
    destruct (round32_pos (- z)) as [Hp | (v & Hv & ?)]; [lia| |]; congruence || (rewrite H in Hv; injection Hv; lia).
  - destruct (round32_pos z Hz) as [Hp | (v & Hv & ?)]; [congruence|].
    rewrite H in Hv. injection Hv. lia.
Qed.

(** *** The reciprocal *)




(** *** Values that are not negative *)

Lemma round32_nonneg (z : Z) : 0 <= z -> nonneg (round32 z).
Proof.
  intros Hz. destruct (decide (z = 0)) as [-> | Hne]; [done|].
  destruct (round32_pos z) as [-> | (v & -> & ?)]; [lia|done|]. simpl. lia.
Qed.

Lemma f32_sub_fin_0 (a b : f32) : f32_sub a b = Fin 0 -> a = b.
Proof.
  destruct a as [x| | |], b as [y| | |]; simpl; try done.
  intros H%round32_fin_0. f_equal. lia.
Qed.

Lemma f32_sub_same (x : Z) : f32_sub (Fin x) (Fin x) = Fin 0.
Proof. simpl. by rewrite Z.sub_diag. Qed.

Lemma f32_sqr_nonneg (t : f32) : nonneg (f32_mul t t).
Proof.
  destruct t as [x| | |]; simpl; try done.
  apply round32_nonneg. nia.
Qed.

Lemma f32_sqr_fin_0 (t : f32) : f32_mul t t = Fin 0 -> t = Fin 0.
Proof.
  destruct t as [x| | |]; simpl; try done.
  intros H%round32_fin_0. f_equal. nia.
Qed.

Lemma f32_add_nonneg (a b : f32) :
  nonneg a -> nonneg b -> nonneg (f32_add a b).
Proof.
  destruct a as [x| | |], b as [y| | |]; simpl; try done.
  intros ? ?. apply round32_nonneg. lia.
Qed.

Lemma f32_add_fin_0 (a b : f32) :
  nonneg a -> nonneg b -> f32_add a b = Fin 0 -> a = Fin 0 /\ b = Fin 0.
Proof.
  destruct a as [x| | |], b as [y| | |]; simpl; try done.
  intros ? ? H%round32_fin_0. split; f_equal; lia.
Qed.

(** *** The distance kernel *)

Lemma kernel_acc (acc : f32) (l : list (f32 * f32)) :
  nonneg acc ->
  let res := foldl (fun res p => let tmp := f32_sub p.1 p.2 in
                                 f32_add res (f32_mul tmp tmp)) acc l in
  nonneg res
  /\ (res = Fin 0 -> acc = Fin 0 /\ Forall (fun p => p.1 = p.2) l).
Proof.
  revert acc. induction l as [|[a b] l IH]; intros acc Hacc; simpl; [done|].
  pose proof (f32_sqr_nonneg (f32_sub a b)) as Hsq.
  destruct (IH _ (f32_add_nonneg _ _ Hacc Hsq)) as [Hnn Hz].
  split; [done|]. intros H0. destruct (Hz H0) as [Hadd Hall].
  apply f32_add_fin_0 in Hadd as [-> Hsq0]; [|done|done].
  split; [done|]. constructor; [|done].
  by apply f32_sub_fin_0, f32_sqr_fin_0.
Qed.


Lemma fvec_L2sqr_fin_0 (x y : list f32) :
  length x = length y -> fvec_L2sqr x y = Fin 0 -> x = y.
Proof.
  intros Hlen H0.
  destruct (kernel_acc (Fin 0) (zip x y)) as [_ Hz]; [done|].
  destruct (Hz H0) as [_ Hall]. clear -Hlen Hall.
  revert y Hlen Hall. induction x as [|a x IH]; intros [|b y] Hlen Hall;
    simpl in *; try done.
  apply Forall_cons in Hall as [Hab Hall]. simpl in Hab. subst b.
  f_equal. apply IH; [lia|done].
Qed.

Lemma fvec_L2sqr_same (x : list Z) : fvec_L2sqr (Fin <$> x) (Fin <$> x) = Fin 0.
Proof.
  unfold fvec_L2sqr. induction x as [|a x IH]; [done|].
  simpl. by rewrite Z.sub_diag.
Qed.

(** *** The computed distance of two rows *)

Lemma finite_cast (e : vec) :
  Forall (fun z => finite32 z = true) e ->
  exists x, as_float32 e = Fin <$> x.
Proof.
  induction 1 as [|z e Hz _ [x Hx]]; [by exists []|].
  unfold finite32 in Hz. destruct (astype_float32 z) as [v| | |] eqn:Hv; try done.
  exists (v :: x). unfold as_float32 in *. by rewrite !fmap_cons, Hv, Hx.
Qed.

(** Rows with the same finite [float32] values are at distance 0. *)
Lemma l2sqr_same (e x : vec) :
  Forall (fun z => finite32 z = true) e ->
  as_float32 x = as_float32 e ->
  l2sqr e x = Fin 0.
Proof.
  intros [v Hv]%finite_cast Heq. unfold l2sqr.
  rewrite Heq, Hv. apply fvec_L2sqr_same.
Qed.

(** Rows at distance 0 have the same [float32] values. *)
Lemma l2sqr_fin_0 (x y : vec) :
  length x = length y -> l2sqr x y = Fin 0 ->
  as_float32 x = as_float32 y.
Proof.
  intros Hlen. apply fvec_L2sqr_fin_0. unfold as_float32.
  by rewrite !length_fmap.
Qed.


Lemma reported_lt (dis : f32) (a : Z) : reported dis = Some a -> a < FLT_MAX.
Proof.
  destruct dis as [z| | |]; simpl; try done.
  destruct (z <? FLT_MAX) eqn:Hz; [|done]. intros [= <-]. by apply Z.ltb_lt.
Qed.


(** *** The order of a result *)

Global Instance by_dist_trans : Transitive by_dist.
Proof. unfold by_dist. intros a b c; lia. Qed.
Global Instance by_dist_total : Total by_dist.
Proof. unfold by_dist. intros a b; lia. Qed.



(** *** Ranked rows *)

Lemma elem_of_zip_seq {A} (l : list A) (x : A) (j s : nat) :
  (x, j) ∈ zip l (seq s (length l)) <-> (s <= j)%nat /\ l !! (j - s)%nat = Some x.
Proof.
  revert s. induction l as [|y l IH]; intros s; simpl.
  - split; [by intros ?%elem_of_nil | by intros [_ ?]].
  - rewrite elem_of_cons, IH. split.
    + intros [[= -> ->] | [Hs Hl]].
      * split; [lia|]. by rewrite Nat.sub_diag.
      * split; [lia|]. by replace (j - s)%nat with (S (j - S s)) by lia.
    + intros [Hs Hl]. destruct (decide (j = s)) as [-> | Hne].
      * left. rewrite Nat.sub_diag in Hl. simpl in Hl. by injection Hl as ->.
      * right. split; [lia|].
        by replace (j - s)%nat with (S (j - S s)) in Hl by lia.
Qed.

Lemma elem_of_ranked (q : vec) (xs : list vec) (a : Z) (j : nat) :
  (a, j) ∈ ranked q xs <->
  exists x, xs !! j = Some x /\ reported (l2sqr q x) = Some a.
Proof.
  unfold ranked. rewrite list_elem_of_omap. split.
  - intros ([x i] & Hin & Hf). simpl in Hf.
    apply elem_of_zip_seq in Hin as [_ Hx]. rewrite Nat.sub_0_r in Hx.
    destruct (reported _) as [dis|] eqn:Hr; [|done]. injection Hf as <- <-. eauto.
  - intros (x & Hx & Hr). exists (x, j). split.
    + apply elem_of_zip_seq. rewrite Nat.sub_0_r. split; [lia|done].
    + simpl. by rewrite Hr.
Qed.

Lemma ranked_sublist (q : vec) (xs : list vec) :
  (snd <$> ranked q xs) `sublist_of` seq 0 (length xs).
Proof.
  unfold ranked.
  generalize 0%nat. induction xs as [|x xs IH]; intros s; simpl; [done|].
  destruct (reported _); simpl.
  - constructor. apply IH.
  - constructor. apply IH.
Qed.

Lemma ranked_positions (q : vec) (xs : list vec) :
  NoDup (snd <$> ranked q xs)
  /\ Forall (fun p => (p.2 < length xs)%nat) (ranked q xs)
  /\ (length (ranked q xs) <= length xs)%nat.
Proof.
  pose proof (ranked_sublist q xs) as Hsub.
  split; [|split].
  - by apply (sublist_NoDup _ (seq 0 (length xs))); [apply NoDup_seq|].
  - apply Forall_forall. intros [a j] (x & Hx & _)%elem_of_ranked.
    simpl. by eapply lookup_lt_Some.
  - apply sublist_length in Hsub. by rewrite length_fmap, length_seq in Hsub.
Qed.

End FaissFacts.

Module FAISSIndexFacts.
Import Faiss FaissFacts FAISSIndex.


Lemma length_rows (a : Np.ndarray) (n : nat) :
  Np.ndim a = 2%nat -> Np.shape a !! 0%nat = Some n -> length (Np.rows a) = n.
Proof.
  unfold Np.ndim, Np.rows.
  destruct (Np.shape a) as [|n' [|w [|? ?]]]; simpl; try done.
  intros _ [= ->]. by rewrite length_reshape, length_replicate.
Qed.

Section WithClustering.
Variable kmeans : list vec -> list vec.



Lemma set_index_same (self : t) (ix : Faiss.index) :
  index self = Some ix -> set_index (Some ix) self = self.
Proof. destruct self; simpl; by intros ->. Qed.

(** [search] in closed form: it reads the receiver and leaves it as it is. *)
Lemma search_unfold (q : vec) (k : Z) (self : t) :
  search q k self =
  (match index self with
   | None => Raise AttributeError
   | Some ix =>
       match Faiss.search q k ix with
       | Raise e => Raise e
       | Ok r =>
           match gather (metadata self) r.2 with
           | Raise e => Raise e
           | Ok results => Ok (r.1, results)
           end
       end
   end, self).
Proof.
  unfold search, mbind, py_bind, bind, get, on_index, lift, mret, py_ret, ret.
  destruct (index self) as [ix|] eqn:Hix; [|done].
  rewrite (set_index_same self ix Hix).
  destruct (Faiss.search q k ix) as [r|e]; [|done].
  by destruct (gather (metadata self) r.2).
Qed.



(** With the integer components of this development, two rows of one
    length are at computed distance 0 exactly when they have the same
    [float32] values. *)
Lemma distance_0_iff_same_float32 (e y : vec) :
  length e = length y ->
  Forall (fun z => finite32 z = true) e ->
  l2sqr e y = Fin 0 <-> as_float32 y = as_float32 e.
Proof.
  intros Hlen Hfin. split.
  - intros H0. symmetry. by apply l2sqr_fin_0.
  - by apply l2sqr_same.
Qed.

Lemma supported_backend (self : t) :
  supported self -> is_Some (backend self).
Proof.
  unfold supported, backend. intros [H | [H | H]].
  - destruct (index self); [eauto | done].
  - destruct (index self); [eauto|]. rewrite H. simpl. eauto.
  - destruct (index self); [eauto|]. rewrite H. simpl. eauto.
Qed.

Lemma backend_vectors (self : t) (ix : Faiss.index) :
  backend self = Some ix -> xb ix = vectors self.
Proof.
  unfold backend, vectors. destruct (index self); [by intros [= ->]|].
  repeat case_match; by intros [= <-].
Qed.

Lemma train_xb (x : list vec) (ix : Faiss.index) :
  xb (train kmeans x ix).2 = xb ix.
Proof. unfold train. by repeat case_match. Qed.

Lemma faiss_add_xb (w : nat) (x : list vec) (ix : Faiss.index) :
  xb (Faiss.add w x ix).2 =
  match (Faiss.add w x ix).1 with Ok _ => xb ix ++ x | Raise _ => xb ix end.
Proof. unfold Faiss.add. by repeat case_match. Qed.

(** [add] in closed form. *)
Lemma add_unfold (emb : Np.ndarray) (md : list loc) (self : t) :
  add kmeans emb md self =
  match backend self with
  | None => (Raise ValueError, self)
  | Some ix =>
      if negb (Np.ndim emb =? 2)%nat
         || negb (bool_decide (Np.shape emb !! 1%nat = Some (dimension self)))
         || negb (bool_decide (Np.shape emb !! 0%nat = Some (length md)))
      then (Raise ValueError, set_index (Some ix) self)
      else
        let t1 := if is_trained ix then (Ok tt, ix)
                  else train kmeans (Np.rows emb) ix in
        match t1.1 with
        | Raise e => (Raise e, set_index (Some t1.2) self)
        | Ok _ =>
            let a := Faiss.add (Np.width emb) (Np.rows emb) t1.2 in
            match a.1 with
            | Raise e => (Raise e, set_index (Some a.2) self)
            | Ok _ => (Ok tt, mk (dimension self) (index_type self)
                                  (Some a.2) (metadata self ++ md))
            end
        end
  end.
Proof.
  destruct self as [dim ty ix md0].
  unfold add, create_index, backend, mbind, py_bind, bind, get, put, on_index,
    raise, mret, py_ret, ret; simpl.
  destruct ix as [ix|]; simpl.
  - destruct (negb (Np.ndim emb =? 2)%nat); simpl; [done|].
    destruct (negb (bool_decide (Np.shape emb !! 1%nat = Some dim))); simpl; [done|].
    destruct (negb (bool_decide (Np.shape emb !! 0%nat = Some (length md)))); simpl; [done|].
    destruct (is_trained ix) eqn:Htr; simpl.
    + destruct (Faiss.add _ _ ix) as [[[]|e] ix2]; simpl; done.
    + destruct (train kmeans _ ix) as [[[]|e] ix1]; simpl; [|done].
      destruct (Faiss.add _ _ ix1) as [[[]|e] ix2]; simpl; done.
  - destruct (String.eqb ty "Flat"); simpl.
    + destruct (negb (Np.ndim emb =? 2)%nat); simpl; [done|].
      destruct (negb (bool_decide (Np.shape emb !! 1%nat = Some dim))); simpl; [done|].
      destruct (negb (bool_decide (Np.shape emb !! 0%nat = Some (length md)))); simpl; [done|].
      destruct (Faiss.add _ _ _) as [[[]|e] ix2]; simpl; done.
    + destruct (String.eqb ty "IVF"); simpl; [|done].
      destruct (negb (Np.ndim emb =? 2)%nat); simpl; [done|].
      destruct (negb (bool_decide (Np.shape emb !! 1%nat = Some dim))); simpl; [done|].
      destruct (negb (bool_decide (Np.shape emb !! 0%nat = Some (length md)))); simpl; [done|].
      destruct (train kmeans _ _) as [[[]|e] ix1]; simpl; [|done].
      destruct (Faiss.add _ _ ix1) as [[[]|e] ix2]; simpl; done.
Qed.


Lemma invalid_input_spec (self : t) (emb : Np.ndarray) (md : list loc) :
  negb (Np.ndim emb =? 2)%nat
  || negb (bool_decide (Np.shape emb !! 1%nat = Some (dimension self)))
  || negb (bool_decide (Np.shape emb !! 0%nat = Some (length md))) = true
  <-> invalid_input self emb md.
Proof.
  unfold invalid_input.
  rewrite !orb_true_iff, !negb_true_iff, !bool_decide_eq_false, Nat.eqb_neq.
  tauto.
Qed.

Lemma vectors_set_index (ix : Faiss.index) (self : t) :
  vectors (set_index (Some ix) self) = xb ix.
Proof. done. Qed.

Lemma train_raises (x : list vec) (ix : Faiss.index) (e : exn) :
  (train kmeans x ix).1 = Raise e -> e = RuntimeError.
Proof. unfold train. repeat case_match; simpl; congruence. Qed.

Lemma faiss_add_raises (w : nat) (x : list vec) (ix : Faiss.index) (e : exn) :
  (Faiss.add w x ix).1 = Raise e -> e = AssertionError \/ e = RuntimeError.
Proof. unfold Faiss.add. repeat case_match; simpl; intros [= <-]; auto. Qed.

(** Claim C7.  For an index of a supported kind, [add(vectors, metadata)]
    raises [ValueError] if and only if the array is not of rank 2, or its
    width differs from the index dimension, or its length differs from that
    of [metadata].  A successful [add] appends the rows to the stored vectors
    and [metadata] to the stored metadata, as many of the one as of the
    other; a failed one changes neither the stored vectors nor the stored
    metadata; in every case an index with as many vectors as records stays
    so. *)
Theorem add_validates_then_appends
    (self : t) (embeddings : Np.ndarray) (md : list loc) :
  supported self ->
  let out := add kmeans embeddings md self in
  (out.1 = Raise ValueError <-> invalid_input self embeddings md)
  /\ (out.1 = Ok tt ->
      vectors out.2 = vectors self ++ Np.rows embeddings
      /\ metadata out.2 = metadata self ++ md
      /\ length (Np.rows embeddings) = length md)
  /\ (out.1 <> Ok tt ->
      vectors out.2 = vectors self /\ metadata out.2 = metadata self)
  /\ (length (vectors self) = length (metadata self) ->
      length (vectors out.2) = length (metadata out.2)).
Proof.
  intros Hsup out. subst out. rewrite add_unfold.
  destruct (supported_backend self Hsup) as [ix Hix]. rewrite Hix.
  pose proof (backend_vectors self ix Hix) as Hxb.
  pose proof (invalid_input_spec self embeddings md) as Hinv.
  destruct (negb (Np.ndim embeddings =? 2)%nat || _ || _) eqn:Hbad.
  { (* rejected by validation *)
    assert (invalid_input self embeddings md) by (by apply Hinv).
    cbn [fst snd]. rewrite vectors_set_index, Hxb. by repeat split. }
  assert (~ invalid_input self embeddings md) as Hvalid
    by (rewrite <- Hinv; congruence).
  assert (length (Np.rows embeddings) = length md) as Hrows.
  { unfold invalid_input in Hvalid. apply length_rows.
    - destruct (decide (Np.ndim embeddings = 2%nat)); tauto.
    - destruct (decide (Np.shape embeddings !! 0%nat = Some (length md))); tauto. }
  set (t1 := if is_trained ix then (Ok tt, ix)
             else train kmeans (Np.rows embeddings) ix).
  assert (xb t1.2 = vectors self) as Hxb1.
  { subst t1. destruct (is_trained ix); [done|]. by rewrite train_xb. }
  assert (forall e, t1.1 = Raise e -> e = RuntimeError) as Ht1.
  { subst t1. destruct (is_trained ix); [done|]. apply train_raises. }
  cbv zeta.
  destruct (t1.1) as [[]|e1] eqn:Hr1.
  2:{ specialize (Ht1 e1 eq_refl). subst e1. cbn [fst snd].
      rewrite vectors_set_index, Hxb1.
      repeat split; try done; try (intros ?; tauto). }
  pose proof (faiss_add_xb (Np.width embeddings) (Np.rows embeddings) t1.2) as Hxb2.
  pose proof (faiss_add_raises (Np.width embeddings) (Np.rows embeddings) t1.2) as Ha.
  destruct ((Faiss.add (Np.width embeddings) (Np.rows embeddings) t1.2).1)
    as [[]|e2] eqn:Hr2; cbn [fst snd].
  - cbn [vectors index metadata]. rewrite Hxb2, Hxb1.
    repeat split; try done; try (intros ?; tauto).
    intros Hcnt. rewrite !length_app, Hcnt. f_equal. exact Hrows.
  - rewrite vectors_set_index, Hxb2, Hxb1.
    destruct (Ha e2 eq_refl) as [-> | ->];
      repeat split; try done; try (intros ?; tauto).
Qed.


(** Outside the supported kinds, the first [add] fails in [create_index],
    whatever its arguments. *)
Lemma add_unknown_index_type (self : t) (embeddings : Np.ndarray)
    (md : list loc) :
  ~ supported self ->
  add kmeans embeddings md self = (Raise ValueError, self).
Proof.
  intros Hns. rewrite add_unfold.
  destruct (backend self) as [ix|] eqn:Hb; [|done].
  exfalso. apply Hns. unfold supported, backend in *.
  destruct (index self); [by left|]. right.
  destruct (String.eqb_spec (index_type self) "Flat"); [by left|].
  destruct (String.eqb_spec (index_type self) "IVF"); [by right|done].
Qed.

(** *** Size of a search result *)

Lemma gather_length_le (md : list loc) (idxs : list Z) (res : list loc) :
  gather md idxs = Ok res -> (length res <= length idxs)%nat.
Proof.
  revert res. induction idxs as [|i idxs IH]; intros res; simpl.
  - intros [= <-]. simpl. lia.
  - destruct (i <? Z.of_nat (length md)).
    + destruct (list_getitem md i); [|done].
      destruct (gather md idxs) as [ms|]; [|done].
      intros [= <-]. specialize (IH ms eq_refl). simpl. lia.
    + intros H. specialize (IH res H). lia.
Qed.

Lemma faiss_search_length (q : vec) (k : Z) (ix : Faiss.index) (r : list Z * list Z) :
  Faiss.search q k ix = Ok r ->
  0 < k /\ length r.1 = Z.to_nat k /\ length r.2 = Z.to_nat k.
Proof.
  unfold Faiss.search.
  destruct (negb (length q =? d ix)%nat); [done|].
  destruct (k <=? 0) eqn:Hk; [done|].
  destruct (negb (is_trained ix)); [done|].
  intros [= <-]. simpl.
  apply Z.leb_gt in Hk. split; [done|].
  rewrite !length_app, !length_fmap, !length_replicate, length_take. lia.
Qed.

Lemma search_at_most_k (q : vec) (k : Z) (self : t)
    (ds : list Z) (results : list loc) :
  (search q k self).1 = Ok (ds, results) ->
  Z.of_nat (length results) <= k.
Proof.
  rewrite search_unfold. cbn [fst].
  destruct (index self) as [ix|]; [|done].
  destruct (Faiss.search q k ix) as [r|] eqn:Hs; [|done].
  destruct (gather (metadata self) r.2) as [res|] eqn:Hg; [|done].
  intros [= _ <-].
  apply faiss_search_length in Hs as (Hk & _ & Hl).
  apply gather_length_le in Hg. lia.
Qed.

Lemma gather_app (md : list loc) (a b : list Z) :
  gather md (a ++ b) =
  match gather md a with
  | Raise e => Raise e
  | Ok ra => match gather md b with
             | Raise e => Raise e
             | Ok rb => Ok (ra ++ rb)
             end
  end.
Proof.
  induction a as [|i a IH]; simpl.
  - by destruct (gather md b).
  - destruct (i <? Z.of_nat (length md)); [|done].
    destruct (list_getitem md i); [|done].
    rewrite IH. destruct (gather md a); [|done].
    by destruct (gather md b).
Qed.

Lemma list_getitem_nat {A} (l : list A) (j : nat) (a : A) :
  l !! j = Some a -> list_getitem l (Z.of_nat j) = Ok a.
Proof.
  intros Hj. pose proof (lookup_lt_Some _ _ _ Hj).
  unfold list_getitem.
  rewrite (proj2 (Z.ltb_ge _ _)) by lia.
  rewrite (proj2 (Z.leb_le _ _)) by lia.
  rewrite (proj2 (Z.ltb_lt _ _)) by lia. simpl.
  by rewrite Nat2Z.id, Hj.
Qed.

(** [l[-1]] is the last element; on an empty list it raises. *)
Lemma list_getitem_minus_one {A} (l : list A) :
  list_getitem l (-1) = match last l with
                        | Some a => Ok a
                        | None => Raise IndexError
                        end.
Proof.
  unfold list_getitem. simpl.
  destruct l as [|a l] using rev_ind; [done|].
  rewrite last_snoc, length_app. simpl.
  rewrite (proj2 (Z.leb_le _ _)) by lia.
  rewrite (proj2 (Z.ltb_lt _ _)) by lia. simpl.
  replace (Z.to_nat (Z.of_nat (length l + 1) + -1)) with (length l) by lia.
  by rewrite list_lookup_middle.
Qed.

Lemma gather_in_range (md : list loc) (js : list nat) :
  Forall (fun j => (j < length md)%nat) js ->
  exists res, gather md (Z.of_nat <$> js) = Ok res /\ length res = length js.
Proof.
  induction 1 as [|j js Hj _ (res & Hres & Hlen)]; [by exists []|].
  rewrite fmap_cons. cbn [gather].
  destruct (lookup_lt_is_Some_2 md j Hj) as [m Hm].
  rewrite (proj2 (Z.ltb_lt _ _)) by lia.
  rewrite (list_getitem_nat md j m Hm), Hres.
  exists (m :: res). split; [done|]. simpl. by rewrite Hlen.
Qed.

Lemma gather_missing (md : list loc) (p : nat) :
  gather md (replicate p (-1)) =
  match p, last md with
  | O, _ => Ok []
  | S _, None => Raise IndexError
  | S _, Some l => Ok (replicate p l)
  end.
Proof.
  induction p as [|p IH]; simpl; [done|].
  rewrite (proj2 (Z.ltb_lt _ _)) by lia.
  rewrite list_getitem_minus_one.
  destruct (last md) as [l|]; [|done].
  rewrite IH. by destruct p.
Qed.

Lemma flat_candidates (ix : Faiss.index) (q : vec) :
  ikind ix = IndexFlatL2 ->
  (length (merge_sort by_dist (candidates ix q)) <= length (xb ix))%nat
  /\ Forall (fun p => (p.2 < length (xb ix))%nat)
            (merge_sort by_dist (candidates ix q)).
Proof.
  intros Hk. unfold candidates. rewrite Hk.
  pose proof (merge_sort_Permutation by_dist (ranked q (xb ix))) as Hperm.
  destruct (ranked_positions q (xb ix)) as (Hnd & Hrange & Hlen).
  split.
  - by rewrite Hperm.
  - by rewrite Hperm.
Qed.

(** Claim C2 (the code departs from it).  On a flat index holding
    [n >= 1] entries, [search(q, k)] with [k > n] returns [k] results, not
    [n]: the library reports the [k - n] missing neighbours with label [-1],
    the filter [idx < len(self.metadata)] lets [-1] through, and
    [self.metadata[-1]] is the last record, which fills the tail of the
    result. *)
Theorem search_beyond_size_repeats_last_entry
    (self : t) (ix : Faiss.index) (q : vec) (k : Z) (l : loc) :
  index self = Some ix ->
  ikind ix = IndexFlatL2 -> is_trained ix = true -> length q = d ix ->
  length (xb ix) = length (metadata self) ->
  last (metadata self) = Some l ->
  Z.of_nat (length (metadata self)) < k ->
  exists ds results,
    search q k self = (Ok (ds, results), self)
    /\ length results = Z.to_nat k
    /\ drop (length (metadata self)) results
       = replicate (Z.to_nat k - length (metadata self)) l.
Proof.
  intros Hix Hkind Htr Hq Hn Hlast Hk.
  rewrite search_unfold, Hix.
  unfold Faiss.search. rewrite Hq, Nat.eqb_refl, Htr. simpl.
  rewrite (proj2 (Z.leb_gt _ _)) by lia.
  destruct (flat_candidates ix q Hkind) as [Hlen Hrange].
  set (sorted := merge_sort by_dist (candidates ix q)) in *.
  clearbody sorted.
  assert (length sorted <= Z.to_nat k)%nat as Hle by lia.
  rewrite (take_ge sorted (Z.to_nat k)) by exact Hle. cbn [fst snd].
  rewrite gather_app.
  destruct (gather_in_range (metadata self) (snd <$> sorted)) as (r1 & Hr1 & Hl1).
  { rewrite Forall_fmap. eapply Forall_impl; [exact Hrange|].
    intros p Hp. simpl in *. lia. }
  rewrite <- list_fmap_compose in Hr1.
  change (Z.of_nat ∘ snd) with (fun p : Z * nat => Z.of_nat p.2) in Hr1.
  rewrite Hr1, gather_missing, Hlast.
  rewrite length_fmap in Hl1.
  destruct (Z.to_nat k - length sorted)%nat as [|p] eqn:Hp; [lia|].
  eexists _, _. split; [done|]. split.
  - rewrite length_app, length_replicate. lia.
  - rewrite drop_app_ge by lia. rewrite drop_replicate. f_equal. lia.
Qed.

(** *** Searching an index without entries *)

(** Claim C3 (the code departs from it).  On an index without entries,
    [search(q, k)] with [k >= 1] raises instead of returning an empty result:
    once the backend exists and accepts the query, every label is [-1] and
    [self.metadata[-1]] on the empty list raises [IndexError]; before the
    backend exists the call fails on [self.index]. *)
Theorem search_empty_index_raises (self : t) (q : vec) (k : Z) :
  vectors self = [] -> metadata self = [] -> 0 < k ->
  (exists e, (search q k self).1 = Raise e)
  /\ (forall ix, index self = Some ix -> is_trained ix = true ->
                 length q = d ix ->
                 search q k self = (Raise IndexError, self)).
Proof.
  intros Hv Hm Hk.
  assert (forall ix, index self = Some ix -> is_trained ix = true ->
                     length q = d ix ->
                     search q k self = (Raise IndexError, self)) as Hmain.
  { intros ix Hix Htr Hq. rewrite search_unfold, Hix.
    unfold Faiss.search. rewrite Hq, Nat.eqb_refl, Htr. simpl.
    rewrite (proj2 (Z.leb_gt _ _)) by lia.
    assert (candidates ix q = []) as ->.
    { unfold candidates, vectors in *. rewrite Hix in Hv. rewrite Hv.
      by destruct (ikind ix). }
    cbn [fst snd]. simpl. rewrite Hm.
    destruct (Z.to_nat k) as [|p] eqn:Hp; [lia|]. reflexivity. }
  split; [|exact Hmain].
  destruct (index self) as [ix|] eqn:Hix.
  2:{ exists AttributeError. by rewrite search_unfold, Hix. }
  destruct (negb (length q =? d ix)%nat) eqn:Hq.
  { exists AssertionError. rewrite search_unfold, Hix.
    unfold Faiss.search. by rewrite Hq. }
  destruct (negb (is_trained ix)) eqn:Htr.
  { exists RuntimeError. rewrite search_unfold, Hix.
    unfold Faiss.search. rewrite Hq, Htr.
    by rewrite (proj2 (Z.leb_gt _ _)) by lia. }
  exists IndexError.
  apply negb_false_iff in Hq, Htr. apply Nat.eqb_eq in Hq.
  by rewrite (Hmain ix eq_refl Htr Hq).
Qed.

(** *** When a search succeeds *)

Lemma list_getitem_ok {A} (l : list A) (i : Z) :
  l <> [] -> -1 <= i < Z.of_nat (length l) -> exists a, list_getitem l i = Ok a.
Proof.
  intros Hne Hi.
  destruct (decide (i = -1)) as [-> | Hn].
  - rewrite list_getitem_minus_one.
    destruct l as [|a l] using rev_ind; [done|]. rewrite last_snoc. eauto.
  - destruct (lookup_lt_is_Some_2 l (Z.to_nat i)) as [a Ha]; [lia|].
    exists a. rewrite <- (list_getitem_nat l (Z.to_nat i) a Ha).
    f_equal. lia.
Qed.

Lemma gather_total (md : list loc) (idxs : list Z) :
  md <> [] -> Forall (fun i => -1 <= i) idxs ->
  exists res, gather md idxs = Ok res.
Proof.
  intros Hne. induction 1 as [|i idxs Hi _ [res Hres]]; [by exists []|].
  cbn [gather]. rewrite Hres.
  destruct (i <? Z.of_nat (length md)) eqn:Hlt; [|eauto].
  apply Z.ltb_lt in Hlt.
  destruct (list_getitem_ok md i Hne) as [a ->]; [lia|]. eauto.
Qed.

Lemma faiss_search_labels (q : vec) (k : Z) (ix : Faiss.index)
    (r : list Z * list Z) :
  Faiss.search q k ix = Ok r -> Forall (fun i => -1 <= i) r.2.
Proof.
  unfold Faiss.search. repeat case_match; try done.
  intros [= <-]. cbn [snd]. apply Forall_app. split.
  - apply Forall_fmap, Forall_forall. intros p _. simpl. lia.
  - apply Forall_replicate. lia.
Qed.

Lemma search_succeeds_nonempty (self : t) (ix : Faiss.index) (q : vec) (k : Z) :
  index self = Some ix -> is_trained ix = true -> length q = d ix ->
  0 < k -> metadata self <> [] ->
  exists r, search q k self = (Ok r, self).
Proof.
  intros Hix Htr Hq Hk Hne. rewrite search_unfold, Hix.
  destruct (Faiss.search q k ix) as [r|e] eqn:Hs.
  - destruct (gather_total (metadata self) r.2 Hne) as [res ->]; [|eauto].
    by eapply faiss_search_labels.
  - unfold Faiss.search in Hs.
    rewrite Hq, Nat.eqb_refl, Htr in Hs. simpl in Hs.
    by rewrite (proj2 (Z.leb_gt _ _)) in Hs by lia.
Qed.

(** *** Searching leaves the index as it is *)

Lemma search_frame (q : vec) (k : Z) (self : t) : (search q k self).2 = self.
Proof. by rewrite search_unfold. Qed.

End WithClustering.

(** *** The statements above at concrete inputs *)



Example record_of_the_rounded_vector :
  let built := (add Examples.kmeans (Np.of_rows 1 Fixtures.near_vectors)
                    Fixtures.near_records (__init__ 1 "Flat")).2 in
  search [16777217] 1 built = (Ok ([0], [10%nat]), built).
Proof. vm_compute. reflexivity. Qed.

Lemma add_at_example :
  let out := add Examples.kmeans (Np.of_rows 2 Examples.E) Examples.M
                 (__init__ 2 "Flat") in
  (out.1 = Raise ValueError
   <-> invalid_input (__init__ 2 "Flat") (Np.of_rows 2 Examples.E) Examples.M)
  /\ (out.1 = Ok tt ->
      vectors out.2 = vectors (__init__ 2 "Flat") ++ Np.rows (Np.of_rows 2 Examples.E)
      /\ metadata out.2 = metadata (__init__ 2 "Flat") ++ Examples.M
      /\ length (Np.rows (Np.of_rows 2 Examples.E)) = length Examples.M)
  /\ (out.1 <> Ok tt ->
      vectors out.2 = vectors (__init__ 2 "Flat")
      /\ metadata out.2 = metadata (__init__ 2 "Flat"))
  /\ (length (vectors (__init__ 2 "Flat")) = length (metadata (__init__ 2 "Flat")) ->
      length (vectors out.2) = length (metadata out.2)).
Proof.
  apply (add_validates_then_appends Examples.kmeans (__init__ 2 "Flat")
           (Np.of_rows 2 Examples.E) Examples.M).
  right. left. reflexivity.
Defined.

(** One entry, [k = 2]: two results, the stored record twice. *)
Lemma search_one_entry_k2 :
  exists ds results,
    search [3] 2 Examples.one_entry = (Ok (ds, results), Examples.one_entry)
    /\ length results = 2%nat
    /\ drop 1 results = [7%nat].
Proof.
  apply (search_beyond_size_repeats_last_entry
           Examples.one_entry (Examples.flat1 [[0]]) [3] 2 7%nat);
    reflexivity.
Defined.

Example padded_result_value :
  search [3] 2 Examples.one_entry
  = (Ok ([9; FLT_MAX], [7%nat; 7%nat]), Examples.one_entry).
Proof. vm_compute. reflexivity. Qed.

(** No entry, [k = 1]: [IndexError]. *)
Lemma search_no_entry_k1 :
  (exists e, (search [3] 1 Examples.no_entry).1 = Raise e)
  /\ (forall ix, index Examples.no_entry = Some ix -> is_trained ix = true ->
                 length [3] = d ix ->
                 search [3] 1 Examples.no_entry
                 = (Raise IndexError, Examples.no_entry)).
Proof.
  apply (search_empty_index_raises Examples.no_entry [3] 1);
    [reflexivity | reflexivity | lia].
Defined.

Example empty_index_error_value :
  search [3] 1 Examples.no_entry = (Raise IndexError, Examples.no_entry).
Proof. vm_compute. reflexivity. Qed.

Example search_before_any_add :
  search [3] 1 (__init__ 1 "Flat") = (Raise AttributeError, __init__ 1 "Flat").
Proof. reflexivity. Qed.

End FAISSIndexFacts.

Module RetrieverFacts.
Import Faiss FaissFacts FAISSIndexFacts MultimodalRetriever.

Lemma load_ok (fs : Fs.t) (ip mp : string) (h : heap) (self : FAISSIndex.t)
    (ix : Faiss.index) (records : list dict) :
  fs !! ip = Some (Fs.FaissFile ix) ->
  fs !! mp = Some (Fs.PickleFile records) ->
  FAISSIndexIO.load fs ip mp (h, self)
  = (Ok tt,
     (h ++ records,
      FAISSIndex.mk (FAISSIndex.dimension self) (FAISSIndex.index_type self)
                    (Some ix) (seq (length h) (length records)))).
Proof.
  intros Hi Hm. unfold FAISSIndexIO.load, Fs.read_index, Fs.pickle_load.
  py_unfold. by rewrite Hi, Hm.
Qed.

Lemma exists_Some (fs : Fs.t) (p : string) (f : Fs.file) :
  fs !! p = Some f -> Fs.exists_ fs p = true.
Proof. intros H. unfold Fs.exists_. apply bool_decide_eq_true. eauto. Qed.

Lemma exists_None (fs : Fs.t) (p : string) :
  fs !! p = None -> Fs.exists_ fs p = false.
Proof.
  intros H. unfold Fs.exists_. apply bool_decide_eq_false.
  rewrite H. by intros [? ?].
Qed.

Lemma load_indices_text_only (w : world) (ix : Faiss.index)
    (records : list dict) :
  let dir := index_dir (self_ w) in
  files w !! Fs.join dir "text_index.faiss" = Some (Fs.FaissFile ix) ->
  files w !! Fs.join dir "text_metadata.pkl" = Some (Fs.PickleFile records) ->
  files w !! Fs.join dir "image_index.faiss" = None ->
  load_indices w = (Ok tt, loaded_text_only w ix records).
Proof.
  intros dir Hti Htm Hii. unfold load_indices. py_unfold.
  cbn [tick_load self_ files index_dir].
  fold dir.
  rewrite (exists_Some _ _ _ Hti), (exists_None _ _ Hii). cbn [negb].
  unfold load_text_index. cbn [files objects self_].
  rewrite (load_ok _ _ _ _ _ ix records Hti Htm).
  reflexivity.
Qed.


Lemma load_indices_text_absent (w : world) :
  files w !! Fs.join (index_dir (self_ w)) "text_index.faiss" = None ->
  load_indices w = (Raise FileNotFoundError, tick_load w).
Proof.
  intros Hti. unfold load_indices. py_unfold.
  cbn [tick_load self_ files index_dir].
  by rewrite (exists_None _ _ Hti).
Qed.

Lemma set_text_index_same (w : world) :
  set_self (set_text_index (text_index (self_ w)) (self_ w)) w = w.
Proof. by destruct w as [h fs [dir ti ii] n]. Qed.

Lemma set_image_index_same (w : world) :
  set_self (set_image_index (image_index (self_ w)) (self_ w)) w = w.
Proof. by destruct w as [h fs [dir ti ii] n]. Qed.

Section WithEmbedders.
Variable text_embed : string -> result vec.
Variable image_embed : string -> result vec.

(** [search_text] in closed form: the world is left as it is. *)
Lemma search_text_unfold (query : string) (k : Z) (w : world) :
  search_text text_embed query k w =
  (match text_embed query with
   | Raise e => Raise e
   | Ok v => match (FAISSIndex.search v k (text_index (self_ w))).1 with
             | Raise e => Raise e
             | Ok r => Ok r.2
             end
   end, w).
Proof.
  unfold search_text, on_text_index. py_unfold.
  destruct (text_embed query) as [v|e]; [|done].
  rewrite (surjective_pairing (FAISSIndex.search v k _)).
  rewrite search_frame, set_text_index_same.
  by destruct ((FAISSIndex.search v k _).1).
Qed.

(** [search_image] in closed form: only the object store can change. *)
Lemma search_image_unfold (image_path : string) (k : Z) (w : world) :
  search_image image_embed image_path k w =
  match image_embed image_path with
  | Raise e => (Raise e, w)
  | Ok v => match (FAISSIndex.search v k (image_index (self_ w))).1 with
            | Raise e => (Raise e, w)
            | Ok r => (Ok r.2,
                       set_objects
                         (foldl (fun h p => annotate p.1 p.2 h) (objects w)
                                (zip r.2 r.1)) w)
            end
  end.
Proof.
  unfold search_image, on_image_index. py_unfold.
  destruct (image_embed image_path) as [v|e]; [|done].
  rewrite (surjective_pairing (FAISSIndex.search v k _)).
  rewrite search_frame, set_image_index_same.
  by destruct ((FAISSIndex.search v k _).1).
Qed.

(** Claim C4.  [load_indices] raises [FileNotFoundError] when the text
    index artifact is absent.  When the text artifacts are present and only
    the image index artifact is absent, on a retriever whose image index was
    never loaded, [load_indices] succeeds; afterwards every [search_image]
    call raises (with [AttributeError] once the image is embedded), which is
    not an empty result, and leaves the retriever as it is, while
    [search_text] on a text index that holds an entry returns results. *)
Theorem text_index_required_image_index_optional (w : world) :
  let dir := index_dir (self_ w) in
  (files w !! Fs.join dir "text_index.faiss" = None ->
   (load_indices w).1 = Raise FileNotFoundError)
  /\ (forall (ix : Faiss.index) (records : list dict),
      files w !! Fs.join dir "text_index.faiss" = Some (Fs.FaissFile ix) ->
      files w !! Fs.join dir "text_metadata.pkl" = Some (Fs.PickleFile records) ->
      files w !! Fs.join dir "image_index.faiss" = None ->
      FAISSIndex.index (image_index (self_ w)) = None ->
      let w' := (load_indices w).2 in
      (load_indices w).1 = Ok tt
      /\ (forall image_path k,
          exists e, search_image image_embed image_path k w' = (Raise e, w'))
      /\ (forall image_path k v,
          image_embed image_path = Ok v ->
          search_image image_embed image_path k w' = (Raise AttributeError, w'))
      /\ (forall query k v,
          text_embed query = Ok v -> length v = d ix ->
          is_trained ix = true -> records <> [] -> 0 < k ->
          exists results,
            search_text text_embed query k w' = (Ok results, w'))).
Proof.
  intros dir. split.
  { intros Hti. by rewrite load_indices_text_absent. }
  intros ix records Hti Htm Hii Hnone w'.
  subst w'. rewrite (load_indices_text_only w ix records Hti Htm Hii).
  cbn [fst snd].
  assert (forall image_path k v, image_embed image_path = Ok v ->
            search_image image_embed image_path k (loaded_text_only w ix records)
            = (Raise AttributeError, loaded_text_only w ix records)) as Himg.
  { intros image_path k v Hv. rewrite search_image_unfold, Hv.
    rewrite search_unfold. cbn [fst loaded_text_only self_ image_index].
    by rewrite Hnone. }
  split; [done|]. split; [|split; [exact Himg|]].
  - intros image_path k.
    destruct (image_embed image_path) as [v|e] eqn:Hv.
    + exists AttributeError. by eapply Himg.
    + exists e. by rewrite search_image_unfold, Hv.
  - intros query k v Hv Hlen Htr Hne Hk.
    rewrite search_text_unfold, Hv.
    cbn [loaded_text_only self_ text_index].
    edestruct (search_succeeds_nonempty
                 (FAISSIndex.mk (FAISSIndex.dimension (text_index (self_ w)))
                    (FAISSIndex.index_type (text_index (self_ w))) (Some ix)
                    (seq (length (objects w)) (length records)))
                 ix v k) as [r Hr]; try done.
    { cbn [FAISSIndex.metadata]. destruct records; [done|]. by simpl. }
    rewrite Hr. cbn [fst]. eauto.
Qed.


(** *** What a search leaves untouched *)

Lemma search_text_frame (query : string) (k : Z) (w : world) :
  (search_text text_embed query k w).2 = w.
Proof. by rewrite search_text_unfold. Qed.

(** [search_image] changes neither index (vectors, list of records), nor
    the files: it can only write into the records of the object store. *)
Lemma search_image_frame (image_path : string) (k : Z) (w : world) :
  let w' := (search_image image_embed image_path k w).2 in
  self_ w' = self_ w /\ files w' = files w /\ load_calls w' = load_calls w.
Proof.
  rewrite search_image_unfold.
  destruct (image_embed image_path); [|done].
  by destruct ((FAISSIndex.search _ _ _).1).
Qed.

End WithEmbedders.

Lemma load_at_examples :
  (load_indices (Examples.fresh_world Examples.fs_image_only)).1
  = Raise FileNotFoundError
  /\ (let w' := (load_indices (Examples.fresh_world Examples.fs_text_only)).2 in
      (load_indices (Examples.fresh_world Examples.fs_text_only)).1 = Ok tt
      /\ search_image Examples.embed_one "dish.jpg" 5 w'
         = (Raise AttributeError, w')
      /\ exists results,
           search_text Examples.embed_one "pizza" 5 w' = (Ok results, w')).
Proof.
  split.
  - apply (text_index_required_image_index_optional
             Examples.embed_one Examples.embed_one
             (Examples.fresh_world Examples.fs_image_only)).
    vm_compute. reflexivity.
  - destruct (text_index_required_image_index_optional
                Examples.embed_one Examples.embed_one
                (Examples.fresh_world Examples.fs_text_only)) as [_ H].
    destruct (H (Examples.flat1 [[0]; [5]]) Examples.text_records)
      as (Hok & _ & Himg & Htxt);
      [vm_compute; reflexivity | vm_compute; reflexivity
       | vm_compute; reflexivity | reflexivity |].
    split; [exact Hok|]. split.
    + apply (Himg "dish.jpg" 5 [1]). reflexivity.
    + apply (Htxt "pizza" 5 [1]); [reflexivity | reflexivity | reflexivity
                                   | discriminate | lia].
Defined.

(** Claim C6 (the code departs from it).  A [search_image] call is not
    free of side effects on the index state: the records it returns are the
    very objects the image index stores, and the call writes [distance] and
    [similarity] into them.  On the served example, a search with [k = 1]
    leaves both indexes' vectors and lists of records in place and the text
    index's records as they were, but the record stored in the image index
    has two more fields afterwards. *)
Theorem search_image_rewrites_stored_records :
  let w := Examples.served_world in
  let out := search_image Examples.embed_one "dish.jpg" 1 w in
  out.1 = Ok [2%nat]
  /\ self_ out.2 = self_ w
  /\ stored_records (objects w) (image_index (self_ w))
     = [{["name" := VStr "Trattoria"]}]
  /\ stored_records (objects out.2) (image_index (self_ out.2))
     = [<["similarity" := VFloat (13421773 # 67108864)]>
          (<["distance" := VFloat 4]> {["name" := VStr "Trattoria"]})]
  /\ stored_records (objects out.2) (text_index (self_ out.2))
     = stored_records (objects w) (text_index (self_ w))
  /\ stored_records (objects out.2) (image_index (self_ out.2))
     <> stored_records (objects w) (image_index (self_ w)).
Proof.
  cbv zeta.
  split; [vm_compute; reflexivity|].
  split; [vm_compute; reflexivity|].
  split; [vm_compute; reflexivity|].
  split; [vm_compute; reflexivity|].
  split; [vm_compute; reflexivity|].
  intros H.
  apply (f_equal (fmap (fun r : dict => bool_decide (is_Some (r !! "distance")))))
    in H.
  vm_compute in H. discriminate H.
Qed.

End RetrieverFacts.

Module ToolFacts.
Import Faiss FAISSIndexFacts MultimodalRetriever RetrieverFacts Tools.

(** A [try] whose handler returns always returns. *)
Lemma try_except_returns {S A} (c : py S A) (h : exn -> A) (s : S) :
  exists a, (try_except c (fun e => mret (h e)) s).1 = Ok a.
Proof.
  unfold try_except. destruct (c s) as [[a|e] s']; simpl; eauto.
Qed.

Section WithServices.
Variable text_embed : string -> result vec.
Variable image_embed : string -> result vec.
Variable json_dumps : list dict -> result string.
Variable str_exn : exn -> string.
Variable format_exc : exn -> string.
Variable image : Type.
Variable open_image : string -> result image.
Variable clip_probs : image -> list string -> result (list Q).
Variable fmt_1f : Q -> string.
Variable pretty_nat : nat -> string.

Lemma try_except_cases {S A} (c : py S A) (h : exn -> A) (s : S) :
  try_except c (fun e => mret (h e)) s
  = match c s with
    | (Ok a, s') => (Ok a, s')
    | (Raise e, s') => (Ok (h e), s')
    end.
Proof. unfold try_except. by destruct (c s) as [[a|e] s']. Qed.

(** *** Lazy loading *)

Lemma load_indices_counts (w : world) :
  load_calls (load_indices w).2 = S (load_calls w).
Proof.
  unfold load_indices, load_text_index, load_image_index. py_unfold.
  cbn [tick_load self_ files index_dir objects].
  destruct (negb (Fs.exists_ _ _)); [done|].
  destruct (FAISSIndexIO.load _ _ _ _) as [[[]|e] [h ix]]; [|done].
  destruct (Fs.exists_ _ _); [|done].
  cbn [set_objects set_self self_ files objects load_calls].
  by destruct (FAISSIndexIO.load _ _ _ _) as [[[]|e'] [h' ix']].
Qed.

Lemma ensure_loaded_unfold (s : rag_tool * world) :
  ensure_loaded s =
  if negb (_indices_loaded s.1) && retriever s.1
  then match (load_indices s.2).1 with
       | Ok _ => (Ok tt, (set_loaded true s.1, (load_indices s.2).2))
       | Raise e => (Raise e, (s.1, (load_indices s.2).2))
       end
  else (Ok tt, s).
Proof.
  unfold ensure_loaded, on_retriever. py_unfold.
  destruct s as [[r l] w]; cbn [fst snd _indices_loaded retriever].
  destruct l, r; cbn [negb andb]; try done.
  cbn [fst snd retriever].
  by destruct (load_indices w) as [[[]|e] w'].
Qed.

(** The [try] block of a retrieval tool, step by step: the load, the
    search, the rendering. *)
Lemma attempt_unfold (m : py world (list loc)) (empty : string)
    (s : rag_tool * world) :
  (ensure_loaded ;;
   results ← on_retriever m;
   render json_dumps empty results) s
  = match ensure_loaded s with
    | (Raise e, s1) => (Raise e, s1)
    | (Ok _, s1) =>
        if retriever s1.1
        then match m s1.2 with
             | (Raise e, w) => (Raise e, (s1.1, w))
             | (Ok results, w) =>
                 (if bool_decide (results = []) then Ok empty
                  else json_dumps (deref (objects w) results),
                  (s1.1, w))
             end
        else (Raise AttributeError, s1)
    end.
Proof.
  py_unfold.
  destruct (ensure_loaded s) as [[[]|e] [t w]]; cbn [fst snd]; [|done].
  unfold on_retriever. cbn [fst snd].
  destruct (retriever t); [|done].
  destruct (m w) as [[results|e] w']; cbn [fst snd]; [|done].
  unfold render. py_unfold.
  by destruct (bool_decide (results = [])).
Qed.

Lemma search_image_calls (image_path : string) (k : Z) (w : world) :
  load_calls (search_image image_embed image_path k w).2 = load_calls w.
Proof.
  rewrite search_image_unfold.
  destruct (image_embed image_path); [|done].
  by destruct ((FAISSIndex.search _ _ _).1).
Qed.

(** The state a run of a retrieval tool leaves. *)
Lemma run_state (m : py world (list loc)) (empty : string)
    (handler : exn -> string) (s : rag_tool * world) :
  retriever s.1 = true ->
  (try_except
     (ensure_loaded ;;
      results ← on_retriever m;
      render json_dumps empty results)
     (fun e => mret (handler e)) s).2
  = if _indices_loaded s.1 then (s.1, (m s.2).2)
    else (set_loaded (is_ok (load_indices s.2).1) s.1,
          if is_ok (load_indices s.2).1 then (m (load_indices s.2).2).2
          else (load_indices s.2).2).
Proof.
  intros Hr. rewrite try_except_cases, attempt_unfold, ensure_loaded_unfold.
  destruct s as [[r l] w]. cbn [fst snd retriever _indices_loaded] in *.
  subst r. destruct l; cbn [negb andb fst snd retriever].
  - destruct (m w) as [[results|e] w']; cbn [fst snd]; [|done].
    by destruct (if bool_decide _ then _ else _).
  - destruct ((load_indices w).1) as [[]|e]; cbn [fst snd retriever set_loaded is_ok];
      [|done].
    destruct (m _) as [[results|e] w']; cbn [fst snd]; [|done].
    by destruct (if bool_decide _ then _ else _).
Qed.

(** Claim C5.  Whatever the embedding providers, the scorer, the
    serializer, the file system and the retriever do, the [_run] method of
    each of the three tools returns a text: what its [try] block returns, or,
    when that block raises an exception, the error text made of the tool's
    prefix, the exception's message and the traceback; the state is the one
    the block left.  In particular a failure of [load_indices], of an
    embedding provider (once the indices are loaded, before this run or by
    it), of a tool without retriever, of opening the image or of the scorer
    ends in the error text of that very exception, and never in an
    exception. *)
Theorem tools_contain_their_failures
    (query image_path question : string) (k : Z)
    (s : rag_tool * world) (St : Type) (st : St) :
  let details := fun e : exn => str_exn e +:+ "

Details:
" +:+ format_exc e in
  let text_run := rag_text_run text_embed json_dumps str_exn format_exc in
  let image_run := rag_image_run image_embed json_dumps str_exn format_exc in
  let qa_run := image_qa_run (S:=St) image open_image clip_probs fmt_1f pretty_nat
                             str_exn format_exc in
  (text_run query k s
   = match rag_text_attempt text_embed json_dumps query k s with
     | (Ok out, s') => (Ok out, s')
     | (Raise e, s') =>
         (Ok ("Error retrieving restaurants: " +:+ details e), s')
     end)
  /\ (image_run image_path k s
      = match rag_image_attempt image_embed json_dumps image_path k s with
        | (Ok out, s') => (Ok out, s')
        | (Raise e, s') =>
            (Ok ("Error retrieving similar restaurants: " +:+ details e), s')
        end)
  /\ (qa_run image_path question st
      = match image_qa_attempt (S:=St) image open_image clip_probs fmt_1f pretty_nat
                               image_path question st with
        | (Ok out, st') => (Ok out, st')
        | (Raise e, st') => (Ok ("Error analyzing image: " +:+ details e), st')
        end)
  /\ (forall e, retriever s.1 = true -> _indices_loaded s.1 = false ->
                (load_indices s.2).1 = Raise e ->
                (text_run query k s).1
                = Ok ("Error retrieving restaurants: " +:+ details e)
                /\ (image_run image_path k s).1
                   = Ok ("Error retrieving similar restaurants: " +:+ details e))
  /\ (forall e, retriever s.1 = true ->
                (_indices_loaded s.1 = false -> is_ok (load_indices s.2).1 = true) ->
                text_embed query = Raise e ->
                (text_run query k s).1
                = Ok ("Error retrieving restaurants: " +:+ details e))
  /\ (forall e, retriever s.1 = true ->
                (_indices_loaded s.1 = false -> is_ok (load_indices s.2).1 = true) ->
                image_embed image_path = Raise e ->
                (image_run image_path k s).1
                = Ok ("Error retrieving similar restaurants: " +:+ details e))
  /\ (retriever s.1 = false ->
      text_run query k s
      = (Ok ("Error retrieving restaurants: " +:+ details AttributeError), s)
      /\ image_run image_path k s
         = (Ok ("Error retrieving similar restaurants: "
                +:+ details AttributeError), s))
  /\ (forall e, open_image image_path = Raise e ->
                qa_run image_path question st
                = (Ok ("Error analyzing image: " +:+ details e), st))
  /\ (forall img e, open_image image_path = Ok img ->
                    clip_probs img (_generate_answer_candidates question)
                    = Raise e ->
                    qa_run image_path question st
                    = (Ok ("Error analyzing image: " +:+ details e), st)).
Proof.
  intros details text_run image_run qa_run.
  subst text_run image_run qa_run.
  unfold rag_text_run, rag_image_run, image_qa_run.
  rewrite !try_except_cases.
  split; [by destruct (rag_text_attempt _ _ _ _ _) as [[?|?] ?]|].
  split; [by destruct (rag_image_attempt _ _ _ _ _) as [[?|?] ?]|].
  split; [by destruct (image_qa_attempt _ _ _ _ _ _ _ _) as [[?|?] ?]|].
  unfold rag_text_attempt, rag_image_attempt.
  rewrite !attempt_unfold, ensure_loaded_unfold.
  destruct s as [[r l] w]. cbn [fst snd retriever _indices_loaded].
  split; [|split; [|split; [|split; [|split]]]].
  - intros e -> -> He. cbn [negb andb]. by rewrite He.
  - intros e -> Hload He. destruct l; cbn [negb andb fst snd retriever].
    + by rewrite search_text_unfold, He.
    + specialize (Hload eq_refl).
      destruct ((load_indices w).1) as [[]|e']; [|done].
      cbn [fst snd retriever set_loaded].
      by rewrite search_text_unfold, He.
  - intros e -> Hload He. destruct l; cbn [negb andb fst snd retriever].
    + by rewrite search_image_unfold, He.
    + specialize (Hload eq_refl).
      destruct ((load_indices w).1) as [[]|e']; [|done].
      cbn [fst snd retriever set_loaded].
      by rewrite search_image_unfold, He.
  - intros ->. rewrite andb_false_r. done.
  - intros e He. unfold image_qa_attempt. py_unfold. by rewrite He.
  - intros img e Himg He. unfold image_qa_attempt. py_unfold.
    by rewrite Himg, He.
Qed.

(** Claim C10.  A retrieval tool that holds the retriever loads the
    retriever's indices lazily and remembers success.  An invocation made
    while the flag is unset calls [load_indices] once: the world it works on
    afterwards is the one [load_indices] leaves (for the image tool, with
    what the search then writes into the returned records, which is no
    further call), and the flag is
    set exactly when that call succeeded, so that a failed load is retried by
    the next invocation.  An invocation made while the flag is set does not
    load: the text tool leaves tool and world as they are, the image tool
    leaves the world that its search leaves; and so does every series of
    invocations, without a further call of [load_indices]. *)
Theorem rag_tools_load_indices_once
    (s : rag_tool * world) (query image_path : string) (k : Z)
    (text_calls image_calls : list (string * Z)) :
  retriever s.1 = true ->
  let loaded := load_indices s.2 in
  let text_run := rag_text_run text_embed json_dumps str_exn format_exc in
  let image_run := rag_image_run image_embed json_dumps str_exn format_exc in
  (_indices_loaded s.1 = false ->
   load_calls loaded.2 = S (load_calls s.2)
   /\ (text_run query k s).2 = (set_loaded (is_ok loaded.1) s.1, loaded.2)
   /\ (image_run image_path k s).2
      = (set_loaded (is_ok loaded.1) s.1,
         if is_ok loaded.1
         then (search_image image_embed image_path k loaded.2).2
         else loaded.2)
   /\ load_calls (image_run image_path k s).2.2 = S (load_calls s.2))
  /\ (_indices_loaded s.1 = true ->
      (text_run query k s).2 = s
      /\ (image_run image_path k s).2
         = (s.1, (search_image image_embed image_path k s.2).2)
      /\ (run_all text_run text_calls s).2 = s
      /\ let s' := (run_all image_run image_calls s).2 in
         s'.1 = s.1 /\ load_calls s'.2 = load_calls s.2
         /\ self_ s'.2 = self_ s.2 /\ files s'.2 = files s.2).
Proof.
  intros Hr loaded text_run image_run.
  assert (forall q k' s0, retriever s0.1 = true -> _indices_loaded s0.1 = true ->
                          (text_run q k' s0).2 = s0) as Htext.
  { intros q k' s0 Hr0 Hl0. subst text_run.
    unfold rag_text_run, rag_text_attempt.
    rewrite run_state by done. rewrite Hl0, search_text_frame.
    by destruct s0. }
  assert (forall p k' s0, retriever s0.1 = true -> _indices_loaded s0.1 = true ->
                          (image_run p k' s0).2
                          = (s0.1, (search_image image_embed p k' s0.2).2))
    as Himage.
  { intros p k' s0 Hr0 Hl0. subst image_run.
    unfold rag_image_run, rag_image_attempt.
    rewrite run_state by done. by rewrite Hl0. }
  split.
  - intros Hl. split; [apply load_indices_counts|].
    subst text_run image_run loaded.
    unfold rag_text_run, rag_text_attempt, rag_image_run, rag_image_attempt.
    rewrite !run_state by done. rewrite Hl.
    split; [|split; [done|]].
    + destruct (is_ok (load_indices s.2).1); [|done].
      by rewrite search_text_frame.
    + cbn [snd].
      destruct (is_ok (load_indices s.2).1); [rewrite search_image_calls|];
        apply load_indices_counts.
  - intros Hl. clear loaded.
    split; [by apply Htext|]. split; [by apply Himage|]. split.
    + clear Himage. revert s Hr Hl.
      induction text_calls as [|[q k'] calls IH]; intros s Hr Hl; [done|].
      cbn [run_all fst snd]. py_unfold.
      pose proof (Htext q k' s Hr Hl) as Hs.
      destruct (text_run q k' s) as [[out|e] s1]; cbn [fst snd] in *; subst s1;
        [|done].
      specialize (IH s Hr Hl).
      by destruct (run_all text_run calls s) as [[more|e] s2].
    + cbv zeta. clear Htext. revert s Hr Hl.
      induction image_calls as [|[p k'] calls IH]; intros s Hr Hl; [done|].
      cbn [run_all fst snd]. py_unfold.
      pose proof (Himage p k' s Hr Hl) as Hs.
      destruct (search_image_frame image_embed p k' s.2) as (Hself & Hfiles & Hcalls).
      destruct (image_run p k' s) as [[out|e] s1]; cbn [fst snd] in *; subst s1;
        [|done].
      cbn [fst snd] in *.
      specialize (IH (s.1, (search_image image_embed p k' s.2).2) Hr Hl).
      cbn [fst snd] in IH. rewrite Hself, Hfiles, Hcalls in IH.
      by destruct (run_all image_run calls _) as [[more|e] s2].
Qed.


(** The image question-answering tool reads and writes no state. *)
Lemma image_qa_frame {S} (image_path question : string) (st : S) :
  (image_qa_run image open_image clip_probs fmt_1f pretty_nat
                str_exn format_exc image_path question st).2 = st.
Proof.
  unfold image_qa_run, image_qa_attempt. py_unfold.
  destruct (open_image image_path); [|done].
  destruct (clip_probs _ _) as [probs|]; [|done].
  destruct (topk _ _) as [top|]; [|done].
  destruct (answer_lines _ _ _ _ _); [|done].
  destruct (list_getitem top 0) as [best|]; [|done].
  destruct (list_getitem _ (Z.of_nat best.2)); [|done].
  by destruct (Qlt_le_dec _ _).
Qed.

End WithServices.

Lemma lazy_load_at_example :
  let s := (rag_init true, Examples.fresh_world Examples.fs_both) in
  let loaded := load_indices s.2 in
  let text_run := rag_text_run Examples.embed_one Fixtures.json_dumps
                               Fixtures.str_exn Fixtures.format_exc in
  let image_run := rag_image_run Examples.embed_one Fixtures.json_dumps
                                 Fixtures.str_exn Fixtures.format_exc in
  (_indices_loaded s.1 = false ->
   load_calls loaded.2 = S (load_calls s.2)
   /\ (text_run "pizza" 5 s).2 = (set_loaded (is_ok loaded.1) s.1, loaded.2)
   /\ (image_run "dish.jpg" 5 s).2
      = (set_loaded (is_ok loaded.1) s.1,
         if is_ok loaded.1
         then (search_image Examples.embed_one "dish.jpg" 5 loaded.2).2
         else loaded.2)
   /\ load_calls (image_run "dish.jpg" 5 s).2.2 = S (load_calls s.2))
  /\ (_indices_loaded s.1 = true ->
      (text_run "pizza" 5 s).2 = s
      /\ (image_run "dish.jpg" 5 s).2
         = (s.1, (search_image Examples.embed_one "dish.jpg" 5 s.2).2)
      /\ (run_all text_run [("pizza", 5); ("sushi", 3)] s).2 = s
      /\ let s' := (run_all image_run [("dish.jpg", 5)] s).2 in
         s'.1 = s.1 /\ load_calls s'.2 = load_calls s.2
         /\ self_ s'.2 = self_ s.2 /\ files s'.2 = files s.2).
Proof.
  apply (rag_tools_load_indices_once
           Examples.embed_one Examples.embed_one Fixtures.json_dumps
           Fixtures.str_exn Fixtures.format_exc
           (rag_init true, Examples.fresh_world Examples.fs_both)
           "pizza" "dish.jpg" 5 [("pizza", 5); ("sushi", 3)] [("dish.jpg", 5)]).
  reflexivity.
Defined.

(** Without the text index the load fails, and each tool answers with the
    error text of that failure. *)
Lemma failed_load_payloads :
  let s := (rag_init true, Examples.fresh_world Examples.fs_image_only) in
  (rag_text_run Examples.embed_one Fixtures.json_dumps
                Fixtures.str_exn Fixtures.format_exc "pizza" 5 s).1
  = Ok "Error retrieving restaurants: error

Details:
Traceback"
  /\ (rag_image_run Examples.embed_one Fixtures.json_dumps
                    Fixtures.str_exn Fixtures.format_exc "dish.jpg" 5 s).1
     = Ok "Error retrieving similar restaurants: error

Details:
Traceback".
Proof.
  destruct (tools_contain_their_failures
              Examples.embed_one Examples.embed_one Fixtures.json_dumps
              Fixtures.str_exn Fixtures.format_exc unit Fixtures.open_image
              Fixtures.clip_probs Fixtures.fmt_1f Fixtures.pretty_nat
              "pizza" "dish.jpg" "Is this food?" 5
              (rag_init true, Examples.fresh_world Examples.fs_image_only)
              unit tt) as (_ & _ & _ & Hload & _).
  apply (Hload FileNotFoundError); reflexivity.
Defined.

(** The first invocation loads, the second does not. *)
Example two_invocations_one_load :
  let run := rag_text_run Examples.embed_one (fun _ => Ok "[]")
                          (fun _ => "error") (fun _ => "traceback") in
  let s0 := (rag_init true, Examples.fresh_world Examples.fs_both) in
  let s1 := (run "pizza" 5 s0).2 in
  let s2 := (run "sushi" 3 s1).2 in
  (load_calls s0.2, load_calls s1.2, load_calls s2.2) = (0, 1, 1)%nat
  /\ (_indices_loaded s1.1, _indices_loaded s2.1) = (true, true).
Proof. vm_compute. split; reflexivity. Qed.

(** Without the text index every invocation retries the load. *)
Example failed_load_is_retried :
  let run := rag_text_run Examples.embed_one (fun _ => Ok "[]")
                          (fun _ => "error") (fun _ => "traceback") in
  let s0 := (rag_init true, Examples.fresh_world Examples.fs_image_only) in
  let s1 := (run "pizza" 5 s0).2 in
  let s2 := (run "sushi" 3 s1).2 in
  (load_calls s0.2, load_calls s1.2, load_calls s2.2) = (0, 1, 2)%nat
  /\ (_indices_loaded s1.1, _indices_loaded s2.1) = (false, false).
Proof. vm_compute. split; reflexivity. Qed.

End ToolFacts.

Module AgentFacts.
Import FAISSIndexFacts RetrieverFacts Agent.

Section WithServices.
Variable W : Type.
Variable llm : state -> result (string * list tool_call).
Variable call_tool : tool_call -> py W string.
Variable system_prompt : string.

Local Abbreviation graph := (build_graph W llm call_tool system_prompt).
Local Abbreviation model_input := (Agent.model_input system_prompt).

Lemma last_message_snoc (st : state) (m : message) :
  list_getitem (st ++ [m]) (-1) = Ok m.
Proof. by rewrite list_getitem_minus_one, last_snoc. Qed.

Lemma should_continue_after_reply (st : state) (content : string)
    (calls : list tool_call) :
  _should_continue (st ++ [AIMessage content calls])
  = Ok (if bool_decide (calls = []) then route_end else route_tools).
Proof.
  unfold _should_continue. rewrite last_message_snoc.
  by destruct calls.
Qed.

Lemma agent_step (st : state) (w : W) (content : string)
    (calls : list tool_call) :
  llm (model_input st) = Ok (content, calls) ->
  step W graph agent st w
  = (Ok (if bool_decide (calls = []) then END else tools,
         st ++ [AIMessage content calls]), w).
Proof.
  intros Hllm. unfold step, next_node. cbn [build_graph node_fn conditional_edge].
  unfold _call_model. py_unfold. rewrite Hllm. cbn [fst snd].
  rewrite should_continue_after_reply.
  by destruct calls.
Qed.

Lemma run_from_END (fuel : nat) (st : state) (trace : list (node * state))
    (w : W) :
  run_from W graph fuel END st trace w = (Ok (st, trace), w).
Proof. by destruct fuel. Qed.

Lemma run_from_START (fuel : nat) (st : state) (trace : list (node * state))
    (w : W) :
  run_from W graph (S fuel) START st trace w
  = run_from W graph fuel agent st trace w.
Proof. reflexivity. Qed.

Lemma run_from_agent (fuel : nat) (st : state) (trace : list (node * state))
    (w : W) (content : string) (calls : list tool_call) :
  llm (model_input st) = Ok (content, calls) ->
  run_from W graph (S fuel) agent st trace w
  = run_from W graph fuel (if bool_decide (calls = []) then END else tools)
             (st ++ [AIMessage content calls]) (trace ++ [(agent, st)]) w.
Proof.
  intros Hllm. cbn [run_from]. unfold mbind, py_bind, bind.
  by rewrite (agent_step st w content calls Hllm).
Qed.

(** Claim C8.  After a Reasoning step whose reply carries the tool calls
    [calls], the loop goes to Acting if and only if [calls] is not empty and
    to Done if and only if it is empty.  In particular, when the reply to
    the first Reasoning step of a session carries no tool call, the session
    ends with that reply as its answer after exactly one Reasoning step and
    no Acting step. *)
Theorem reasoning_routes_on_tool_calls (st : state) (w : W)
    (content : string) (calls : list tool_call) :
  llm (model_input st) = Ok (content, calls) ->
  let st' := st ++ [AIMessage content calls] in
  (exists next,
     step W graph agent st w = (Ok (next, st'), w)
     /\ (next = tools <-> calls <> [])
     /\ (next = END <-> calls = []))
  /\ (forall query, st = [HumanMessage query] -> calls = [] ->
      exists trace,
        run W llm call_tool system_prompt query w
        = (Ok (content, st', trace), w)
        /\ reasoning_steps trace = [st]
        /\ acting_steps trace = []).
Proof.
  intros Hllm st'. split.
  - eexists. split; [by apply agent_step|].
    destruct calls; rewrite ?bool_decide_true, ?bool_decide_false by done;
      split; split; done.
  - intros query -> ->. exists [(agent, [HumanMessage query])].
    split; [|done].
    unfold run, invoke. unfold mbind, py_bind, bind.
    change DEFAULT_RECURSION_LIMIT with (S (S 23)).
    rewrite run_from_START, (run_from_agent _ _ _ _ content [] Hllm).
    rewrite bool_decide_true by done. rewrite run_from_END.
    subst st'. cbn [fst snd]. unfold lift.
    rewrite (last_message_snoc [HumanMessage query] (AIMessage content [])).
    reflexivity.
Qed.

(** *** The system instruction *)

Lemma model_input_system_free (st : state) :
  system_free st -> model_input st = SystemMessage system_prompt :: st.
Proof.
  unfold system_free, Agent.model_input. intros ->.
  by rewrite orb_true_r.
Qed.

Lemma system_free_app (st new : state) :
  system_free st -> system_free new -> system_free (st ++ new).
Proof. unfold system_free. rewrite existsb_app. by intros -> ->. Qed.

Lemma run_calls_system_free (calls : list tool_call) (w w' : W)
    (msgs : list message) :
  run_calls W call_tool calls w = (Ok msgs, w') -> system_free msgs.
Proof.
  revert w msgs. induction calls as [|c calls IH]; intros w msgs; cbn [run_calls].
  - py_unfold. by intros [= <- _].
  - py_unfold. destruct (call_tool c w) as [[out|e] w1]; [|done].
    destruct (run_calls W call_tool calls w1) as [[more|e] w2] eqn:Hrest; [|done].
    intros [= <- <-]. apply IH in Hrest. by unfold system_free in *.
Qed.

Lemma node_output_system_free (n : node)
    (f : state -> py W (list message)) (st : state) (w w' : W)
    (new : list message) :
  node_fn W graph n = Some f -> f st w = (Ok new, w') -> system_free new.
Proof.
  destruct n; cbn [build_graph node_fn]; intros [= <-]; try done.
  - unfold _call_model. py_unfold.
    destruct (llm _) as [r|e]; [|done]. by intros [= <- _].
  - unfold ToolNode. py_unfold.
    destruct (list_getitem st (-1)) as [[| ? calls | |]|e]; try done.
    apply run_calls_system_free.
Qed.

Lemma step_system_free (n n' : node) (st st' : state) (w w' : W) :
  system_free st -> step W graph n st w = (Ok (n', st'), w') ->
  system_free st'.
Proof.
  intros Hst. unfold step.
  destruct (node_fn W graph n) as [f|] eqn:Hf.
  - py_unfold. destruct (f st w) as [[new|e] w1] eqn:Hrun; [|done].
    destruct (next_node W graph n (st ++ new)); [|done].
    intros [= _ <- _]. apply system_free_app; [done|].
    by eapply node_output_system_free.
  - py_unfold. destruct (next_node W graph n st); [|done].
    by intros [= _ <- _].
Qed.

Lemma run_from_system_free (fuel : nat) (n : node) (st : state)
    (trace : list (node * state)) (w w' : W)
    (final : state) (trace' : list (node * state)) :
  system_free st -> Forall (fun p => system_free p.2) trace ->
  run_from W graph fuel n st trace w = (Ok (final, trace'), w') ->
  Forall (fun p => system_free p.2) trace'.
Proof.
  revert n st trace w. induction fuel as [|fuel IH]; intros n st trace w Hst Htr.
  - destruct n; cbn [run_from]; py_unfold; try done. by intros [= _ <- _].
  - assert (forall c w1, step W graph n st w = (Ok c, w1) ->
              run_from W graph fuel c.1 c.2
                (match node_fn W graph n with
                 | Some _ => trace ++ [(n, st)]
                 | None => trace
                 end) w1 = (Ok (final, trace'), w') ->
              Forall (fun p => system_free p.2) trace') as Hgo.
    { intros [n1 st1] w1 Hstep. apply IH.
      - by eapply step_system_free.
      - destruct (node_fn W graph n); [|done].
        apply Forall_app. split; [done|]. by constructor. }
    destruct n; cbn [run_from]; py_unfold;
      try (destruct (step W graph _ st w) as [[c|e] w1] eqn:Hstep; [|done];
           by apply Hgo).
    by intros [= _ <- _].
Qed.

(** Claim C9, as amended.  In a session started by [run(query)] the system
    instruction is never stored in the conversation: on every Reasoning
    step, the first and the later ones alike, [_call_model] prepends it to
    the messages it hands to the model, which therefore start with the
    system instruction and hold no other system message. *)
Theorem system_instruction_leads_every_model_call
    (query : string) (w w' : W) (answer : string) (final : state)
    (trace : list (node * state)) :
  run W llm call_tool system_prompt query w = (Ok (answer, final, trace), w') ->
  Forall (fun st => model_input st = SystemMessage system_prompt :: st
                    /\ existsb is_system st = false)
         (reasoning_steps trace).
Proof.
  unfold run, invoke. py_unfold.
  destruct (run_from _ _ _ _ _ _ w) as [[[final' trace']|e] w1] eqn:Hrun; [|done].
  cbn [fst snd]. destruct (list_getitem final' (-1)); [|done].
  intros [= _ _ <- _].
  apply run_from_system_free in Hrun; [|done|done].
  unfold reasoning_steps. apply Forall_fmap, Forall_forall.
  intros [n st] Hin. apply list_elem_of_In, filter_In in Hin as [Hin _].
  rewrite Forall_forall in Hrun. apply list_elem_of_In, Hrun in Hin.
  split; [by apply model_input_system_free|done].
Qed.

End WithServices.

Lemma direct_answer_session :
  let st := [HumanMessage "hi"] in
  let st' := st ++ [AIMessage "Hello!" []] in
  (exists next,
     step unit (build_graph unit Examples.llm_direct Examples.tool_stub "SYSTEM")
          agent st tt = (Ok (next, st'), tt)
     /\ (next = tools <-> @nil tool_call <> [])
     /\ (next = END <-> @nil tool_call = []))
  /\ (forall query, st = [HumanMessage query] -> @nil tool_call = [] ->
      exists trace,
        run unit Examples.llm_direct Examples.tool_stub "SYSTEM" query tt
        = (Ok ("Hello!", st', trace), tt)
        /\ reasoning_steps trace = [st]
        /\ acting_steps trace = []).
Proof.
  apply (reasoning_routes_on_tool_calls unit Examples.llm_direct
           Examples.tool_stub "SYSTEM" [HumanMessage "hi"] tt "Hello!" []).
  reflexivity.
Defined.

(** A session with one tool call: Reasoning, Acting, Reasoning. *)
Example one_search_session :
  run unit Examples.llm_one_search Examples.tool_stub "SYSTEM" "pizza?" tt
  = (Ok ("Try Trattoria.",
         [HumanMessage "pizza?";
          AIMessage "" [Examples.search_call];
          ToolMessage "[]" "call_1";
          AIMessage "Try Trattoria." []],
         [(agent, [HumanMessage "pizza?"]);
          (tools, [HumanMessage "pizza?"; AIMessage "" [Examples.search_call]]);
          (agent, [HumanMessage "pizza?"; AIMessage "" [Examples.search_call];
                   ToolMessage "[]" "call_1"])]),
     tt).
Proof. vm_compute. reflexivity. Qed.

(** Claim C9 as stated fails: the second Reasoning step of the session
    above injects the system instruction again. *)
Lemma system_instruction_injected_again :
  ~ (forall (W : Type) (llm : state -> result (string * list tool_call))
            (call_tool : tool_call -> py W string)
            (system_prompt query : string) (w w' : W)
            (answer : string) (final : state) (trace : list (node * state)),
        run W llm call_tool system_prompt query w
        = (Ok (answer, final, trace), w') ->
        forall (i : nat) (st : state),
          reasoning_steps trace !! S i = Some st ->
          model_input system_prompt st = st).
Proof.
  intros H.
  specialize (H unit Examples.llm_one_search Examples.tool_stub
                "SYSTEM" "pizza?" tt tt _ _ _ one_search_session 0%nat _ eq_refl).
  discriminate H.
Qed.

Lemma system_instruction_at_example :
  Forall (fun st => model_input "SYSTEM" st = SystemMessage "SYSTEM" :: st
                    /\ existsb is_system st = false)
         (reasoning_steps
            [(agent, [HumanMessage "pizza?"]);
             (tools, [HumanMessage "pizza?"; AIMessage "" [Examples.search_call]]);
             (agent, [HumanMessage "pizza?"; AIMessage "" [Examples.search_call];
                      ToolMessage "[]" "call_1"])]).
Proof.
  apply (system_instruction_leads_every_model_call
           unit Examples.llm_one_search Examples.tool_stub "SYSTEM"
           "pizza?" tt tt "Try Trattoria."
           [HumanMessage "pizza?";
            AIMessage "" [Examples.search_call];
            ToolMessage "[]" "call_1";
            AIMessage "Try Trattoria." []]).
  vm_compute. reflexivity.
Defined.

End AgentFacts.

Module ProcessFacts.
Import MultimodalRetriever Tools Agent FoodFinder ToolFacts.

Section WithServices.
Variable text_embed : string -> result Faiss.vec.
Variable image_embed : string -> result Faiss.vec.
Variable json_dumps : list dict -> result string.
Variable str_exn : exn -> string.
Variable format_exc : exn -> string.
Variable image : Type.
Variable open_image : string -> result image.
Variable clip_probs : image -> list string -> result (list Q).
Variable fmt_1f : Q -> string.
Variable pretty_nat : nat -> string.
Variable invalid_call : tool_call -> string.

Lemma zoom_result {S T A} (proj : S -> T) (upd : T -> S -> S) (c : py T A)
    (s : S) :
  (zoom proj upd c s).1 = (c (proj s)).1.
Proof. unfold zoom. by destruct (c (proj s)). Qed.

(** Every tool call the tool node makes yields an observation. *)
Lemma call_tool_returns (c : tool_call) (p : process) :
  exists out,
    (call_tool text_embed image_embed json_dumps str_exn format_exc
               image open_image clip_probs fmt_1f pretty_nat invalid_call
               c p).1 = Ok out.
Proof.
  unfold call_tool.
  destruct (call_args c) as [query k | image_path k | image_path question];
    destruct (String.eqb _ _); try (by eexists).
  - unfold on_text_tool. rewrite zoom_result. apply try_except_returns.
  - unfold on_image_tool. rewrite zoom_result. apply try_except_returns.
  - apply try_except_returns.
Qed.

End WithServices.
End ProcessFacts.

(** ** Exact search, training and loading *)

Module IndexExtras.
Import Faiss FaissFacts FAISSIndex FAISSIndexFacts.





Section WithClustering.
Variable kmeans : list vec -> list vec.

(** Property X2.  The first [add] to a partitioned (IVF) index trains
    it, and training needs at least [nlist = 100] rows: with fewer valid rows
    [add] raises [RuntimeError] and leaves a backend without vectors and the
    records unchanged; with 100 rows or more it stores the rows and their
    records. *)
Theorem ivf_first_add_needs_nlist_rows
    (self : t) (embeddings : Np.ndarray) (md : list nat) :
  index self = None -> index_type self = "IVF" ->
  ~ invalid_input self embeddings md ->
  let out := add kmeans embeddings md self in
  if (length md <? nlist)%nat
  then out.1 = Raise RuntimeError
       /\ vectors out.2 = [] /\ metadata out.2 = metadata self
  else out.1 = Ok tt
       /\ vectors out.2 = Np.rows embeddings
       /\ metadata out.2 = metadata self ++ md.
Proof.
  intros Hnone Hty Hvalid out. subst out. rewrite add_unfold.
  unfold backend. rewrite Hnone, Hty. cbn [String.eqb Ascii.eqb Bool.eqb].
  simpl String.eqb.
  pose proof (invalid_input_spec self embeddings md) as Hinv.
  destruct (negb (Np.ndim embeddings =? 2)%nat || _ || _) eqn:Hbad.
  { exfalso. by apply Hvalid, Hinv. }
  assert (length (Np.rows embeddings) = length md) as Hrows.
  { unfold invalid_input in Hvalid. apply length_rows.
    - destruct (decide (Np.ndim embeddings = 2%nat)); tauto.
    - destruct (decide (Np.shape embeddings !! 0%nat = Some (length md))); tauto. }
  assert (Np.width embeddings = dimension self) as Hwd.
  { unfold invalid_input in Hvalid. unfold Np.width.
    destruct (decide (Np.shape embeddings !! 1%nat = Some (dimension self)))
      as [-> | ?]; [done | tauto]. }
  cbn [new_ivf is_trained]. unfold train. cbn [ikind is_trained].
  rewrite Hrows.
  destruct (length md <? nlist)%nat; cbn [fst snd]; [done|].
  unfold Faiss.add. cbn [d is_trained fst snd negb].
  rewrite Hwd, Nat.eqb_refl. cbn [negb fst snd xb app]. done.
Qed.

End WithClustering.

(** Property X3.  [load] replaces the backend before it opens the
    metadata file: when that file is missing it raises [FileNotFoundError]
    and leaves the new vectors with the old records. *)
Theorem load_without_metadata_file_keeps_old_metadata
    (fs : Fs.t) (index_path metadata_path : string) (h : list dict)
    (self : t) (ix : Faiss.index) :
  fs !! index_path = Some (Fs.FaissFile ix) ->
  fs !! metadata_path = None ->
  FAISSIndexIO.load fs index_path metadata_path (h, self)
  = (Raise FileNotFoundError,
     (h, mk (dimension self) (index_type self) (Some ix) (metadata self))).
Proof.
  intros Hi Hm. unfold FAISSIndexIO.load, Fs.read_index, Fs.pickle_load.
  py_unfold. by rewrite Hi, Hm.
Qed.

(** *** The statements above at concrete inputs *)


(** A query beyond the range of the distances: nothing is found, and the
    result is the last record at distance [FLT_MAX]. *)
Example search_far_from_every_entry :
  search [100000000000000000000] 1 Examples.one_entry
  = (Ok ([FLT_MAX], [7%nat]), Examples.one_entry).
Proof. vm_compute. reflexivity. Qed.

Lemma first_ivf_add_of_one_row :
  let out := add Examples.kmeans (Np.of_rows 1 [[0]]) [7%nat]
                 (__init__ 1 "IVF") in
  out.1 = Raise RuntimeError
  /\ vectors out.2 = [] /\ metadata out.2 = [].
Proof.
  apply (ivf_first_add_needs_nlist_rows
           Examples.kmeans (__init__ 1 "IVF") (Np.of_rows 1 [[0]]) [7%nat]).
  - reflexivity.
  - reflexivity.
  - unfold invalid_input. simpl. intros [H | [H | H]]; by apply H.
Defined.

Lemma load_of_index_file_alone :
  FAISSIndexIO.load Fixtures.fs_index_only "indexes/text_index.faiss"
                    "indexes/text_metadata.pkl" ([], Examples.one_entry)
  = (Raise FileNotFoundError,
     ([], mk 1 "Flat" (Some (Examples.flat1 [[0]; [5]])) [7%nat])).
Proof.
  apply (load_without_metadata_file_keeps_old_metadata
           Fixtures.fs_index_only "indexes/text_index.faiss"
           "indexes/text_metadata.pkl" [] Examples.one_entry
           (Examples.flat1 [[0]; [5]])).
  - vm_compute. reflexivity.
  - vm_compute. reflexivity.
Defined.

End IndexExtras.

(** ** Saving and loading *)

Module PersistFacts.
Import Faiss FaissFacts FAISSIndexFacts Persist FAISSIndex.

Lemma list_getitem_fmap {A B} (f : A -> B) (l : list A) (i : Z) :
  list_getitem (f <$> l) i
  = match list_getitem l i with Ok a => Ok (f a) | Raise e => Raise e end.
Proof.
  unfold list_getitem. rewrite length_fmap, list_lookup_fmap.
  destruct (_ && _); [|done]. by destruct (l !! _).
Qed.

(** Two lists of references that denote the same records give, for the
    same labels, the same error or results that denote the same records. *)
Lemma gather_same_records {B} (f1 f2 : nat -> B) (md1 md2 : list nat)
    (idxs : list Z) :
  f1 <$> md1 = f2 <$> md2 ->
  match gather md1 idxs, gather md2 idxs with
  | Ok r1, Ok r2 => f1 <$> r1 = f2 <$> r2
  | Raise e1, Raise e2 => e1 = e2
  | _, _ => False
  end.
Proof.
  intros Heq.
  assert (length md1 = length md2) as Hlen.
  { apply (f_equal length) in Heq. by rewrite !length_fmap in Heq. }
  induction idxs as [|i idxs IH]; cbn [gather]; [done|].
  rewrite Hlen.
  destruct (i <? Z.of_nat (length md2)); [|exact IH].
  pose proof (list_getitem_fmap f1 md1 i) as H1.
  pose proof (list_getitem_fmap f2 md2 i) as H2.
  rewrite Heq, H2 in H1.
  destruct (list_getitem md1 i) as [m1|e1], (list_getitem md2 i) as [m2|e2];
    try done; [|by injection H1 as ->].
  injection H1 as H1.
  destruct (gather md1 idxs) as [r1|], (gather md2 idxs) as [r2|]; try done.
  rewrite !fmap_cons. by rewrite IH, H1.
Qed.

Section Save.
Variable write_none : string -> Fs.t -> result unit * Fs.t.

Lemma save_ok (index_path metadata_path : string) (e : env) (ix : Faiss.index) :
  index (env_self e) = Some ix ->
  save write_none index_path metadata_path e
  = (Ok tt,
     mk_env (env_objects e)
            (<[metadata_path :=
                 Fs.PickleFile (MultimodalRetriever.stored_records (env_objects e) (env_self e))]>
               (<[index_path := Fs.FaissFile ix]> (env_files e)))
            (env_self e)).
Proof.
  intros Hix. unfold save, on_files, write_index, pickle_dump. py_unfold.
  by rewrite Hix.
Qed.

Lemma stored_records_fresh (h : list dict) (records : list dict) (self : t) :
  MultimodalRetriever.stored_records (h ++ records)
                 (set_metadata (seq (length h) (length records)) self)
  = records.
Proof.
  unfold MultimodalRetriever.stored_records. cbn [metadata set_metadata].
  apply list_eq. intros i. rewrite list_lookup_fmap.
  destruct (decide (i < length records)%nat) as [Hi|Hi].
  - rewrite lookup_seq_lt by done. simpl.
    rewrite lookup_app_r by lia.
    replace (length h + i - length h)%nat with i by lia.
    destruct (lookup_lt_is_Some_2 records i Hi) as [r ->]. done.
  - rewrite lookup_seq_ge by lia. simpl.
    symmetry. apply lookup_ge_None. lia.
Qed.

Lemma join_ne (dir a b : string) : a <> b -> Fs.join dir a <> Fs.join dir b.
Proof.
  intros Hne Heq. apply Hne. unfold Fs.join in Heq.
  induction dir as [|c dir IH]; simpl in Heq.
  - by injection Heq.
  - injection Heq as Heq. by apply IH.
Qed.

(** Property X4.  [save] followed by [load] into a fresh index, for
    two different file names of one directory, is a round trip on a file
    system that accepts the two writes: both succeed, the loaded index holds
    the same vectors and records of the same contents, and every search
    gives the same distances and records of the same contents, or the same
    error. *)
Theorem save_then_load_round_trip
    (dir index_name metadata_name : string) (e : env) (ix : Faiss.index)
    (h : list dict) :
  index (env_self e) = Some ix ->
  Fs.file_name index_name = true ->
  Fs.file_name metadata_name = true ->
  index_name <> metadata_name ->
  let index_path := Fs.join dir index_name in
  let metadata_path := Fs.join dir metadata_name in
  let saved := save write_none index_path metadata_path e in
  let loaded := FAISSIndexIO.load (env_files saved.2) index_path metadata_path
                  (h, __init__ (dimension (env_self e))
                               (index_type (env_self e))) in
  saved.1 = Ok tt
  /\ loaded.1 = Ok tt
  /\ vectors loaded.2.2 = vectors (env_self e)
  /\ MultimodalRetriever.stored_records loaded.2.1 loaded.2.2
     = MultimodalRetriever.stored_records (env_objects e) (env_self e)
  /\ forall (q : vec) (k : Z),
       match (search q k (env_self e)).1, (search q k loaded.2.2).1 with
       | Ok r1, Ok r2 =>
           r1.1 = r2.1
           /\ (fun l => default ∅ (env_objects e !! l)) <$> r1.2
              = (fun l => default ∅ (loaded.2.1 !! l)) <$> r2.2
       | Raise e1, Raise e2 => e1 = e2
       | _, _ => False
       end.
Proof.
  intros Hix _ _ Hnames index_path metadata_path saved loaded.
  assert (index_path <> metadata_path) as Hne by by apply join_ne.
  subst saved loaded.
  rewrite (save_ok _ _ e ix Hix). cbn [fst snd env_files].
  rewrite (RetrieverFacts.load_ok _ index_path metadata_path h _ ix
             (MultimodalRetriever.stored_records (env_objects e) (env_self e))).
  2:{ rewrite lookup_insert_ne by done. apply lookup_insert_eq. }
  2:{ apply lookup_insert_eq. }
  cbn [fst snd dimension index_type __init__].
  set (records := MultimodalRetriever.stored_records (env_objects e) (env_self e)).
  set (self' := mk _ _ (Some ix) _).
  assert (MultimodalRetriever.stored_records (h ++ records) self' = records) as Hrec.
  { apply (stored_records_fresh h records
             (__init__ (dimension (env_self e)) (index_type (env_self e)))). }
  split; [done|]. split; [done|]. split.
  { unfold vectors. by rewrite Hix. }
  split; [exact Hrec|].
  intros q k. rewrite !search_unfold, Hix. cbn [fst index].
  subst self'. cbn [index].
  destruct (Faiss.search q k ix) as [r|err]; [|done].
  pose proof (gather_same_records
                (fun l => default ∅ (env_objects e !! l))
                (fun l => default ∅ ((h ++ records) !! l))
                (metadata (env_self e))
                (seq (length h) (length records)) r.2) as Hg.
  cbn [metadata].
  destruct (gather (metadata (env_self e)) r.2),
           (gather (seq (length h) (length records)) r.2); try (by apply Hg).
  split; [done|]. apply Hg. exact (eq_sym Hrec).
Qed.

(** Property X5.  [save_indices] followed by [load_indices] in a
    fresh retriever over the same directory restores the vectors and the
    record contents of both indexes; saving leaves the retriever as it is. *)
Theorem save_indices_then_load_indices
    (w : MultimodalRetriever.world) (tix iix : Faiss.index) :
  let r := MultimodalRetriever.self_ w in
  index (MultimodalRetriever.text_index r) = Some tix ->
  index (MultimodalRetriever.image_index r) = Some iix ->
  let saved := save_indices write_none w in
  let fresh := MultimodalRetriever.mk_world
                 (MultimodalRetriever.objects saved.2)
                 (MultimodalRetriever.files saved.2)
                 (MultimodalRetriever.__init__ (MultimodalRetriever.index_dir r))
                 (MultimodalRetriever.load_calls saved.2) in
  let loaded := MultimodalRetriever.load_indices fresh in
  let r' := MultimodalRetriever.self_ loaded.2 in
  let h := MultimodalRetriever.objects w in
  let h' := MultimodalRetriever.objects loaded.2 in
  saved.1 = Ok tt
  /\ MultimodalRetriever.self_ saved.2 = r
  /\ loaded.1 = Ok tt
  /\ vectors (MultimodalRetriever.text_index r')
     = vectors (MultimodalRetriever.text_index r)
  /\ vectors (MultimodalRetriever.image_index r')
     = vectors (MultimodalRetriever.image_index r)
  /\ MultimodalRetriever.stored_records h' (MultimodalRetriever.text_index r')
     = MultimodalRetriever.stored_records h (MultimodalRetriever.text_index r)
  /\ MultimodalRetriever.stored_records h' (MultimodalRetriever.image_index r')
     = MultimodalRetriever.stored_records h (MultimodalRetriever.image_index r).
Proof.
  intros r Ht Hi saved fresh loaded r' h h'.
  subst saved fresh loaded r' h h'.
  unfold save_indices. fold r.
  rewrite (save_ok _ _ _ tix) by exact Ht. cbn [env_files env_objects env_self].
  rewrite (save_ok _ _ _ iix) by exact Hi. cbn [env_files env_objects env_self fst snd].
  cbn [MultimodalRetriever.objects MultimodalRetriever.files
       MultimodalRetriever.self_ MultimodalRetriever.load_calls].
  set (dir := MultimodalRetriever.index_dir r).
  set (trec := MultimodalRetriever.stored_records (MultimodalRetriever.objects w)
                 (MultimodalRetriever.text_index r)).
  set (irec := MultimodalRetriever.stored_records (MultimodalRetriever.objects w)
                 (MultimodalRetriever.image_index r)).
  set (fs' := <[Fs.join dir "image_metadata.pkl" := _]> _).
  assert (fs' !! Fs.join dir "text_index.faiss" = Some (Fs.FaissFile tix)) as Hf1.
  { subst fs'. rewrite !lookup_insert_ne by (apply join_ne; done).
    apply lookup_insert_eq. }
  assert (fs' !! Fs.join dir "text_metadata.pkl" = Some (Fs.PickleFile trec)) as Hf2.
  { subst fs'. rewrite !lookup_insert_ne by (apply join_ne; done).
    apply lookup_insert_eq. }
  assert (fs' !! Fs.join dir "image_index.faiss" = Some (Fs.FaissFile iix)) as Hf3.
  { subst fs'. rewrite !lookup_insert_ne by (apply join_ne; done).
    apply lookup_insert_eq. }
  assert (fs' !! Fs.join dir "image_metadata.pkl" = Some (Fs.PickleFile irec)) as Hf4.
  { subst fs'. apply lookup_insert_eq. }
  unfold MultimodalRetriever.load_indices. py_unfold.
  cbn [MultimodalRetriever.tick_load MultimodalRetriever.self_
       MultimodalRetriever.files MultimodalRetriever.index_dir
       MultimodalRetriever.__init__ MultimodalRetriever.objects
       MultimodalRetriever.load_calls].
  fold dir.
  rewrite (RetrieverFacts.exists_Some _ _ _ Hf1),
          (RetrieverFacts.exists_Some _ _ _ Hf3). cbn [negb].
  unfold MultimodalRetriever.load_text_index, MultimodalRetriever.load_image_index.
  cbn [MultimodalRetriever.files MultimodalRetriever.objects
       MultimodalRetriever.self_ MultimodalRetriever.text_index].
  rewrite (RetrieverFacts.load_ok _ _ _ _ _ tix trec Hf1 Hf2).
  cbn [MultimodalRetriever.set_objects MultimodalRetriever.set_self
       MultimodalRetriever.set_text_index MultimodalRetriever.files
       MultimodalRetriever.objects MultimodalRetriever.self_
       MultimodalRetriever.image_index MultimodalRetriever.text_index
       MultimodalRetriever.index_dir MultimodalRetriever.load_calls].
  rewrite (RetrieverFacts.load_ok _ _ _ _ _ iix irec Hf3 Hf4).
  cbn [fst snd MultimodalRetriever.set_objects MultimodalRetriever.set_self
       MultimodalRetriever.set_image_index MultimodalRetriever.files
       MultimodalRetriever.objects MultimodalRetriever.self_
       MultimodalRetriever.image_index MultimodalRetriever.text_index
       MultimodalRetriever.index_dir MultimodalRetriever.load_calls].
  repeat split.
  - unfold vectors. by rewrite Ht.
  - unfold vectors. by rewrite Hi.
  - unfold MultimodalRetriever.stored_records at 1. cbn [metadata].
    rewrite <- (stored_records_fresh (MultimodalRetriever.objects w) trec
                  (__init__ 768 "Flat")) at 2.
    unfold MultimodalRetriever.stored_records. cbn [metadata set_metadata].
    apply list_fmap_ext. intros j l Hl.
    apply lookup_seq in Hl as [-> Hlt]. simpl.
    by rewrite (lookup_app_l (_ ++ trec)) by (rewrite length_app; lia).
  - apply (stored_records_fresh (MultimodalRetriever.objects w ++ trec) irec
             (__init__ 512 "Flat")).
Qed.

End Save.
(** *** The statements above at concrete inputs *)

Lemma round_trip_of_one_record :
  let e := Fixtures.saving_env in
  let index_path := Fs.join "indexes" "image_index.faiss" in
  let metadata_path := Fs.join "indexes" "image_metadata.pkl" in
  let saved := save Fixtures.write_none index_path metadata_path e in
  let loaded := FAISSIndexIO.load (env_files saved.2)
                  index_path metadata_path
                  ([], __init__ (dimension (env_self e))
                                (index_type (env_self e))) in
  saved.1 = Ok tt
  /\ loaded.1 = Ok tt
  /\ vectors loaded.2.2 = vectors (env_self e)
  /\ MultimodalRetriever.stored_records loaded.2.1 loaded.2.2
     = MultimodalRetriever.stored_records (env_objects e) (env_self e)
  /\ forall (q : vec) (k : Z),
       match (search q k (env_self e)).1, (search q k loaded.2.2).1 with
       | Ok r1, Ok r2 =>
           r1.1 = r2.1
           /\ (fun l => default ∅ (env_objects e !! l)) <$> r1.2
              = (fun l => default ∅ (loaded.2.1 !! l)) <$> r2.2
       | Raise e1, Raise e2 => e1 = e2
       | _, _ => False
       end.
Proof.
  apply (save_then_load_round_trip
           Fixtures.write_none "indexes" "image_index.faiss"
           "image_metadata.pkl" Fixtures.saving_env
           (Examples.flat1 [[3]]) []).
  - reflexivity.
  - reflexivity.
  - reflexivity.
  - discriminate.
Defined.

Lemma served_world_survives_saving :
  let w := Examples.served_world in
  let r := MultimodalRetriever.self_ w in
  let saved := save_indices Fixtures.write_none w in
  let fresh := MultimodalRetriever.mk_world
                 (MultimodalRetriever.objects saved.2)
                 (MultimodalRetriever.files saved.2)
                 (MultimodalRetriever.__init__ (MultimodalRetriever.index_dir r))
                 (MultimodalRetriever.load_calls saved.2) in
  let loaded := MultimodalRetriever.load_indices fresh in
  let r' := MultimodalRetriever.self_ loaded.2 in
  let h := MultimodalRetriever.objects w in
  let h' := MultimodalRetriever.objects loaded.2 in
  saved.1 = Ok tt
  /\ MultimodalRetriever.self_ saved.2 = r
  /\ loaded.1 = Ok tt
  /\ vectors (MultimodalRetriever.text_index r')
     = vectors (MultimodalRetriever.text_index r)
  /\ vectors (MultimodalRetriever.image_index r')
     = vectors (MultimodalRetriever.image_index r)
  /\ MultimodalRetriever.stored_records h' (MultimodalRetriever.text_index r')
     = MultimodalRetriever.stored_records h (MultimodalRetriever.text_index r)
  /\ MultimodalRetriever.stored_records h' (MultimodalRetriever.image_index r')
     = MultimodalRetriever.stored_records h (MultimodalRetriever.image_index r).
Proof.
  apply (save_indices_then_load_indices
           Fixtures.write_none Examples.served_world
           (Examples.flat1 [[0]; [5]]) (Examples.flat1 [[3]])).
  - vm_compute. reflexivity.
  - vm_compute. reflexivity.
Defined.

End PersistFacts.

(** ** The retriever: loading and image search *)

Module RetrieverExtras.
Import Faiss FaissFacts FAISSIndexFacts RetrieverFacts MultimodalRetriever.


(** Property X6.  When the image index file exists but its metadata
    file does not, [load_indices] raises [FileNotFoundError] after it has
    loaded the text index, and leaves the image index with the new backend
    and its old records. *)
Theorem image_index_without_metadata_is_fatal
    (w : world) (tix iix : Faiss.index) (records : list dict) :
  let dir := index_dir (self_ w) in
  files w !! Fs.join dir "text_index.faiss" = Some (Fs.FaissFile tix) ->
  files w !! Fs.join dir "text_metadata.pkl" = Some (Fs.PickleFile records) ->
  files w !! Fs.join dir "image_index.faiss" = Some (Fs.FaissFile iix) ->
  files w !! Fs.join dir "image_metadata.pkl" = None ->
  let out := load_indices w in
  out.1 = Raise FileNotFoundError
  /\ FAISSIndex.index (text_index (self_ out.2)) = Some tix
  /\ stored_records (objects out.2) (text_index (self_ out.2)) = records
  /\ FAISSIndex.index (image_index (self_ out.2)) = Some iix
  /\ FAISSIndex.metadata (image_index (self_ out.2))
     = FAISSIndex.metadata (image_index (self_ w)).
Proof.
  intros dir Hti Htm Hii Him out. subst out.
  unfold load_indices. py_unfold.
  cbn [tick_load self_ files index_dir]. fold dir.
  rewrite (exists_Some _ _ _ Hti), (exists_Some _ _ _ Hii). cbn [negb].
  unfold load_text_index, load_image_index. cbn [files objects self_].
  rewrite (load_ok _ _ _ _ _ tix records Hti Htm).
  cbn [set_objects set_self set_text_index files objects self_ image_index
       text_index index_dir load_calls].
  unfold FAISSIndexIO.load, Fs.read_index, Fs.pickle_load. py_unfold.
  unfold tick_load. cbn [files objects self_ load_calls].
  rewrite Hii, Him. cbn [fst snd set_objects set_self set_image_index self_
                         objects text_index image_index].
  repeat split.
  apply (PersistFacts.stored_records_fresh (objects w) records
           (FAISSIndex.__init__ 0 "")).
Qed.

Lemma annotate_lookup (l l' : nat) (dist : Z) (h : list dict) :
  annotate l dist h !! l'
  = if decide (l = l')
    then (fun r => <["similarity" := VFloat (similarity dist)]>
                     (<["distance" := VFloat (inject_Z dist)]> r)) <$> h !! l'
    else h !! l'.
Proof.
  unfold annotate. destruct (decide (l = l')) as [->|Hne].
  - apply list_lookup_alter_eq.
  - by apply list_lookup_alter_ne.
Qed.

(** What the annotation loop does to the object store. *)
Lemma annotate_all (h : list dict) (pairs : list (nat * Z)) (l : nat) (r0 : dict) :
  h !! l = Some r0 ->
  exists r,
    foldl (fun h p => annotate p.1 p.2 h) h pairs !! l = Some r
    /\ (forall key, key <> "distance" -> key <> "similarity" ->
                    r !! key = r0 !! key)
    /\ (l ∈ fst <$> pairs ->
        exists dist, r !! "distance" = Some (VFloat (inject_Z dist))
                     /\ r !! "similarity" = Some (VFloat (similarity dist)))
    /\ (l ∉ fst <$> pairs -> r = r0).
Proof.
  intros Hl. induction pairs as [|[l1 d1] pairs IH] using rev_ind.
  - exists r0. repeat split; try done. intros Hin. by apply elem_of_nil in Hin.
  - destruct IH as (r & Hr & Hkeep & Hin & Hout).
    rewrite foldl_app. cbn [foldl fst snd]. rewrite annotate_lookup, Hr.
    rewrite fmap_app. cbn [fmap list_fmap fst].
    destruct (decide (l1 = l)) as [->|Hne]; cbn [fmap option_fmap option_map].
    + eexists. split; [done|]. split; [|split].
      * intros key H1 H2. rewrite !lookup_insert_ne by done. by apply Hkeep.
      * intros _. exists d1. split.
        -- rewrite lookup_insert_ne by done. apply lookup_insert_eq.
        -- apply lookup_insert_eq.
      * intros Hnot. exfalso. apply Hnot. apply elem_of_app. right. by left.
    + exists r. split; [done|]. split; [done|]. split.
      * intros Hin'. apply Hin. apply elem_of_app in Hin' as [?|Hin']; [done|].
        apply list_elem_of_singleton in Hin'. congruence.
      * intros Hnot. apply Hout. intros ?. apply Hnot. apply elem_of_app. by left.
Qed.

Section WithEmbedders.
Variable image_embed : string -> result vec.

(** Property X8.  A successful [search_image] keeps every record of
    the object store in place; it changes only the keys [distance] and
    [similarity], and only in the records it returns, each of which gets a
    distance and the similarity of that distance. *)
Theorem search_image_annotates_what_it_returns
    (image_path : string) (k : Z) (w w' : world) (results : list nat) :
  search_image image_embed image_path k w = (Ok results, w') ->
  forall (l : nat) (r0 : dict),
    objects w !! l = Some r0 ->
    exists r,
      objects w' !! l = Some r
      /\ (forall key, key <> "distance" -> key <> "similarity" ->
                      r !! key = r0 !! key)
      /\ (l ∈ results ->
          exists dist, r !! "distance" = Some (VFloat (inject_Z dist))
                       /\ r !! "similarity" = Some (VFloat (similarity dist)))
      /\ (l ∉ results -> r = r0).
Proof.
  rewrite search_image_unfold.
  destruct (image_embed image_path) as [v|]; [|done].
  rewrite search_unfold. cbn [fst].
  destruct (FAISSIndex.index (image_index (self_ w))) as [ix|]; [|done].
  destruct (Faiss.search v k ix) as [r|] eqn:Hs; [|done].
  destruct (FAISSIndex.gather _ r.2) as [res|] eqn:Hg; [|done].
  cbn [fst snd]. intros [= <- <-] l r0 Hl. cbn [objects set_objects].
  assert (fst <$> zip res r.1 = res) as Hfst.
  { apply fst_zip. apply gather_length_le in Hg.
    apply faiss_search_length in Hs as (_ & H1 & H2). lia. }
  destruct (annotate_all (objects w) (zip res r.1) l r0 Hl) as (rr & ? & ? & ? & ?).
  rewrite Hfst in *. eauto 10.
Qed.

End WithEmbedders.

(** *** The statements above at concrete inputs *)


Lemma load_with_image_metadata_missing :
  let w := Examples.fresh_world Fixtures.fs_image_metadata_missing in
  let out := load_indices w in
  out.1 = Raise FileNotFoundError
  /\ FAISSIndex.index (text_index (self_ out.2))
     = Some (Examples.flat1 [[0]; [5]])
  /\ stored_records (objects out.2) (text_index (self_ out.2))
     = Examples.text_records
  /\ FAISSIndex.index (image_index (self_ out.2))
     = Some (Examples.flat1 [[3]])
  /\ FAISSIndex.metadata (image_index (self_ out.2))
     = FAISSIndex.metadata (image_index (self_ w)).
Proof.
  apply (image_index_without_metadata_is_fatal
           (Examples.fresh_world Fixtures.fs_image_metadata_missing)
           (Examples.flat1 [[0]; [5]]) (Examples.flat1 [[3]])
           Examples.text_records).
  - vm_compute. reflexivity.
  - vm_compute. reflexivity.
  - vm_compute. reflexivity.
  - vm_compute. reflexivity.
Defined.

Lemma image_search_in_served_world :
  let w := Examples.served_world in
  let w' := (search_image Examples.embed_one "query.jpg" 1 w).2 in
  let r0 : dict := {["name" := VStr "Trattoria"]} in
  exists r,
    objects w' !! 2%nat = Some r
    /\ (forall key, key <> "distance" -> key <> "similarity" ->
                    r !! key = r0 !! key)
    /\ (2%nat ∈ [2%nat] ->
        exists dist, r !! "distance" = Some (VFloat (inject_Z dist))
                     /\ r !! "similarity" = Some (VFloat (similarity dist)))
    /\ (2%nat ∉ [2%nat] -> r = r0).
Proof.
  apply (search_image_annotates_what_it_returns
           Examples.embed_one "query.jpg" 1 Examples.served_world
           (search_image Examples.embed_one "query.jpg" 1
                         Examples.served_world).2
           [2%nat]).
  - vm_compute. reflexivity.
  - vm_compute. reflexivity.
Defined.

End RetrieverExtras.

(** ** The image question-answering tool *)

Module ImageQAFacts.
Import FAISSIndexFacts Tools.

Lemma candidates_at_least_ten (question : string) :
  (10 <= length (_generate_answer_candidates question))%nat.
Proof.
  unfold _generate_answer_candidates.
  repeat (destruct (any_in _ _); [simpl; lia|]). simpl. lia.
Qed.

Global Instance by_prob_trans : Transitive by_prob.
Proof.
  unfold by_prob. intros a b c Hab Hbc.
  apply Qle_bool_iff in Hab, Hbc. apply Qle_bool_iff. by eapply Qle_trans.
Qed.
Global Instance by_prob_total : Total by_prob.
Proof.
  unfold by_prob. intros a b.
  destruct (Qlt_le_dec a.1 b.1) as [H|H].
  - right. apply Qle_bool_iff. by apply Qlt_le_weak.
  - left. by apply Qle_bool_iff.
Qed.

Lemma topk_spec (probs : list Q) (n : nat) :
  (0 < n <= length probs)%nat ->
  exists best rest,
    topk probs n = Ok (best :: rest)
    /\ length (best :: rest) = n
    /\ Forall (fun p => (p.2 < length probs)%nat) (best :: rest)
    /\ probs !! best.2 = Some best.1
    /\ Forall (fun p => (p <= best.1)%Q) probs.
Proof.
  intros Hn. unfold topk.
  destruct (length probs <? n)%nat eqn:Hlt; [apply Nat.ltb_lt in Hlt; lia|].
  set (r := zip probs (seq 0 (length probs))).
  pose proof (merge_sort_Permutation by_prob r) as Hperm.
  pose proof (StronglySorted_merge_sort by_prob r) as Hsort.
  assert (forall p i, (p, i) ∈ r <-> probs !! i = Some p) as Hmem.
  { intros p i. subst r. rewrite list_elem_of_lookup. split.
    - intros [j Hj]. apply lookup_zip_with_Some in Hj as (a & b & [= -> ->] & Ha & Hb).
      apply lookup_seq in Hb as [-> _]. done.
    - intros Hp. exists i. apply lookup_zip_with_Some. exists p, i.
      split; [done|]. split; [done|]. apply lookup_seq. split; [done|].
      by eapply lookup_lt_Some. }
  assert (length (merge_sort by_prob r) = length probs) as Hlen.
  { rewrite Hperm. subst r. rewrite length_zip_with, length_seq. lia. }
  destruct (merge_sort by_prob r) as [|best sorted] eqn:Hms.
  { simpl in Hlen. lia. }
  destruct n as [|n]; [lia|]. cbn [take].
  exists best, (take n sorted). split; [done|].
  assert (forall p, p ∈ best :: sorted -> probs !! p.2 = Some p.1) as Hall.
  { intros [p i] Hin. rewrite Hperm in Hin. by apply Hmem. }
  split; [|split; [|split]].
  - simpl. rewrite length_take. simpl in Hlen. lia.
  - apply Forall_forall. intros p Hin. eapply lookup_lt_Some, Hall.
    apply elem_of_cons in Hin as [->|Hin]; [by left|].
    right. rewrite <- (take_drop n sorted). apply elem_of_app. by left.
  - apply Hall. by left.
  - apply Forall_forall. intros p Hp.
    apply list_elem_of_lookup in Hp as [i Hi].
    assert ((p, i) ∈ best :: sorted) as Hin by (rewrite Hperm; by apply Hmem).
    apply StronglySorted_cons in Hsort as [Hhd _].
    apply elem_of_cons in Hin as [<-|Hin]; [apply Qle_refl|].
    rewrite Forall_forall in Hhd. specialize (Hhd _ Hin).
    unfold by_prob in Hhd. by apply Qle_bool_iff in Hhd.
Qed.

Section WithServices.
Variable image : Type.
Variable open_image : string -> result image.
Variable clip_probs : image -> list string -> result (list Q).
Variable fmt_1f : Q -> string.
Variable pretty_nat : nat -> string.
Variable str_exn : exn -> string.
Variable format_exc : exn -> string.

Lemma answer_lines_ok (candidates : list string) (i : nat) (top : list (Q * nat)) :
  Forall (fun p => (p.2 < length candidates)%nat) top ->
  exists lines, answer_lines fmt_1f pretty_nat candidates i top = Ok lines.
Proof.
  intros Htop. revert i.
  induction Htop as [|[p idx] top Hp _ IH]; intros i; cbn [answer_lines]; [eauto|].
  destruct (lookup_lt_is_Some_2 candidates idx Hp) as [a Ha].
  rewrite (list_getitem_nat candidates idx a Ha).
  destruct (IH (S i)) as [more ->]. eauto.
Qed.

(** Property X9.  Given an image that opens and one probability per
    candidate, [ImageQATool._run] succeeds: it lists three candidates led by
    one of highest probability, and ends with that answer when its
    confidence exceeds 50 percent and with the low-confidence note
    otherwise. *)
Theorem image_qa_reports_the_most_probable_candidate
    {S} (image_path question : string) (st : S) (img : image) (probs : list Q) :
  let candidates := _generate_answer_candidates question in
  open_image image_path = Ok img ->
  clip_probs img candidates = Ok probs ->
  length probs = length candidates ->
  exists (best : Q * nat) (rest : list (Q * nat)) (best_answer lines : string),
    length rest = 2%nat
    /\ probs !! best.2 = Some best.1
    /\ candidates !! best.2 = Some best_answer
    /\ Forall (fun p => (p <= best.1)%Q) probs
    /\ answer_lines fmt_1f pretty_nat candidates 1 (best :: rest) = Ok lines
    /\ image_qa_run image open_image clip_probs fmt_1f pretty_nat
                    str_exn format_exc image_path question st
       = (Ok (("Question: " +:+ question +:+ "

Answer based on image analysis:
" +:+ lines) +:+
              (if Qlt_le_dec 50 (best.1 * 100)%Q
               then "
Most likely: " +:+ best_answer
               else "
Note: Low confidence in all answers. The image may not clearly show the requested information.")),
          st).
Proof.
  intros candidates Himg Hprobs Hlen.
  pose proof (candidates_at_least_ten question) as Hten. fold candidates in Hten.
  destruct (topk_spec probs 3) as (best & rest & Htop & Hl & Hrange & Hbest & Hmax);
    [lia|].
  rewrite Hlen in Hrange.
  destruct (answer_lines_ok candidates 1 (best :: rest) Hrange) as [lines Hlines].
  assert (exists best_answer, candidates !! best.2 = Some best_answer) as [ba Hba].
  { apply lookup_lt_is_Some_2. by inversion Hrange. }
  exists best, rest, ba, lines.
  split; [simpl in Hl; lia|]. split; [done|]. split; [done|]. split; [done|].
  split; [done|].
  unfold image_qa_run, image_qa_attempt. py_unfold. rewrite Himg. fold candidates.
  rewrite Hprobs. replace (Nat.min 3 (length candidates)) with 3%nat by lia.
  rewrite Htop, Hlines.
  change (list_getitem (best :: rest) 0)
    with (list_getitem (best :: rest) (Z.of_nat 0%nat)).
  rewrite (list_getitem_nat (best :: rest) 0 best eq_refl).
  rewrite (list_getitem_nat candidates best.2 ba Hba).
  by destruct (Qlt_le_dec 50 (best.1 * 100)).
Qed.

End WithServices.

(** *** The statement above at a concrete input *)

Lemma answer_to_a_general_question :
  let candidates := _generate_answer_candidates "Is this food?" in
  let probs := (7 # 10)%Q :: replicate 9 (1 # 100)%Q in
  exists (best : Q * nat) (rest : list (Q * nat)) (best_answer lines : string),
    length rest = 2%nat
    /\ probs !! best.2 = Some best.1
    /\ candidates !! best.2 = Some best_answer
    /\ Forall (fun p => (p <= best.1)%Q) probs
    /\ answer_lines Fixtures.fmt_1f Fixtures.pretty_nat candidates 1
                    (best :: rest) = Ok lines
    /\ image_qa_run unit Fixtures.open_image Fixtures.clip_probs
                    Fixtures.fmt_1f Fixtures.pretty_nat
                    Fixtures.str_exn Fixtures.format_exc
                    "a.jpg" "Is this food?" tt
       = (Ok (("Question: " +:+ "Is this food?" +:+ "

Answer based on image analysis:
" +:+ lines) +:+
              (if Qlt_le_dec 50 (best.1 * 100)%Q
               then "
Most likely: " +:+ best_answer
               else "
Note: Low confidence in all answers. The image may not clearly show the requested information.")),
          tt).
Proof.
  apply (image_qa_reports_the_most_probable_candidate
           unit Fixtures.open_image Fixtures.clip_probs
           Fixtures.fmt_1f Fixtures.pretty_nat
           Fixtures.str_exn Fixtures.format_exc
           "a.jpg" "Is this food?" tt tt
           ((7 # 10)%Q :: replicate 9 (1 # 100)%Q)).
  - reflexivity.
  - reflexivity.
  - reflexivity.
Defined.

End ImageQAFacts.

(** ** Sessions of the agent loop *)

Module LoopFacts.
Import FAISSIndexFacts Agent AgentFacts Session.

Section WithServices.
Variable W : Type.
Variable llm : state -> result (string * list tool_call).
Variable call_tool : tool_call -> py W string.
Variable system_prompt : string.

Local Abbreviation graph := (build_graph W llm call_tool system_prompt).
Local Abbreviation model_input := (Agent.model_input system_prompt).

(** Where a step can lead, and what it does to the conversation. *)
Lemma step_cases (n n' : node) (st st' : state) (w w' : W) :
  step W graph n st w = (Ok (n', st'), w') ->
  st `prefix_of` st'
  /\ match n with
     | START => n' = agent /\ st' = st
     | agent => exists content calls,
                  st' = st ++ [AIMessage content calls]
                  /\ n' = (if bool_decide (calls = []) then END else tools)
     | tools => n' = agent
     | END => n' = END /\ st' = st
     end.
Proof.
  destruct n; unfold step, next_node; cbn [build_graph node_fn conditional_edge edge];
    py_unfold.
  - intros [= <- <- <-]. done.
  - unfold _call_model. py_unfold.
    destruct (llm _) as [[content calls]|]; [|done]. cbn [fst snd].
    rewrite should_continue_after_reply.
    intros [= <- <- <-]. split; [by apply prefix_app_r|].
    exists content, calls. split; [done|]. by destruct calls.
  - destruct (ToolNode W call_tool st w) as [[new|] w1]; [|done].
    intros [= <- <- <-]. split; [by apply prefix_app_r|done].
  - intros [= <- <- <-]. done.
Qed.

Lemma run_from_unfold (fuel : nat) (n : node) (st : state)
    (trace : list (node * state)) (w : W) :
  n <> END ->
  run_from W graph (S fuel) n st trace w
  = match step W graph n st w with
    | (Ok c, w1) =>
        run_from W graph fuel c.1 c.2
          (match node_fn W graph n with
           | Some _ => trace ++ [(n, st)]
           | None => trace
           end) w1
    | (Raise e, w1) => (Raise e, w1)
    end.
Proof. intros Hn. destruct n; try done. Qed.

(** An invariant of a run that ends: the final conversation extends the
    current one, the trace only grows by steps on prefixes of the final
    conversation, and the last message is a reply without tool calls. *)
Lemma run_from_ends (fuel : nat) (n : node) (st : state)
    (trace : list (node * state)) (w w' : W)
    (final : state) (trace' : list (node * state)) :
  run_from W graph fuel n st trace w = (Ok (final, trace'), w') ->
  st `prefix_of` final
  /\ (Forall (fun p => p.2 `prefix_of` st) trace ->
      Forall (fun p => p.2 `prefix_of` final) trace')
  /\ ((n = END -> exists content, last st = Some (AIMessage content [])) ->
      exists content, last final = Some (AIMessage content [])).
Proof.
  revert n st trace w. induction fuel as [|fuel IH]; intros n st trace w.
  - destruct n; cbn [run_from]; py_unfold; try done.
    intros [= <- <- <-]. split; [done|]. split; [done|]. auto.
  - destruct (decide (n = END)) as [->|Hn].
    { rewrite run_from_END. intros [= <- <- <-]. split; [done|]. split; [done|]. auto. }
    rewrite run_from_unfold by done.
    destruct (step W graph n st w) as [[[n1 st1]|] w1] eqn:Hstep; [|done].
    cbn [fst snd]. intros Hrun.
    apply step_cases in Hstep as [Hpre Hcase].
    apply IH in Hrun as (Hpre1 & Htr & Hlast).
    split; [by etransitivity|]. split.
    + intros Hall. apply Htr.
      assert (Forall (fun p : node * state => p.2 `prefix_of` st1) trace) as Hall1.
      { eapply Forall_impl; [exact Hall|]. intros p Hp. simpl in *. by etransitivity. }
      destruct (node_fn W graph n); [|done].
      apply Forall_app. split; [done|]. by constructor.
    + intros _. apply Hlast. intros ->.
      destruct n; try done.
      * by destruct Hcase.
      * destruct Hcase as (content & calls & -> & Hn1).
        destruct calls; [|done]. exists content. by rewrite last_snoc.
Qed.

(** Property X10.  The answer [run] returns is the content of the
    last message of the conversation, a reply of the model without tool
    calls; the conversation starts with the user's query, and every step ran
    on a prefix of the final conversation. *)
Theorem run_answer_is_the_final_reply
    (query : string) (w w' : W) (answer : string) (final : state)
    (trace : list (node * state)) :
  run W llm call_tool system_prompt query w = (Ok (answer, final, trace), w') ->
  last final = Some (AIMessage answer [])
  /\ [HumanMessage query] `prefix_of` final
  /\ Forall (fun p => p.2 `prefix_of` final) trace.
Proof.
  unfold run, invoke. py_unfold.
  destruct (run_from _ _ _ _ _ _ w) as [[[final' trace']|e] w1] eqn:Hrun; [|done].
  cbn [fst snd].
  apply run_from_ends in Hrun as (Hpre & Htr & Hlast).
  destruct Hlast as [content Hc]; [done|].
  rewrite list_getitem_minus_one, Hc.
  intros [= <- <- <- <-]. cbn [content_of]. auto.
Qed.


(** The nodes of a run that ends: Reasoning, then Acting and Reasoning in
    turns. *)
Lemma run_from_alternates (fuel : nat) (n : node) (st : state)
    (trace : list (node * state)) (w w' : W)
    (final : state) (trace' : list (node * state)) :
  run_from W graph fuel n st trace w = (Ok (final, trace'), w') ->
  exists m : nat,
    fst <$> trace'
    = (fst <$> trace)
      ++ match n with
         | START | agent => agent :: mjoin (replicate m [tools; agent])
         | tools => mjoin (replicate (S m) [tools; agent])
         | END => []
         end.
Proof.
  revert n st trace w. induction fuel as [|fuel IH]; intros n st trace w.
  - destruct n; cbn [run_from]; py_unfold; try done.
    intros [= _ <- _]. exists 0%nat. by rewrite app_nil_r.
  - destruct (decide (n = END)) as [->|Hn].
    { rewrite run_from_END. intros [= _ <- _]. exists 0%nat. by rewrite app_nil_r. }
    rewrite run_from_unfold by done.
    destruct (step W graph n st w) as [[[n1 st1]|] w1] eqn:Hstep; [|done].
    cbn [fst snd]. intros Hrun.
    apply step_cases in Hstep as [_ Hcase].
    apply IH in Hrun as [m Hm]. rewrite Hm. clear Hm.
    destruct n; try done; cbn [build_graph node_fn].
    + destruct Hcase as [-> _]. by exists m.
    + destruct Hcase as (content & calls & _ & ->).
      rewrite fmap_app. cbn [fmap list_fmap fst]. rewrite <- app_assoc.
      destruct (bool_decide (calls = [])).
      * exists 0%nat. done.
      * exists (S m). done.
    + subst n1. rewrite fmap_app. cbn [fmap list_fmap fst]. rewrite <- app_assoc.
      exists m. done.
Qed.

Lemma count_nodes (m : nat) :
  length (List.filter (fun n : node => bool_decide (n = agent))
            (agent :: mjoin (replicate m [tools; agent]))) = S m
  /\ length (List.filter (fun n : node => bool_decide (n = tools))
               (agent :: mjoin (replicate m [tools; agent]))) = m.
Proof.
  assert (forall n : node,
            length (List.filter (fun n' : node => bool_decide (n' = n))
                      (mjoin (replicate m [tools; agent])))
            = match n with agent | tools => m | _ => 0%nat end) as H.
  { intros n. induction m as [|m IH]; [by destruct n|].
    change (mjoin (replicate (S m) [tools; agent]))
      with (tools :: agent :: mjoin (replicate m [tools; agent])).
    destruct n; simpl in *; rewrite ?IH; done. }
  split.
  - pose proof (H agent) as Ha. simpl in *. by rewrite Ha.
  - pose proof (H tools) as Ht. simpl in *. by rewrite Ht.
Qed.

Lemma filter_fst_length (n : node) (trace : list (node * state)) :
  length (List.filter (fun p : node * state => bool_decide (p.1 = n)) trace)
  = length (List.filter (fun n' : node => bool_decide (n' = n)) (fst <$> trace)).
Proof.
  induction trace as [|[n' st] trace IH]; [done|].
  cbn [fmap list_fmap List.filter fst]. destruct (bool_decide (n' = n)); simpl; lia.
Qed.

(** Property X11.  In a session that ends, the steps are Reasoning,
    then Acting and Reasoning in turns: there is one more Reasoning step
    than Acting steps. *)
Theorem run_alternates_reasoning_and_acting
    (query : string) (w w' : W) (answer : string) (final : state)
    (trace : list (node * state)) :
  run W llm call_tool system_prompt query w = (Ok (answer, final, trace), w') ->
  exists m : nat,
    fst <$> trace = agent :: mjoin (replicate m [tools; agent])
    /\ length (reasoning_steps trace) = S m
    /\ length (acting_steps trace) = m.
Proof.
  unfold run, invoke. py_unfold.
  destruct (run_from _ _ _ _ _ _ w) as [[[final' trace']|e] w1] eqn:Hrun; [|done].
  cbn [fst snd]. destruct (list_getitem final' (-1)); [|done].
  intros [= _ _ <- _].
  apply run_from_alternates in Hrun as [m Hm]. cbn [fmap list_fmap app] in Hm.
  exists m. split; [done|].
  destruct (count_nodes m) as [H1 H2].
  unfold reasoning_steps, acting_steps. rewrite !length_fmap, !filter_fst_length, Hm.
  auto.
Qed.


(** *** Growth of the conversation *)

Lemma run_calls_observations (calls : list tool_call) (w w' : W)
    (msgs : list message) :
  run_calls W call_tool calls w = (Ok msgs, w') ->
  Forall2 (fun c m => exists out, m = ToolMessage out (call_id c)) calls msgs.
Proof.
  revert w msgs. induction calls as [|c calls IH]; intros w msgs; cbn [run_calls].
  - py_unfold. intros [= <- _]. constructor.
  - py_unfold. destruct (call_tool c w) as [[out|e] w1]; [|done].
    destruct (run_calls W call_tool calls w1) as [[more|e] w2] eqn:Hrest; [|done].
    intros [= <- <-]. constructor; [eauto|]. by eapply IH.
Qed.

Lemma tools_step (st st' : state) (n' : node) (w w' : W) :
  step W graph tools st w = (Ok (n', st'), w') ->
  exists content calls new,
    last st = Some (AIMessage content calls)
    /\ st' = st ++ new
    /\ Forall2 (fun c m => exists out, m = ToolMessage out (call_id c)) calls new.
Proof.
  unfold step, next_node; cbn [build_graph node_fn conditional_edge edge].
  unfold ToolNode. py_unfold. rewrite list_getitem_minus_one.
  destruct (last st) as [[| content calls | |]|]; try done.
  destruct (run_calls W call_tool calls w) as [[new|] w1] eqn:Hrun; [|done].
  intros [= _ <- _]. exists content, calls, new.
  split; [done|]. split; [done|]. by eapply run_calls_observations.
Qed.

Lemma messages_added_snoc (trace : list (node * state)) (n : node) (st : state) :
  messages_added (trace ++ [(n, st)])
  = (messages_added trace
     + match n with
       | agent => 1
       | tools => requested_calls st
       | _ => 0
       end)%nat.
Proof.
  unfold messages_added, reasoning_steps, acting_steps.
  rewrite !List.filter_app, !fmap_app, !length_app, !sum_list_with_app.
  destruct n; simpl; lia.
Qed.

Lemma run_from_growth (fuel : nat) (n : node) (st : state)
    (trace : list (node * state)) (w w' : W)
    (final : state) (trace' : list (node * state)) :
  run_from W graph fuel n st trace w = (Ok (final, trace'), w') ->
  (length final + messages_added trace = length st + messages_added trace')%nat.
Proof.
  revert n st trace w. induction fuel as [|fuel IH]; intros n st trace w.
  - destruct n; cbn [run_from]; py_unfold; try done. by intros [= <- <- _].
  - destruct (decide (n = END)) as [->|Hn].
    { rewrite run_from_END. by intros [= <- <- _]. }
    rewrite run_from_unfold by done.
    destruct (step W graph n st w) as [[[n1 st1]|] w1] eqn:Hstep; [|done].
    cbn [fst snd]. intros Hrun. apply IH in Hrun.
    destruct n; try done; cbn [build_graph node_fn] in Hrun.
    + apply step_cases in Hstep as [_ [_ ->]]. done.
    + apply step_cases in Hstep as [_ (content & calls & -> & _)].
      rewrite messages_added_snoc, length_app in Hrun. simpl in Hrun. lia.
    + apply tools_step in Hstep as (content & calls & new & Hlast & -> & Hobs).
      rewrite messages_added_snoc, length_app in Hrun.
      unfold requested_calls in Hrun. rewrite Hlast in Hrun.
      apply Forall2_length in Hobs. lia.
Qed.

(** Property X12.  The final conversation holds the query, one reply
    per Reasoning step and one observation per requested tool call: nothing
    else is added and nothing is dropped. *)
Theorem transcript_grows_by_replies_and_observations
    (query : string) (w w' : W) (answer : string) (final : state)
    (trace : list (node * state)) :
  run W llm call_tool system_prompt query w = (Ok (answer, final, trace), w') ->
  length final = (1 + messages_added trace)%nat.
Proof.
  unfold run, invoke. py_unfold.
  destruct (run_from _ _ _ _ _ _ w) as [[[final' trace']|e] w1] eqn:Hrun; [|done].
  cbn [fst snd]. destruct (list_getitem final' (-1)); [|done].
  intros [= _ <- <- _].
  apply run_from_growth in Hrun. simpl in Hrun.
  unfold messages_added at 1 in Hrun. simpl in Hrun. lia.
Qed.

(** Property X13.  When the model fails on the first call, [run]
    raises the model's exception and leaves the tool layer untouched. *)
Theorem model_failure_ends_the_session
    (query : string) (w : W) (e : exn) :
  llm (model_input [HumanMessage query]) = Raise e ->
  run W llm call_tool system_prompt query w = (Raise e, w).
Proof.
  intros Hllm. unfold run, invoke. py_unfold.
  change DEFAULT_RECURSION_LIMIT with (S (S 23)).
  rewrite run_from_START, run_from_unfold by done.
  unfold step. cbn [build_graph node_fn]. unfold _call_model. py_unfold.
  by rewrite Hllm.
Qed.

Lemma run_from_never_ends (fuel : nat) (n : node) (st : state)
    (trace : list (node * state)) (w : W) :
  (forall ctx, exists content calls, llm ctx = Ok (content, calls) /\ calls <> []) ->
  (forall c w0, exists out w1, call_tool c w0 = (Ok out, w1)) ->
  n <> END ->
  (n = tools -> exists content calls, last st = Some (AIMessage content calls)) ->
  exists w',
    run_from W graph fuel n st trace w
    = (Raise (OtherError "GraphRecursionError"), w').
Proof.
  intros Hllm Htool. revert n st trace w.
  induction fuel as [|fuel IH]; intros n st trace w Hn Hlast.
  - destruct n; try done; cbn [run_from]; py_unfold; eauto.
  - rewrite run_from_unfold by done.
    destruct n; try done.
    + change (step W graph START st w) with (Ok (agent, st), w). cbn [fst snd].
      apply IH; done.
    + destruct (Hllm (model_input st)) as (content & calls & Hc & Hne).
      rewrite (agent_step W llm call_tool system_prompt st w content calls Hc).
      rewrite bool_decide_false by done. cbn [fst snd].
      apply IH; [done|]. intros _. exists content, calls. by rewrite last_snoc.
    + destruct Hlast as (content & calls & Hl); [done|].
      assert (exists new w1, ToolNode W call_tool st w = (Ok new, w1)) as (new & w1 & Hnew).
      { unfold ToolNode. py_unfold. rewrite list_getitem_minus_one, Hl.
        clear Hl. revert w. induction calls as [|c calls IHc]; intros w;
          cbn [run_calls]; py_unfold; [eauto|].
        destruct (Htool c w) as (out & w1 & ->).
        destruct (IHc w1) as (more & w2 & ->). eauto. }
      unfold step, next_node. cbn [build_graph node_fn conditional_edge edge].
      py_unfold. rewrite Hnew. cbn [fst snd].
      apply IH; done.
Qed.

(** Property X14.  With a model that asks for a tool in every reply,
    and tools that return, [run] does not end by itself: it raises
    [GraphRecursionError] at the recursion limit. *)
Theorem endless_tool_requests_hit_the_recursion_limit (query : string) (w : W) :
  (forall ctx, exists content calls, llm ctx = Ok (content, calls) /\ calls <> []) ->
  (forall c w0, exists out w1, call_tool c w0 = (Ok out, w1)) ->
  exists w',
    run W llm call_tool system_prompt query w
    = (Raise (OtherError "GraphRecursionError"), w').
Proof.
  intros Hllm Htool. unfold run, invoke. py_unfold.
  destruct (run_from_never_ends DEFAULT_RECURSION_LIMIT START
              [HumanMessage query] [] w Hllm Htool) as [w' ->]; [done|done|].
  eauto.
Qed.


(** A run whose tool calls all return can only fail in the model or at the
    recursion limit. *)
Lemma run_from_failure (fuel : nat) (n : node) (st : state)
    (trace : list (node * state)) (w w' : W) (e : exn) :
  (forall c w0, exists out, (call_tool c w0).1 = Ok out) ->
  (n = tools -> exists content calls, last st = Some (AIMessage content calls)) ->
  run_from W graph fuel n st trace w = (Raise e, w') ->
  e = OtherError "GraphRecursionError" \/ exists ctx, llm ctx = Raise e.
Proof.
  intros Htool. revert n st trace w.
  induction fuel as [|fuel IH]; intros n st trace w Hlast.
  - destruct n; cbn [run_from]; py_unfold; try done; intros [= <- _]; by left.
  - destruct (decide (n = END)) as [->|Hn].
    { by rewrite run_from_END. }
    rewrite run_from_unfold by done.
    destruct n; try done.
    + change (step W graph START st w) with (Ok (agent, st), w). cbn [fst snd].
      by apply IH.
    + destruct (llm (model_input st)) as [[content calls]|e0] eqn:Hc.
      * rewrite (agent_step W llm call_tool system_prompt st w content calls Hc).
        cbn [fst snd]. apply IH. intros _. exists content, calls.
        by rewrite last_snoc.
      * unfold step. cbn [build_graph node_fn]. unfold _call_model. py_unfold.
        rewrite Hc. intros [= <- _]. right. eauto.
    + destruct Hlast as (content & calls & Hl); [done|].
      assert (exists new w1, ToolNode W call_tool st w = (Ok new, w1))
        as (new & w1 & Hnew).
      { unfold ToolNode. py_unfold. rewrite list_getitem_minus_one, Hl.
        clear Hl. revert w. induction calls as [|c calls IHc]; intros w;
          cbn [run_calls]; py_unfold; [eauto|].
        destruct (Htool c w) as (out & Hout).
        destruct (call_tool c w) as [r w1]. simpl in Hout. subst r.
        destruct (IHc w1) as (more & w2 & ->). eauto. }
      unfold step, next_node. cbn [build_graph node_fn conditional_edge edge].
      py_unfold. rewrite Hnew. cbn [fst snd].
      by apply IH.
Qed.

Lemma run_failure (query : string) (w w' : W) (e : exn) :
  (forall c w0, exists out, (call_tool c w0).1 = Ok out) ->
  run W llm call_tool system_prompt query w = (Raise e, w') ->
  e = OtherError "GraphRecursionError" \/ exists ctx, llm ctx = Raise e.
Proof.
  intros Htool. unfold run, invoke. py_unfold.
  destruct (run_from _ _ _ _ _ _ w) as [[[final trace]|e0] w1] eqn:Hrun.
  - cbn [fst snd].
    apply run_from_ends in Hrun as (_ & _ & Hlast).
    destruct Hlast as [content Hc]; [done|].
    by rewrite list_getitem_minus_one, Hc.
  - intros [= <- _]. eapply run_from_failure; [done| |exact Hrun]. done.
Qed.

End WithServices.

(** *** The statements above at concrete inputs *)

Lemma answer_of_the_search_session :
  last Fixtures.final_conversation = Some (AIMessage "Try Trattoria." [])
  /\ [HumanMessage "pizza?"] `prefix_of` Fixtures.final_conversation
  /\ Forall (fun p => p.2 `prefix_of` Fixtures.final_conversation)
            Fixtures.session_trace.
Proof.
  apply (run_answer_is_the_final_reply
           unit Examples.llm_one_search Examples.tool_stub "SYSTEM"
           "pizza?" tt tt).
  vm_compute. reflexivity.
Defined.

Lemma steps_of_the_search_session :
  exists m : nat,
    fst <$> Fixtures.session_trace = agent :: mjoin (replicate m [tools; agent])
    /\ length (reasoning_steps Fixtures.session_trace) = S m
    /\ length (acting_steps Fixtures.session_trace) = m.
Proof.
  apply (run_alternates_reasoning_and_acting
           unit Examples.llm_one_search Examples.tool_stub "SYSTEM"
           "pizza?" tt tt "Try Trattoria." Fixtures.final_conversation).
  vm_compute. reflexivity.
Defined.

Lemma length_of_the_search_session :
  length Fixtures.final_conversation
  = (1 + messages_added Fixtures.session_trace)%nat.
Proof.
  apply (transcript_grows_by_replies_and_observations
           unit Examples.llm_one_search Examples.tool_stub "SYSTEM"
           "pizza?" tt tt "Try Trattoria.").
  vm_compute. reflexivity.
Defined.

Lemma session_with_the_model_down :
  run unit Fixtures.llm_down Examples.tool_stub "SYSTEM" "pizza?" tt
  = (Raise (OtherError "APIConnectionError"), tt).
Proof.
  apply (model_failure_ends_the_session
           unit Fixtures.llm_down Examples.tool_stub "SYSTEM" "pizza?" tt).
  reflexivity.
Defined.

Lemma session_of_a_model_that_never_answers :
  exists w',
    run unit Fixtures.llm_loop Examples.tool_stub "SYSTEM" "pizza?" tt
    = (Raise (OtherError "GraphRecursionError"), w').
Proof.
  apply (endless_tool_requests_hit_the_recursion_limit
           unit Fixtures.llm_loop Examples.tool_stub "SYSTEM" "pizza?" tt).
  - intros ctx. exists "", [Examples.search_call].
    split; [reflexivity | discriminate].
  - intros c w0. exists "[]", w0. reflexivity.
Defined.

End LoopFacts.

(** ** Sessions in the wired process *)

Module ProcessExtras.
Import MultimodalRetriever Tools Agent FoodFinder ToolFacts ProcessFacts.

Section WithServices.
Variable text_embed : string -> result Faiss.vec.
Variable image_embed : string -> result Faiss.vec.
Variable json_dumps : list dict -> result string.
Variable str_exn : exn -> string.
Variable format_exc : exn -> string.
Variable image : Type.
Variable open_image : string -> result image.
Variable clip_probs : image -> list string -> result (list Q).
Variable fmt_1f : Q -> string.
Variable pretty_nat : nat -> string.
Variable invalid_call : tool_call -> string.
Variable llm : state -> result (string * list tool_call).
Variable system_prompt : string.

(** Property X15.  In the process wired by the toolkit, a session
    can only fail with an exception of the model or with
    [GraphRecursionError]: no failure inside a tool ends a session. *)
Theorem session_fails_only_in_the_model_or_at_the_limit
    (query : string) (p p' : process) (e : exn) :
  agent_run text_embed image_embed json_dumps str_exn format_exc
            image open_image clip_probs fmt_1f pretty_nat invalid_call
            llm system_prompt query p = (Raise e, p') ->
  e = OtherError "GraphRecursionError" \/ exists ctx, llm ctx = Raise e.
Proof.
  unfold agent_run. apply LoopFacts.run_failure.
  intros c p0. apply call_tool_returns.
Qed.

End WithServices.

(** *** The statement above at a concrete input *)

Lemma failure_of_a_process_with_the_model_down :
  OtherError "APIConnectionError" = OtherError "GraphRecursionError"
  \/ exists ctx, Fixtures.llm_down ctx = Raise (OtherError "APIConnectionError").
Proof.
  apply (session_fails_only_in_the_model_or_at_the_limit
           Examples.embed_one Examples.embed_one Fixtures.json_dumps
           Fixtures.str_exn Fixtures.format_exc unit Fixtures.open_image
           Fixtures.clip_probs Fixtures.fmt_1f Fixtures.pretty_nat
           Fixtures.invalid_call Fixtures.llm_down "SYSTEM" "pizza?"
           (start Examples.fs_both "indexes")
           (start Examples.fs_both "indexes")).
  vm_compute. reflexivity.
Defined.

End ProcessExtras.

(** ** Image embedding in batches *)

Module EmbedderFacts.
Import FAISSIndexFacts ImageEmbedder.

Section Batches.
Local Open Scope nat_scope.

Lemma chunks_full (n bs m : nat) :
  m * bs <= n ->
  mjoin ((fun i => seq i (Nat.min bs (n - i))) <$> ((fun j => j * bs) <$> seq 0 m))
  = seq 0 (m * bs).
Proof.
  induction m as [|m IH]; intros Hm; [done|].
  rewrite seq_S, !fmap_app, join_app, IH by lia. simpl.
  rewrite app_nil_r, Nat.min_l by lia.
  replace (bs + m * bs) with (m * bs + bs) by lia.
  by rewrite seq_app.
Qed.

(** The batches cover the positions of the paths, in order. *)
Lemma batches_cover (n bs : nat) :
  bs <> 0 ->
  mjoin ((fun i => seq i (Nat.min bs (n - i))) <$> batch_starts n bs)
  = seq 0 n.
Proof.
  intros Hbs. unfold batch_starts.
  pose proof (Nat.div_mod_eq (n + bs - 1) bs) as Hdm.
  pose proof (Nat.mod_upper_bound (n + bs - 1) bs Hbs) as Hr.
  set (m := (n + bs - 1) / bs) in *.
  set (r := (n + bs - 1) mod bs) in *.
  destruct m as [|m].
  - assert (n = 0) as -> by lia. done.
  - rewrite seq_S, !fmap_app, join_app, chunks_full by nia. simpl.
    rewrite app_nil_r, Nat.min_r by nia.
    trans (seq 0 (m * bs + (n - m * bs))); [by rewrite seq_app|].
    f_equal. nia.
Qed.

Section WithServices.
Variable image : Type.
Variable open_image : string -> result image.
Variable get_image_features : list image -> result Np.ndarray.

Local Abbreviation opens paths :=
  (fun i : nat => match paths !! i with
                  | Some path => is_ok (open_image path)
                  | None => false
                  end).

Lemma load_batch_spec (paths : list string) (i idx : nat) (l : list string) :
  (forall j, j < length l -> l !! j = paths !! (i + idx + j)) ->
  (load_batch image open_image i idx l).2
  = List.filter (opens paths) (seq (i + idx) (length l))
  /\ length (load_batch image open_image i idx l).1
     = length (load_batch image open_image i idx l).2.
Proof.
  revert idx. induction l as [|p l IH]; intros idx Hl; [done|].
  cbn [load_batch length seq List.filter].
  destruct (IH (S idx)) as [IH1 IH2].
  { intros j Hj. replace (i + S idx + j) with (i + idx + S j) by lia.
    rewrite <- Hl by (simpl; lia). done. }
  destruct (load_batch image open_image i (S idx) l) as [imgs valid].
  simpl in IH1, IH2.
  pose proof (Hl 0 ltac:(simpl; lia)) as H0. rewrite Nat.add_0_r in H0.
  rewrite <- H0. simpl.
  replace (S (i + idx)) with (i + S idx) by lia.
  destruct (open_image p); simpl; split; congruence.
Qed.

Lemma load_batch_slice (paths : list string) (bs i : nat) :
  let b := load_batch image open_image i 0 (take bs (drop i paths)) in
  b.2 = List.filter (opens paths) (seq i (Nat.min bs (length paths - i)))
  /\ length b.1 = length b.2.
Proof.
  intros b.
  destruct (load_batch_spec paths i 0 (take bs (drop i paths))) as [H1 H2].
  { intros j Hj. rewrite length_take, length_drop in Hj.
    rewrite lookup_take_lt by lia. rewrite lookup_drop. f_equal. lia. }
  rewrite length_take, length_drop, Nat.add_0_r in H1. done.
Qed.

Lemma openable_batches (paths : list string) (bs : nat) :
  bs <> 0 ->
  mjoin ((fun i => List.filter (opens paths)
                     (seq i (Nat.min bs (length paths - i))))
           <$> batch_starts (length paths) bs)
  = openable image open_image paths.
Proof.
  intros Hbs. unfold openable.
  rewrite <- (batches_cover (length paths) bs Hbs).
  induction (batch_starts (length paths) bs) as [|i starts IH]; [done|].
  rewrite !fmap_cons. simpl. rewrite List.filter_app. by rewrite IH.
Qed.

(** The indices collected by the outer loop, whatever the model returns. *)
Lemma embed_batches_indices (paths : list string) (bs : nat)
    (starts : list nat) (embs embs' : list Np.ndarray) (valid valid' : list nat) :
  embed_batches image open_image get_image_features paths bs starts embs valid
  = Ok (embs', valid') ->
  valid' = valid ++ mjoin ((fun i => List.filter (opens paths)
                              (seq i (Nat.min bs (length paths - i))))
                             <$> starts).
Proof.
  revert embs valid. induction starts as [|i starts IH]; intros embs valid.
  - cbn [embed_batches]. intros [= <- <-]. simpl. by rewrite app_nil_r.
  - cbn [embed_batches].
    destruct (load_batch_slice paths bs i) as [H1 H2].
    destruct (load_batch image open_image i 0 (take bs (drop i paths)))
      as [imgs v]. simpl in H1, H2.
    rewrite fmap_cons. simpl. rewrite <- H1.
    case_bool_decide as Hlen.
    + intros H. apply IH in H. rewrite Hlen in H2.
      destruct v; [|done]. done.
    + destruct (get_image_features imgs) as [f|]; [|done].
      intros H. apply IH in H. by rewrite <- app_assoc in H.
Qed.

Lemma embed_batch_positive (paths : list string) (bs : Z) :
  (0 < bs)%Z ->
  embed_batch image open_image get_image_features paths bs
  = match embed_batches image open_image get_image_features paths (Z.to_nat bs)
            (batch_starts (length paths) (Z.to_nat bs)) [] [] with
    | Raise e => Raise e
    | Ok (embeddings, all_valid_indices) =>
        if bool_decide (length embeddings = 0)
        then Ok (Np.mk_ndarray [0; dimension] [], all_valid_indices)
        else match vstack embeddings with
             | Raise e => Raise e
             | Ok result => Ok (result, all_valid_indices)
             end
    end.
Proof.
  intros Hbs. unfold embed_batch, batch_range.
  rewrite (proj2 (Z.eqb_neq bs 0)) by lia.
  by rewrite (proj2 (Z.ltb_lt 0 bs)) by lia.
Qed.

(** The returned indices are the positions of the paths that open, in
    increasing order, whatever the positive batch size and the model's
    output. *)
Lemma embed_batch_valid (paths : list string) (bs : Z)
    (result : Np.ndarray) (valid : list nat) :
  (0 < bs)%Z ->
  embed_batch image open_image get_image_features paths bs = Ok (result, valid) ->
  valid = openable image open_image paths.
Proof.
  intros Hbs. rewrite embed_batch_positive by done.
  destruct (embed_batches _ _ _ _ _ _ _ _) as [[embs v]|] eqn:Hb; [|done].
  apply embed_batches_indices in Hb. simpl in Hb.
  rewrite openable_batches in Hb by lia. subst v.
  case_bool_decide; [by intros [= _ <-]|].
  destruct (vstack embs); [|done]. by intros [= _ <-].
Qed.

Lemma embed_batches_shapes (paths : list string) (bs : nat)
    (starts : list nat) (embs : list Np.ndarray) (valid : list nat) :
  row_per_image image get_image_features ->
  stacked embs (length valid) ->
  exists embs' valid',
    embed_batches image open_image get_image_features paths bs starts embs valid
    = Ok (embs', valid')
    /\ stacked embs' (length valid').
Proof.
  intros Hmodel. revert embs valid.
  induction starts as [|i starts IH]; intros embs valid Hst.
  - cbn [embed_batches]. eauto.
  - cbn [embed_batches].
    destruct (load_batch_slice paths bs i) as [_ H2].
    destruct (load_batch image open_image i 0 (take bs (drop i paths)))
      as [imgs v]. simpl in H2.
    case_bool_decide as Hlen; [by apply IH|].
    destruct (Hmodel imgs) as [dat ->]; [by destruct imgs|].
    apply IH. destruct Hst as [Hall Hsum]. split.
    + apply Forall_app. split; [done|]. constructor; [|done]. eauto.
    + rewrite fmap_app, sum_list_with_app, length_app. simpl.
      fold (sum_list ((fun b => default 0 (head (Np.shape b))) <$> embs)).
      rewrite Hsum. lia.
Qed.

Lemma atleast_2d_stacked (embs : list Np.ndarray) :
  Forall (fun a => exists r, Np.shape a = [r; dimension]) embs ->
  atleast_2d <$> embs = embs.
Proof.
  induction 1 as [|a embs [r Hr] _ IH]; [done|].
  rewrite fmap_cons, IH. f_equal. unfold atleast_2d. by rewrite Hr.
Qed.

Lemma vstack_stacked (embs : list Np.ndarray) (n : nat) :
  embs <> [] -> stacked embs n ->
  exists dat, vstack embs = Ok (Np.mk_ndarray [n; dimension] dat).
Proof.
  intros Hne [Hall Hsum]. unfold vstack.
  rewrite atleast_2d_stacked by done.
  destruct embs as [|a rest]; [done|].
  apply Forall_cons in Hall as [[r Hr] Hrest].
  replace (forallb _ rest) with true.
  - rewrite Hsum, Hr. simpl. eauto.
  - symmetry. apply forallb_forall. intros b Hb.
    apply bool_decide_eq_true.
    apply list_elem_of_In in Hb.
    apply (proj1 (Forall_forall _ _) Hrest) in Hb as [r' ->]. by rewrite Hr.
Qed.

(** With a model that gives one row of features per image, embedding
    succeeds for every positive batch size and returns one row per path
    that opens, together with the positions of these paths. *)
Lemma embed_batch_aligned (paths : list string) (bs : Z) :
  (0 < bs)%Z -> row_per_image image get_image_features ->
  exists dat,
    embed_batch image open_image get_image_features paths bs
    = Ok (Np.mk_ndarray [length (openable image open_image paths); dimension] dat,
          openable image open_image paths).
Proof.
  intros Hbs Hmodel.
  pose proof (fun result valid => embed_batch_valid paths bs result valid Hbs)
    as Hidx.
  rewrite embed_batch_positive in * by done.
  destruct (embed_batches_shapes paths (Z.to_nat bs)
              (batch_starts (length paths) (Z.to_nat bs))
              [] [] Hmodel) as (embs & valid & Hb & Hst); [done|].
  rewrite Hb in *.
  case_bool_decide as Hlen.
  - specialize (Hidx _ _ eq_refl). subst valid.
    destruct embs; [|done]. destruct Hst as [_ Hsum]. simpl in Hsum.
    rewrite <- Hsum. eauto.
  - destruct (vstack_stacked embs (length valid)) as [dat Hv];
      [by destruct embs|done|].
    rewrite Hv in *. specialize (Hidx _ _ eq_refl). subst valid. eauto.
Qed.

Lemma embed_batches_none (paths : list string) (bs : nat) (starts : list nat) :
  openable image open_image paths = [] ->
  embed_batches image open_image get_image_features paths bs starts [] []
  = Ok ([], []).
Proof.
  intros Hnone. induction starts as [|i starts IH]; [done|].
  cbn [embed_batches].
  destruct (load_batch_slice paths bs i) as [H1 H2].
  destruct (load_batch image open_image i 0 (take bs (drop i paths)))
    as [imgs v]. simpl in H1, H2.
  assert (v = []) as ->.
  { rewrite H1.
    destruct (List.filter _ _) as [|j rest] eqn:Hf; [done|].
    assert (In j (List.filter (opens paths)
                    (seq i (Nat.min bs (length paths - i))))) as Hj
      by (rewrite Hf; by left).
    apply filter_In in Hj as [Hin Hopen].
    assert (j ∈ openable image open_image paths) as Hmem; [|by rewrite Hnone in Hmem; set_solver].
    unfold openable. apply list_elem_of_In, filter_In. split; [|done].
    apply in_seq. destruct (paths !! j) eqn:Hp; [|done].
    apply lookup_lt_Some in Hp. lia. }
  rewrite bool_decide_true by done.
  apply IH.
Qed.

(** When no path opens, the result is the empty array of shape
    [(0, 512)] and no index; the model is not consulted. *)
Lemma embed_batch_none (paths : list string) (bs : Z) :
  (0 < bs)%Z -> openable image open_image paths = [] ->
  embed_batch image open_image get_image_features paths bs
  = Ok (Np.mk_ndarray [0; 512] [], []).
Proof.
  intros Hbs Hnone. rewrite embed_batch_positive by done.
  by rewrite embed_batches_none.
Qed.

(** With a negative batch size the loop does not run. *)
Lemma embed_batch_negative (paths : list string) (bs : Z) :
  (bs < 0)%Z ->
  embed_batch image open_image get_image_features paths bs
  = Ok (Np.mk_ndarray [0; 512] [], []).
Proof.
  intros Hbs. unfold embed_batch, batch_range.
  rewrite (proj2 (Z.eqb_neq bs 0)) by lia.
  by rewrite (proj2 (Z.ltb_ge 0 bs)) by lia.
Qed.

(** Property X16.  With a positive batch size, the indices
    [embed_batch] returns are the positions of the paths that open, in
    increasing order, whatever the size of the batches and the model's
    output.  With a negative batch size no path is visited: the result is
    the empty array of shape [(0, 512)] and no index.  A batch size of 0 is a
    division by zero. *)
Theorem embed_batch_indices (paths : list string) (bs : Z) :
  ((0 < bs)%Z ->
   forall (result : Np.ndarray) (valid : list nat),
     embed_batch image open_image get_image_features paths bs
     = Ok (result, valid) ->
     valid = openable image open_image paths)
  /\ ((bs < 0)%Z ->
      embed_batch image open_image get_image_features paths bs
      = Ok (Np.mk_ndarray [0; 512] [], []))
  /\ (bs = 0%Z ->
      embed_batch image open_image get_image_features paths bs
      = Raise (OtherError "ZeroDivisionError")).
Proof.
  split; [|split].
  - intros Hbs result valid. by apply embed_batch_valid.
  - apply embed_batch_negative.
  - by intros ->.
Qed.

(** Property X17.  With a model that gives one row of features per
    image, [embed_batch] succeeds for every positive batch size and returns
    an array with one row per path that opens, together with the positions
    of these paths. *)
Theorem embed_batch_rows_match_indices (paths : list string) (bs : Z) :
  (0 < bs)%Z -> row_per_image image get_image_features ->
  exists dat,
    embed_batch image open_image get_image_features paths bs
    = Ok (Np.mk_ndarray [length (openable image open_image paths); dimension] dat,
          openable image open_image paths).
Proof. apply embed_batch_aligned. Qed.

(** Property X18.  When no path opens, [embed_batch] returns the
    empty array of shape [(0, 512)] and no index, without consulting the
    model. *)
Theorem embed_batch_without_readable_image (paths : list string) (bs : Z) :
  (0 < bs)%Z -> openable image open_image paths = [] ->
  embed_batch image open_image get_image_features paths bs
  = Ok (Np.mk_ndarray [0; 512] [], []).
Proof. apply embed_batch_none. Qed.

End WithServices.

(** *** The statements above at concrete inputs *)

Lemma indices_of_three_photos :
  [0; 2] = openable unit Fixtures.open_image Fixtures.photos
  /\ embed_batch unit Fixtures.open_image Fixtures.get_image_features
                 Fixtures.photos (-1)
     = Ok (Np.mk_ndarray [0; 512] [], [])
  /\ embed_batch unit Fixtures.open_image Fixtures.get_image_features
                 Fixtures.photos 0
     = Raise (OtherError "ZeroDivisionError").
Proof.
  destruct (embed_batch_indices
              unit Fixtures.open_image Fixtures.get_image_features
              Fixtures.photos 2) as (Hpos & _ & _).
  destruct (embed_batch_indices
              unit Fixtures.open_image Fixtures.get_image_features
              Fixtures.photos (-1)) as (_ & Hneg & _).
  destruct (embed_batch_indices
              unit Fixtures.open_image Fixtures.get_image_features
              Fixtures.photos 0) as (_ & _ & Hzero).
  split; [|split].
  - apply (Hpos ltac:(lia) (Np.mk_ndarray [2; 512] (replicate 1024 0%Z))).
    vm_compute. reflexivity.
  - apply Hneg. lia.
  - apply Hzero. reflexivity.
Defined.

Lemma rows_of_three_photos :
  exists dat,
    embed_batch unit Fixtures.open_image Fixtures.get_image_features
                Fixtures.photos 2
    = Ok (Np.mk_ndarray
            [length (openable unit Fixtures.open_image Fixtures.photos);
             dimension] dat,
          openable unit Fixtures.open_image Fixtures.photos).
Proof.
  apply (embed_batch_rows_match_indices
           unit Fixtures.open_image Fixtures.get_image_features
           Fixtures.photos 2).
  - lia.
  - intros images _. eexists. reflexivity.
Defined.

Lemma embedding_of_broken_photos :
  embed_batch unit Fixtures.open_image Fixtures.get_image_features
              Fixtures.broken_photos 32
  = Ok (Np.mk_ndarray [0; 512] [], []).
Proof.
  apply (embed_batch_without_readable_image
           unit Fixtures.open_image Fixtures.get_image_features
           Fixtures.broken_photos 32).
  - lia.
  - reflexivity.
Defined.

End Batches.

End EmbedderFacts.

(** ** Building the image index *)

Module BuildFacts.
Import Faiss FaissFacts FAISSIndexFacts Persist FAISSIndex BuildIndices.



Section WithServices.
Variable kmeans : list vec -> list vec.
Variable write_none : string -> Fs.t -> result unit * Fs.t.
Variable image : Type.
Variable open_image : string -> result image.
Variable get_image_features : list image -> result Np.ndarray.

Lemma add_to_new_flat (dim n : nat) (dat : list Z) (md : list nat) :
  length md = n ->
  add kmeans (Np.mk_ndarray [n; dim] dat) md (__init__ dim "Flat")
  = (Ok tt,
     mk dim "Flat"
        (Some (mk_index dim IndexFlatL2 true []
                        (Np.rows (Np.mk_ndarray [n; dim] dat)))) md).
Proof.
  intros Hlen.
  unfold add, mbind, py_bind, bind, get, create_index, on_index; simpl.
  rewrite (bool_decide_true (Some dim = Some dim)) by done.
  rewrite (bool_decide_true (Some n = _)) by (by rewrite Hlen).
  simpl. unfold Faiss.add; simpl. by rewrite Nat.eqb_refl.
Qed.

Local Abbreviation build :=
  (index_collected_images kmeans write_none image open_image get_image_features).


(** Property X20.  When none of the collected images opens,
    [build_image_index] still succeeds and saves an index without entries;
    every search on the index loaded from these files raises [IndexError]. *)
Theorem build_image_index_without_readable_image
    (paths : list string) (metadata : list nat) (e : env) :
  paths <> [] ->
  ImageEmbedder.openable image open_image paths = [] ->
  let ix := mk 512 "Flat" (Some (new_flat 512)) [] in
  let fs := <["indexes/image_metadata.pkl" := Fs.PickleFile []]>
              (<["indexes/image_index.faiss" := Fs.FaissFile (new_flat 512)]>
                 (env_files e)) in
  build paths metadata e = (Ok (Some ix), mk_env (env_objects e) fs ix)
  /\ forall (h : list dict) (self : FAISSIndex.t) (q : vec) (k : Z),
       length q = 512%nat -> 0 < k ->
       exists loaded,
         FAISSIndexIO.load fs "indexes/image_index.faiss"
                           "indexes/image_metadata.pkl" (h, self)
         = (Ok tt, (h, loaded))
         /\ search q k loaded = (Raise IndexError, loaded).
Proof.
  intros Hne Hnone ix fs. split.
  - unfold index_collected_images.
    rewrite bool_decide_false by (by destruct paths).
    py_unfold.
    rewrite EmbedderFacts.embed_batch_none by done.
    cbn [fst snd select].
    rewrite (add_to_new_flat 512 0 [] []) by done.
    cbn [fst snd env_objects env_files env_self].
    erewrite PersistFacts.save_ok by done.
    done.
  - intros h self q k Hq Hk.
    eexists. split.
    + erewrite (RetrieverFacts.load_ok fs _ _ h self (new_flat 512) []).
      * by rewrite app_nil_r.
      * subst fs. rewrite lookup_insert_ne by done. by rewrite lookup_insert_eq.
      * subst fs. by rewrite lookup_insert_eq.
    + rewrite search_unfold. cbn [index].
      unfold Faiss.search. cbn [d new_flat is_trained].
      rewrite Hq, Nat.eqb_refl. simpl negb.
      rewrite (proj2 (Z.leb_gt _ _)) by lia. cbn [fst snd candidates].
      simpl. destruct (Z.to_nat k) as [|p] eqn:Hp; [lia|]. reflexivity.
Qed.

End WithServices.

(** *** The statements above at concrete inputs *)


Lemma build_over_broken_photos :
  let ix := mk 512 "Flat" (Some (new_flat 512)) [] in
  let fs := <["indexes/image_metadata.pkl" := Fs.PickleFile []]>
              (<["indexes/image_index.faiss" := Fs.FaissFile (new_flat 512)]>
                 (env_files Fixtures.photo_env)) in
  index_collected_images Examples.kmeans Fixtures.write_none unit
    Fixtures.open_image Fixtures.get_image_features
    Fixtures.broken_photos [0; 1]%nat Fixtures.photo_env
  = (Ok (Some ix), mk_env (env_objects Fixtures.photo_env) fs ix)
  /\ forall (h : list dict) (self : FAISSIndex.t) (q : vec) (k : Z),
       length q = 512%nat -> 0 < k ->
       exists loaded,
         FAISSIndexIO.load fs "indexes/image_index.faiss"
                           "indexes/image_metadata.pkl" (h, self)
         = (Ok tt, (h, loaded))
         /\ search q k loaded = (Raise IndexError, loaded).
Proof.
  apply (build_image_index_without_readable_image
           Examples.kmeans Fixtures.write_none unit
           Fixtures.open_image Fixtures.get_image_features
           Fixtures.broken_photos [0; 1]%nat Fixtures.photo_env).
  - discriminate.
  - reflexivity.
Defined.

End BuildFacts.

(** ** Dataset scripts *)

Module ScriptFacts.
Import Tools Scripts.

(** *** Strings *)

Lemma string_app_cons (c : Ascii.ascii) (a b : string) :
  String c a +:+ b = String c (a +:+ b).
Proof. done. Qed.

Lemma string_app_nil_l (b : string) : "" +:+ b = b.
Proof. done. Qed.

Ltac ssimpl := rewrite ?string_app_cons, ?string_app_nil_l; simpl.

Lemma string_app_nil_r (s : string) : s +:+ "" = s.
Proof. induction s as [|c s IH]; ssimpl; by rewrite ?IH. Qed.

Lemma string_app_assoc (a b c : string) : (a +:+ b) +:+ c = a +:+ (b +:+ c).
Proof. induction a as [|x a IH]; ssimpl; by rewrite ?IH. Qed.

Lemma string_rev_app_spec (a b : string) : String.rev_app a b = String.rev a +:+ b.
Proof.
  unfold String.rev. revert b.
  induction a as [|x a IH]; intros b; ssimpl; [done|].
  rewrite (IH (String x b)), (IH (String x "")), string_app_assoc. done.
Qed.

Lemma string_rev_cons (c : Ascii.ascii) (s : string) :
  String.rev (String c s) = String.rev s +:+ String c "".
Proof. unfold String.rev at 1. ssimpl. apply string_rev_app_spec. Qed.

Lemma string_rev_app (a b : string) :
  String.rev (a +:+ b) = String.rev b +:+ String.rev a.
Proof.
  induction a as [|x a IH]; ssimpl.
  - by rewrite string_app_nil_r.
  - by rewrite !string_rev_cons, IH, string_app_assoc.
Qed.

Lemma string_rev_involutive (s : string) : String.rev (String.rev s) = s.
Proof.
  induction s as [|c s IH]; [done|].
  by rewrite string_rev_cons, string_rev_app, IH.
Qed.

Lemma lower_app (a b : string) : lower (a +:+ b) = lower a +:+ lower b.
Proof. induction a as [|c a IH]; ssimpl; by rewrite ?IH. Qed.

Lemma all_chars_app (P : Ascii.ascii -> bool) (a b : string) :
  all_chars P (a +:+ b) = all_chars P a && all_chars P b.
Proof.
  induction a as [|c a IH]; ssimpl; [done|]. by rewrite IH, andb_assoc.
Qed.

Lemma all_chars_rev (P : Ascii.ascii -> bool) (s : string) :
  all_chars P (String.rev s) = all_chars P s.
Proof.
  induction s as [|c s IH]; [done|].
  rewrite string_rev_cons, all_chars_app, IH. ssimpl.
  by rewrite andb_true_r, andb_comm.
Qed.

(** *** [strip] *)

Section Strip.
Variable chars : list Ascii.ascii.

Local Abbreviation stripped := (all_chars (fun c => existsb (Ascii.eqb c) chars)).

Lemma lstrip_all (a t : string) :
  stripped a = true -> lstrip chars (a +:+ t) = lstrip chars t.
Proof.
  induction a as [|c a IH]; ssimpl; [done|].
  intros [Hc Ha]%andb_true_iff. rewrite Hc. by apply IH.
Qed.

Lemma lstrip_decompose (s : string) :
  exists a, stripped a = true /\ s = a +:+ lstrip chars s.
Proof.
  induction s as [|c s (a & Ha & IH)]; ssimpl.
  - by exists "".
  - destruct (existsb (Ascii.eqb c) chars) eqn:Hc.
    + exists (String c a). ssimpl. rewrite Hc, Ha. split; [done|]. by f_equal.
    + by exists "".
Qed.

Lemma lstrip_head (s : string) (c : Ascii.ascii) (r : string) :
  lstrip chars s = String c r -> existsb (Ascii.eqb c) chars = false.
Proof.
  induction s as [|x s IH]; ssimpl; [done|].
  destruct (existsb (Ascii.eqb x) chars) eqn:Hx; [done|].
  by intros [= <- _].
Qed.

Lemma lstrip_fixed (c : Ascii.ascii) (r : string) :
  existsb (Ascii.eqb c) chars = false ->
  lstrip chars (String c r) = String c r.
Proof. intros Hc. ssimpl. by rewrite Hc. Qed.

Lemma lstrip_idemp (s : string) :
  lstrip chars (lstrip chars s) = lstrip chars s.
Proof.
  destruct (lstrip chars s) as [|c r] eqn:Hs; [done|].
  apply lstrip_fixed. by eapply lstrip_head.
Qed.

Lemma lstrip_app (t b : string) :
  lstrip chars t <> "" -> lstrip chars (t +:+ b) = lstrip chars t +:+ b.
Proof.
  induction t as [|c t IH]; ssimpl; [done|].
  destruct (existsb (Ascii.eqb c) chars); [done|]. done.
Qed.

Lemma lstrip_nil (t : string) :
  lstrip chars t = "" -> stripped t = true.
Proof.
  induction t as [|c t IH]; ssimpl; [done|].
  destruct (existsb (Ascii.eqb c) chars); [|done]. done.
Qed.

Lemma lstrip_stripped (t : string) :
  stripped t = true -> lstrip chars t = "".
Proof.
  intros Ht. rewrite <- (string_app_nil_r t). by rewrite lstrip_all.
Qed.

Lemma rstrip_all (t b : string) :
  stripped b = true -> rstrip chars (t +:+ b) = rstrip chars t.
Proof.
  intros Hb. unfold rstrip. rewrite string_rev_app, lstrip_all; [done|].
  by rewrite all_chars_rev.
Qed.

Lemma rstrip_decompose (s : string) :
  exists b, stripped b = true /\ s = rstrip chars s +:+ b.
Proof.
  destruct (lstrip_decompose (String.rev s)) as (a & Ha & Hs).
  exists (String.rev a). rewrite all_chars_rev. split; [done|].
  unfold rstrip. rewrite <- string_rev_app, <- Hs. by rewrite string_rev_involutive.
Qed.

Lemma rstrip_idemp (s : string) :
  rstrip chars (rstrip chars s) = rstrip chars s.
Proof. unfold rstrip. by rewrite string_rev_involutive, lstrip_idemp. Qed.

(** Stripping removes a prefix and a suffix of stripped characters. *)
Lemma strip_decompose (s : string) :
  exists a b, stripped a = true /\ stripped b = true
              /\ s = a +:+ strip chars s +:+ b.
Proof.
  destruct (lstrip_decompose s) as (a & Ha & Hs).
  destruct (rstrip_decompose (lstrip chars s)) as (b & Hb & Hr).
  exists a, b. split; [done|]. split; [done|].
  unfold strip. by rewrite <- Hr.
Qed.

Lemma strip_wrapped (a t b : string) :
  stripped a = true -> stripped b = true ->
  strip chars (a +:+ t +:+ b) = strip chars t.
Proof.
  intros Ha Hb. unfold strip. rewrite lstrip_all by done.
  destruct (lstrip chars t) as [|c r] eqn:Ht.
  - rewrite lstrip_stripped; [done|].
    rewrite all_chars_app, Hb, andb_true_r. by apply lstrip_nil.
  - rewrite lstrip_app by (by rewrite Ht). rewrite Ht. by apply rstrip_all.
Qed.

Lemma strip_idemp (s : string) : strip chars (strip chars s) = strip chars s.
Proof.
  unfold strip.
  assert (lstrip chars (rstrip chars (lstrip chars s))
          = rstrip chars (lstrip chars s)) as ->; [|apply rstrip_idemp].
  destruct (lstrip chars s) as [|c r] eqn:Hs; [done|].
  pose proof (lstrip_head _ _ _ Hs) as Hc.
  destruct (rstrip_decompose (String c r)) as (b & Hb & Hr).
  destruct (rstrip chars (String c r)) as [|c' r'] eqn:Hrs.
  - rewrite string_app_nil_l in Hr. subst b. simpl in Hb. by rewrite Hc in Hb.
  - rewrite string_app_cons in Hr. injection Hr as <- _. by apply lstrip_fixed.
Qed.

End Strip.

(** *** [parse_bool] and [clean_string] *)

(** Property X21.  [parse_bool] reads a text value regardless of the
    quotes, spaces and letters u (in either case) around it. *)
Theorem parse_bool_ignores_wrapping (pre s post : string) :
  wrapping (lower pre) = true -> wrapping (lower post) = true ->
  parse_bool (PStr (pre +:+ s +:+ post)) = parse_bool (PStr s).
Proof.
  intros Hpre Hpost. unfold parse_bool.
  by rewrite !lower_app, strip_wrapped.
Qed.

(** Property X22.  [clean_string] removes a prefix and a suffix made
    of quotes, spaces and letters u, and nothing else; cleaning the result
    again changes nothing. *)
Theorem clean_string_strips_wrapping_once (s : string) :
  exists pre cleaned post,
    clean_string (PStr s) = PStr cleaned
    /\ s = pre +:+ cleaned +:+ post
    /\ wrapping pre = true /\ wrapping post = true
    /\ clean_string (PStr cleaned) = PStr cleaned.
Proof.
  destruct (strip_decompose WRAPPING s) as (pre & post & Hpre & Hpost & Hs).
  exists pre, (strip WRAPPING s), post. cbn [clean_string].
  split; [done|]. split; [done|]. split; [done|]. split; [done|].
  by rewrite strip_idemp.
Qed.

(** *** [filter_restaurants] *)

Lemma keeps_true (b : pyval) : keeps b = Ok true <-> open_food_business b.
Proof.
  unfold keeps, open_food_business, dict_get. split.
  - destruct b as [| | | | | |d]; try done.
    destruct (d !! "categories") as [v|] eqn:Hv; cbn [default from_option id]; [|done].
    destruct (negb (truthy v)); [done|].
    destruct v as [| | | |c| |]; try done.
    destruct (any_in _ _) eqn:Hany; [|done].
    intros [= Hopen]. exists d, c. done.
  - intros (d & c & -> & Hc & Hany & Hopen). rewrite Hc. cbn [default from_option id truthy].
    destruct c as [|x c]; [done|]. cbn [String.eqb negb].
    by rewrite Hany, Hopen.
Qed.

Lemma keeps_readable (b : pyval) :
  match keeps b with
  | Ok _ => readable b
  | Raise e => e = AttributeError /\ ~ readable b
  end.
Proof.
  unfold keeps, readable, dict_get.
  destruct b as [| | | | | |d];
    try (split; [done|]; by intros (d & [=] & _)).
  destruct (d !! "categories") as [v|] eqn:Hv; cbn [default from_option id].
  2:{ cbn [truthy String.eqb negb]. exists d. by rewrite Hv. }
  destruct (negb (truthy v)) eqn:Ht.
  { exists d. rewrite Hv. apply negb_true_iff in Ht. by destruct v. }
  apply negb_false_iff in Ht.
  destruct v as [| | | |c| |];
    try (split; [done|]; intros (d' & [= <-] & Hd); rewrite Hv in Hd; congruence).
  assert (readable (PDict d)) as Hr by (exists d; by rewrite Hv).
  destruct (any_in _ _); done.
Qed.

Lemma filter_restaurants_kept (rs : list pyval) :
  Forall (fun b => keeps b = Ok true) rs -> filter_restaurants rs = Ok rs.
Proof.
  induction 1 as [|b rs Hb _ IH]; cbn [filter_restaurants]; [done|].
  by rewrite Hb, IH.
Qed.

Lemma filter_restaurants_spec (bs rs : list pyval) :
  filter_restaurants bs = Ok rs ->
  sublist rs bs
  /\ Forall (fun b => keeps b = Ok true) rs
  /\ (forall b, b ∈ bs -> keeps b = Ok true -> b ∈ rs).
Proof.
  revert rs. induction bs as [|b bs IH]; intros rs; cbn [filter_restaurants].
  - intros [= <-]. split; [done|]. split; [done|]. done.
  - destruct (keeps b) as [keep|] eqn:Hb; [|done].
    destruct (filter_restaurants bs) as [rs'|]; [|done].
    destruct (IH rs' eq_refl) as (Hsub & Hall & Hin).
    intros [= <-]. destruct keep.
    + split; [by constructor|]. split; [by constructor|].
      intros b' [->|Hb']%elem_of_cons Hk; [by left|]. right. by apply Hin.
    + split; [by constructor|]. split; [done|].
      intros b' [->|Hb']%elem_of_cons Hk; [congruence|]. by apply Hin.
Qed.

(** Property X23.  [filter_restaurants] keeps, in their order,
    exactly the open businesses whose categories name food or a restaurant;
    filtering the result again changes nothing. *)
Theorem filter_restaurants_keeps_open_food_businesses (bs rs : list pyval) :
  filter_restaurants bs = Ok rs ->
  sublist rs bs
  /\ (forall b, b ∈ rs <-> b ∈ bs /\ open_food_business b)
  /\ filter_restaurants rs = Ok rs.
Proof.
  intros (Hsub & Hall & Hin)%filter_restaurants_spec.
  split; [done|]. split.
  - intros b. split.
    + intros Hb. split.
      * by eapply elem_of_sublist.
      * apply keeps_true. by apply (proj1 (Forall_forall _ _) Hall).
    + intros [Hb Hopen]. apply Hin; [done|]. by apply keeps_true.
  - by apply filter_restaurants_kept.
Qed.

(** Property X24.  [filter_restaurants] fails, with
    [AttributeError], exactly when some record is not an object or has
    categories that are neither empty nor text. *)
Theorem filter_restaurants_fails_on_unreadable_records (bs : list pyval) :
  match filter_restaurants bs with
  | Ok _ => Forall readable bs
  | Raise e => e = AttributeError /\ ~ Forall readable bs
  end.
Proof.
  induction bs as [|b bs IH]; cbn [filter_restaurants]; [done|].
  pose proof (keeps_readable b) as Hb.
  destruct (keeps b) as [keep|e].
  - destruct (filter_restaurants bs) as [rs|e].
    + by constructor.
    + destruct IH as [-> Hn]. split; [done|].
      intros [_ H]%Forall_cons. done.
  - destruct Hb as [-> Hn]. split; [done|].
    intros [H _]%Forall_cons. done.
Qed.


(** *** The statements above at concrete inputs *)

Lemma parse_bool_of_a_quoted_value :
  parse_bool (PStr ("u'" +:+ "True" +:+ "'")) = parse_bool (PStr "True").
Proof.
  apply (parse_bool_ignores_wrapping "u'" "True" "'").
  - reflexivity.
  - reflexivity.
Defined.

Lemma filter_of_three_businesses :
  let rs := take 1 Fixtures.businesses in
  sublist rs Fixtures.businesses
  /\ (forall b, b ∈ rs <-> b ∈ Fixtures.businesses /\ open_food_business b)
  /\ filter_restaurants rs = Ok rs.
Proof.
  apply (filter_restaurants_keeps_open_food_businesses
           Fixtures.businesses (take 1 Fixtures.businesses)).
  vm_compute. reflexivity.
Defined.

End ScriptFacts.
